(** * MovieHubBD backend: a shallow embedding and its verified properties

    The development follows the layout of the backend:
    - [JS]: the fragment of the JavaScript runtime the code relies on
      (values, truthiness, string methods, the stable array sort);
    - [Mongo]: query documents and the way the store evaluates them;
    - [Helpers]: [backend/utils/helpers.js];
    - [SeriesModel], [SeriesController]: the Series schema with its
      pre-save hook, and the season/episode request handlers;
    - [AdModel], [AdController]: ad targeting and ad serving;
    - [ContentController]: the combined movie/series feed;
    - [UserModel]: the outward serialisation of a user.

    Part I holds the definitions, Part II the lemmas and theorems. *)

From Stdlib Require Import ZArith QArith Bool List String Ascii Lia Lqa.
From Stdlib Require Import Sorting.Sorted Numbers.DecimalString.
From stdpp Require Import base option list strings gmap.

Local Open Scope Z_scope.
Local Set Warnings "-register-all".

(* ===================================================================== *)
(** * Part I: definitions *)
(* ===================================================================== *)

(** ** The JavaScript fragment *)

Module JS.

(** *** Strings

    A string is a sequence of code units; the model covers the Latin-1
    range, one [ascii] per code unit. *)

Definition code (c : ascii) : N := N_of_ascii c.

Definition in_range (lo hi : N) (c : ascii) : bool :=
  ((lo <=? code c) && (code c <=? hi))%N.

Definition is_upper (c : ascii) : bool := in_range 65 90 c.
Definition is_lower (c : ascii) : bool := in_range 97 122 c.
Definition is_digit (c : ascii) : bool := in_range 48 57 c.
Definition is_hyphen (c : ascii) : bool := (code c =? 45)%N.
Definition is_underscore (c : ascii) : bool := (code c =? 95)%N.

(** [\w] of a regular expression without the [u] and [i] flags. *)
Definition is_word (c : ascii) : bool :=
  is_lower c || is_upper c || is_digit c || is_underscore c.

(** [\s], and the characters removed by [trim]: tab, line feed, vertical
    tab, form feed, carriage return, space and no-break space. *)
Definition is_space (c : ascii) : bool :=
  in_range 9 13 c || (code c =? 32)%N || (code c =? 160)%N.

(** Latin-1 upper-case letters beyond ASCII: U+00C0..U+00DE but U+00D7. *)
Definition is_upper_latin1 (c : ascii) : bool :=
  in_range 192 222 c && negb (code c =? 215)%N.

Definition lower_char (c : ascii) : ascii :=
  if is_upper c || is_upper_latin1 c then ascii_of_N (code c + 32) else c.

Fixpoint map_chars (f : ascii -> ascii) (s : string) : string :=
  match s with
  | EmptyString => EmptyString
  | String c s' => String (f c) (map_chars f s')
  end.

Fixpoint filter_chars (p : ascii -> bool) (s : string) : string :=
  match s with
  | EmptyString => EmptyString
  | String c s' => if p c then String c (filter_chars p s') else filter_chars p s'
  end.

Fixpoint all_chars (p : ascii -> bool) (s : string) : bool :=
  match s with
  | EmptyString => true
  | String c s' => p c && all_chars p s'
  end.

(** [drop_start p s] removes the longest prefix of [p]-characters,
    [drop_end p s] the longest such suffix. *)
Fixpoint drop_start (p : ascii -> bool) (s : string) : string :=
  match s with
  | EmptyString => EmptyString
  | String c s' => if p c then drop_start p s' else s
  end.

Fixpoint drop_end (p : ascii -> bool) (s : string) : string :=
  match s with
  | EmptyString => EmptyString
  | String c s' =>
      match drop_end p s' with
      | EmptyString => if p c then EmptyString else String c EmptyString
      | r => String c r
      end
  end.

Definition is_empty (s : string) : bool :=
  match s with EmptyString => true | _ => false end.

(** [String.prototype.toLowerCase] and [String.prototype.trim]. *)
Definition toLowerCase (s : string) : string := map_chars lower_char s.
Definition trim (s : string) : string := drop_end is_space (drop_start is_space s).

(** [s.replace(/[...]+/g, r)] for a character class [p]: every maximal run
    of [p]-characters becomes one copy of [r]. The flag tells whether the
    previous character already belonged to the run. *)
Fixpoint replace_runs (p : ascii -> bool) (r : ascii) (in_run : bool) (s : string) : string :=
  match s with
  | EmptyString => EmptyString
  | String c s' =>
      if p c
      then if in_run then replace_runs p r true s'
           else String r (replace_runs p r true s')
      else String c (replace_runs p r false s')
  end.

(** [s.split(sep)] for a one-character separator; the accumulator is the
    piece being read. The result is never empty. *)
Fixpoint split_on (sep : ascii) (s : string) : list string :=
  match s with
  | EmptyString => [EmptyString]
  | String c s' =>
      match split_on sep s' with
      | piece :: rest =>
          if Ascii.eqb c sep then EmptyString :: piece :: rest
          else String c piece :: rest
      | [] => [String c EmptyString]
      end
  end.

Fixpoint join (sep : string) (l : list string) : string :=
  match l with
  | [] => EmptyString
  | [x] => x
  | x :: rest => x +:+ sep +:+ join sep rest
  end.

(** Decimal rendering of an integer, as a template literal prints it. *)
Definition Z_toString (z : Z) : string := NilZero.string_of_int (Z.to_int z).

(** [s.endsWith(suffix)], as a proposition. *)
Definition ends_with (s suffix : string) : Prop := exists prefix, s = prefix +:+ suffix.

(** *** Values *)

Inductive value : Type :=
| VUndefined
| VNull
| VBool (b : bool)
| VNum (q : Q)
| VNaN
| VStr (s : string)
| VArr (items : list value)
| VObj (fields : list (string * value)).

(** Numbers are rationals plus [NaN]; signed zero and the infinities are
    left out, and arithmetic is exact. *)

(** ToBoolean. *)
Definition truthy (v : value) : bool :=
  match v with
  | VUndefined | VNull | VNaN => false
  | VBool b => b
  | VNum q => negb (Qeq_bool q 0)
  | VStr s => negb (is_empty s)
  | VArr _ | VObj _ => true
  end.

Definition falsy (v : value) : bool := negb (truthy v).

(** [typeof v === 'string'], and [v === 'literal']. *)
Definition is_string (v : value) : bool :=
  match v with VStr _ => true | _ => false end.

Definition strict_eq_str (v : value) (s : string) : bool :=
  match v with VStr s' => String.eqb s' s | _ => false end.

(** [n === v] for a number [n]: [v] has to be a number, and the same one.
    No conversion takes place, so no string is strictly equal to [n]. *)
Definition strict_eq_num (n : Z) (v : value) : bool :=
  match v with VNum q => Qeq_bool (inject_Z n) q | _ => false end.

(** What the code calls and this repository does not define: the
    conversions of the language standard and the host ([None] stands for
    NaN), and the id cast of the store's driver: [castable_id s] tells
    whether [s] casts to a document id, [findById] throwing on every
    other string. *)
Class Builtins := {
  parseInt : value -> option Z;
  parseFloat : value -> option Q;
  ToNumber : value -> option Q;
  Number_toString : Q -> string;
  localeCompare : string -> string -> Z;
  regex_test : string -> string -> string -> bool;
  castable_id : string -> bool
}.

Section WithBuiltins.
Context `{Builtins}.

(** [isNaN(v)]. *)
Definition isNaN (v : value) : bool :=
  match ToNumber v with None => true | Some _ => false end.

(** [n == s], loose equality of a number and another value. *)
Definition loose_eq_num (n : Z) (v : value) : bool :=
  match ToNumber v with
  | Some q => Qeq_bool (inject_Z n) q
  | None => false
  end.

(** The string of a value, as a template literal prints it and as
    [v.toString()] gives it. The method throws on [undefined] and [null],
    where every call of it in the code sits behind a truthiness guard; a
    template literal prints these two as their names. Array holes print
    as the empty string. *)
Fixpoint toString (v : value) : string :=
  match v with
  | VUndefined => "undefined"
  | VNull => "null"
  | VBool true => "true"
  | VBool false => "false"
  | VNum q => Number_toString q
  | VNaN => "NaN"
  | VStr s => s
  | VArr items =>
      join "," (map (fun x => match x with
                              | VUndefined | VNull => EmptyString
                              | _ => toString x
                              end) items)
  | VObj _ => "[object Object]"
  end.

End WithBuiltins.

(** [x || d] for a parsed number [x]: zero and NaN give way to [d]. *)
Definition or_default (x : option Z) (d : Z) : Z :=
  match x with
  | Some z => if z =? 0 then d else z
  | None => d
  end.

(** [Math.ceil(a / b)] for integers, [b] not zero. *)
Definition ceil_div (a b : Z) : Z := - ((- a) / b).

(** *** Objects

    A plain object is the list of its own properties in insertion order,
    which is the order [Object.keys] walks. *)

Section Objects.
Context {A : Type}.

Definition obj_get (key : string) (o : list (string * A)) : option A :=
  snd <$> List.find (fun kv => String.eqb (fst kv) key) o.

Fixpoint obj_set (key : string) (v : A) (o : list (string * A)) : list (string * A) :=
  match o with
  | [] => [(key, v)]
  | (k, w) :: rest =>
      if String.eqb k key then (k, v) :: rest else (k, w) :: obj_set key v rest
  end.

Definition obj_keys (o : list (string * A)) : list string := map fst o.

(** [{ ...a, ...b }]. *)
Definition obj_spread (a b : list (string * A)) : list (string * A) :=
  fold_left (fun acc kv => obj_set (fst kv) (snd kv) acc) b a.

End Objects.

(** *** Arrays *)

Section Arrays.
Context {A : Type}.

(** [Array.prototype.sort(cmp)]. The sort is stable; [cmp a b > 0] asks
    for [b] before [a]. Insertion from the right realises it, and under a
    comparator that orders consistently every stable sort returns the same
    array. *)
Fixpoint sort_insert (cmp : A -> A -> Q) (x : A) (l : list A) : list A :=
  match l with
  | [] => [x]
  | y :: l' =>
      if Qlt_le_dec 0 (cmp x y) then y :: sort_insert cmp x l' else x :: y :: l'
  end.

Definition sort (cmp : A -> A -> Q) (l : list A) : list A :=
  fold_right (sort_insert cmp) [] l.

(** Relative indices of [slice]: NaN counts as 0, a negative index counts
    from the end, and the result is clamped to the array. *)
Definition rel_index (len : Z) (i : option Z) : Z :=
  match i with
  | None => 0
  | Some k => if k <? 0 then Z.max (len + k) 0 else Z.min k len
  end.

(** [Array.prototype.slice(start, end)]. *)
Definition slice (start stop : option Z) (l : list A) : list A :=
  let len := Z.of_nat (length l) in
  let from := rel_index len start in
  let to := rel_index len stop in
  take (Z.to_nat (to - from)) (drop (Z.to_nat from) l).

End Arrays.

End JS.

(** ** The document store *)

Module Mongo.
Import JS.

(** What a query asks of one field: a literal (equality), or one of the
    operators [$in], [$gte], [$lte], [$exists], [$size], [$regex]. Dates
    are their epoch milliseconds. *)
Inductive cond : Type :=
| Is (v : value)
| In_ (vs : list value)
| Gte (v : value)
| Lte (v : value)
| Exists (b : bool)
| Size (n : nat)
| Regex (pattern options : string).

(** One property of a query object: a field condition, or the arrays of
    sub-queries under [$or] and [$and]. *)
Inductive clause : Type :=
| Field (c : cond)
| Or (alternatives : list (list (string * clause)))
| And (conjuncts : list (list (string * clause))).

(** A query object, in property order. *)
Definition query : Type := list (string * clause).

(** A stored document, seen through its field paths. *)
Definition doc : Type := string -> option value.

(** A sort specification, e.g. [{ priority: -1, createdAt: -1 }]. *)
Definition sort_spec : Type := list (string * Z).

Fixpoint value_eqb (a b : value) {struct a} : bool :=
  match a, b with
  | VUndefined, VUndefined | VNull, VNull | VNaN, VNaN => true
  | VBool x, VBool y => Bool.eqb x y
  | VNum x, VNum y => Qeq_bool x y
  | VStr x, VStr y => String.eqb x y
  | VArr xs, VArr ys =>
      (fix go (xs ys : list value) {struct xs} : bool :=
         match xs, ys with
         | [], [] => true
         | x :: xs', y :: ys' => value_eqb x y && go xs' ys'
         | _, _ => false
         end) xs ys
  | VObj xs, VObj ys =>
      (fix go (xs ys : list (string * value)) {struct xs} : bool :=
         match xs, ys with
         | [], [] => true
         | (k, x) :: xs', (k', y) :: ys' => String.eqb k k' && value_eqb x y && go xs' ys'
         | _, _ => false
         end) xs ys
  | _, _ => false
  end.

(** A stored value meets a literal when it equals it, or is an array with
    an element that does; an absent field only meets [null]. *)
Definition meets_literal (stored : option value) (v : value) : bool :=
  match stored with
  | None => value_eqb VNull v
  | Some (VArr items) => value_eqb (VArr items) v || existsb (fun x => value_eqb x v) items
  | Some x => value_eqb x v
  end.

(** Numeric comparison of a stored value (or of an array element) with a
    bound. *)
Definition meets_bound (ok : Q -> Q -> bool) (stored : option value) (bound : value) : bool :=
  match bound with
  | VNum b =>
      match stored with
      | Some (VNum x) => ok x b
      | Some (VArr items) =>
          existsb (fun x => match x with VNum y => ok y b | _ => false end) items
      | _ => false
      end
  | _ => false
  end.

Section WithBuiltins.
Context `{Builtins}.

Definition holds (c : cond) (stored : option value) : bool :=
  match c with
  | Is v => meets_literal stored v
  | In_ vs => existsb (meets_literal stored) vs
  | Gte v => meets_bound (fun x b => Qle_bool b x) stored v
  | Lte v => meets_bound (fun x b => Qle_bool x b) stored v
  | Exists b => Bool.eqb (bool_decide (is_Some stored)) b
  | Size n =>
      match stored with
      | Some (VArr items) => Nat.eqb (length items) n
      | _ => false
      end
  | Regex pattern options =>
      match stored with
      | Some (VStr s) => regex_test pattern options s
      | Some (VArr items) =>
          existsb (fun x => match x with
                            | VStr s => regex_test pattern options s
                            | _ => false
                            end) items
      | _ => false
      end
  end.

Fixpoint matches_clause (key : string) (c : clause) (d : doc) {struct c} : bool :=
  match c with
  | Field cnd => holds cnd (d key)
  | Or alternatives =>
      existsb (fun q => forallb (fun kc => matches_clause (fst kc) (snd kc) d) q) alternatives
  | And conjuncts =>
      forallb (fun q => forallb (fun kc => matches_clause (fst kc) (snd kc) d) q) conjuncts
  end.

(** A document matches a query object when it meets each property. *)
Definition matches (q : query) (d : doc) : bool :=
  forallb (fun kc => matches_clause (fst kc) (snd kc) d) q.

(** [Model.find(q)] over a collection whose documents are read through
    [view]. *)
Definition find {D : Type} (view : D -> doc) (q : query) (collection : list D) : list D :=
  List.filter (fun x => matches q (view x)) collection.

End WithBuiltins.

(** The store's ordering of scalar sort keys: absent and null first, then
    numbers, then strings. *)
Definition type_rank (v : option value) : Z :=
  match v with
  | None | Some VNull | Some VUndefined => 0
  | Some (VNum _) | Some VNaN => 1
  | Some (VStr _) => 2
  | Some _ => 3
  end.

Definition compare_values (a b : option value) : comparison :=
  match a, b with
  | Some (VNum x), Some (VNum y) => Qcompare x y
  | Some (VStr x), Some (VStr y) => String.compare x y
  | _, _ => Z.compare (type_rank a) (type_rank b)
  end.

Definition sign_of (c : comparison) : Z :=
  match c with Lt => -1 | Eq => 0 | Gt => 1 end.

(** The comparator of [.sort(spec)]: the first key on which the two
    documents differ decides, in that key's direction. *)
Fixpoint compare_docs (spec : sort_spec) (a b : doc) : Z :=
  match spec with
  | [] => 0
  | (key, dir) :: rest =>
      match compare_values (a key) (b key) with
      | Eq => compare_docs rest a b
      | c => dir * sign_of c
      end
  end.

(** [.sort(spec)]: documents with equal keys stay in collection order.
    The store is free in the order of such documents; that freedom is the
    order of the collection here. *)
Definition sort_by {D : Type} (view : D -> doc) (spec : sort_spec) (l : list D) : list D :=
  JS.sort (fun a b => inject_Z (compare_docs spec (view a) (view b))) l.

End Mongo.

(** ** [backend/utils/helpers.js] *)

Module Helpers.
Import JS Mongo.

(** The envelope returned by [createPagination]. *)
Record Pagination (A : Type) : Type := {
  docs : list A;
  totalDocs : Z;
  limit : Z;
  totalPages : Z;
  page : Z;
  pagingCounter : Z;
  hasPrevPage : bool;
  hasNextPage : bool;
  prevPage : option Z;
  nextPage : option Z
}.
Arguments docs {A}.
Arguments totalDocs {A}.
Arguments limit {A}.
Arguments totalPages {A}.
Arguments page {A}.
Arguments pagingCounter {A}.
Arguments hasPrevPage {A}.
Arguments hasNextPage {A}.
Arguments prevPage {A}.
Arguments nextPage {A}.

Section WithBuiltins.
Context `{Builtins}.

(** [createPagination({ page, limit, total, docs })]; [total] is a count. *)
Definition createPagination {A : Type}
    (page limit : value) (total : Z) (docs : list A) : Pagination A :=
  let currentPage := or_default (parseInt page) 1 in
  let itemsPerPage := or_default (parseInt limit) 12 in
  let totalPages := ceil_div total itemsPerPage in
  let hasNextPage := currentPage <? totalPages in
  let hasPrevPage := 1 <? currentPage in
  let nextPage := if hasNextPage then Some (currentPage + 1) else None in
  let prevPage := if hasPrevPage then Some (currentPage - 1) else None in
  {| docs := docs;
     totalDocs := total;
     limit := itemsPerPage;
     totalPages := totalPages;
     page := currentPage;
     pagingCounter := (currentPage - 1) * itemsPerPage + 1;
     hasPrevPage := hasPrevPage;
     hasNextPage := hasNextPage;
     prevPage := prevPage;
     nextPage := nextPage |}.

(** [buildSearchQuery(searchTerm, fields)]. *)
Definition buildSearchQuery (searchTerm : value) (fields : list string) : query :=
  match searchTerm with
  | VStr term =>
      if negb (truthy searchTerm) || (Z.of_nat (String.length (trim term)) <? 2)
      then []
      else
        let cleanSearchTerm := trim term in
        let searchRegex := Field (Regex cleanSearchTerm "i") in
        let defaultFields := ["title"; "overview"] in
        let searchFields := if (0 <? Z.of_nat (length fields)) then fields else defaultFields in
        [("$or", Or (map (fun field => [(field, searchRegex)]) searchFields))]
  | _ => []
  end.

(** The number a parse produced, as a query literal. *)
Definition int_value (x : option Z) : value :=
  match x with Some z => VNum (inject_Z z) | None => VNaN end.

Definition float_value (x : option Q) : value :=
  match x with Some q => VNum q | None => VNaN end.

(** The body of the [forEach] in [buildFilterQuery]: what one key of
    [filters] does to [query]. *)
Definition filter_step (filters : list (string * value)) (query : Mongo.query) (key : string)
    : Mongo.query :=
  let value := default VUndefined (obj_get key filters) in
  if truthy value && negb (String.eqb (trim (toString value)) "")
  then
    if String.eqb key "genres" then
      match value with
      | VStr s =>
          let genreArray :=
            List.filter (fun g => negb (is_empty g)) (map trim (split_on "," s)) in
          if (0 <? Z.of_nat (length genreArray))
          then obj_set "genres" (Field (In_ (map VStr genreArray))) query
          else query
      | _ => query
      end
    else if String.eqb key "language" then
      if is_string value
      then obj_set "language" (Field (In_ [value])) query
      else query
    else if String.eqb key "releaseYear" then
      if negb (isNaN value)
      then obj_set "releaseYear" (Field (Is (int_value (parseInt value)))) query
      else query
    else if String.eqb key "type" then obj_set "type" (Field (Is value)) query
    else if String.eqb key "quality" then obj_set "quality" (Field (Is value)) query
    else if String.eqb key "rating" then
      if negb (isNaN value)
      then obj_set "rating" (Field (Gte (float_value (parseFloat value)))) query
      else query
    else if String.eqb key "adminStatus" then obj_set "adminStatus" (Field (Is value)) query
    else obj_set key (Field (Is value)) query
  else query.

(** [buildFilterQuery(filters)]. *)
Definition buildFilterQuery (filters : list (string * value)) : query :=
  fold_left (filter_step filters) (obj_keys filters) [].

End WithBuiltins.

(** [buildSortQuery(sortBy, sortOrder)]; [sortBy] ranges over the strings
    that name no property of [Object.prototype]. *)
Definition sortMapping : list (string * sort_spec) :=
  [ ("newest", [("createdAt", -1)]);
    ("oldest", [("createdAt", 1)]);
    ("rating", [("rating", -1); ("imdbRating", -1)]);
    ("views", [("views", -1)]);
    ("alphabetical", [("title", 1)]);
    ("year", [("releaseYear", -1)]);
    ("trending", [("views", -1); ("rating", -1); ("createdAt", -1)]) ].

Definition buildSortQuery (sortBy sortOrder : string) : sort_spec :=
  let order := if String.eqb (toLowerCase sortOrder) "asc" then 1 else -1 in
  match obj_get sortBy sortMapping with
  | Some spec => spec
  | None => [(sortBy, order)]
  end.

(** The three [replace] calls of [generateSlug]. *)
Definition remove_special (s : string) : string :=
  filter_chars (fun c => is_word c || is_space c || is_hyphen c) s.

Definition hyphenate (s : string) : string :=
  replace_runs (fun c => is_space c || is_underscore c || is_hyphen c) "-" false s.

Definition strip_hyphens (s : string) : string :=
  drop_end is_hyphen (drop_start is_hyphen s).

Section WithBuiltins.
Context `{Builtins}.

(** [generateSlug(title, year = null)]. The year is whatever value the
    caller hands over, [null] when it hands over none; the guard
    [if (year)] lets through no falsy year, 0 among them, and the template
    literal prints a year that passes the way the language prints the
    value. *)
Definition generateSlug (title : string) (year : value) : string :=
  let baseSlug := strip_hyphens (hyphenate (remove_special (trim (toLowerCase title)))) in
  if truthy year then baseSlug +:+ "-" +:+ toString year else baseSlug.

End WithBuiltins.

(** [createSuccessResponse] and [createErrorResponse]: the envelope around
    a payload. *)
Record Envelope (A : Type) : Type := {
  success : bool;
  message : string;
  data : option A
}.
Arguments success {A}.
Arguments message {A}.
Arguments data {A}.

Definition createSuccessResponse {A : Type} (data : A) : Envelope A :=
  {| success := true; message := "Success"; data := Some data |}.

Definition createErrorResponse {A : Type} (message : string) : Envelope A :=
  {| success := false; message := message; data := None |}.

End Helpers.

(** ** The Series schema: [models/Series.js] *)

Module SeriesModel.
Import JS.

(** An episode sub-document as the document array holds it: its number,
    which the schema has cast to a Number, and the other properties of
    the payload. Season and episode numbers are integers throughout. *)
Record Episode : Type := {
  episodeNumber : Z;
  episodeFields : list (string * value)
}.

(** The payload of an episode as a request sends it: [episodeNumber] is
    whatever JSON value the body holds under that name, [undefined] when
    it holds none. *)
Record EpisodeData : Type := {
  data_episodeNumber : value;
  data_fields : list (string * value)
}.

Record Season : Type := {
  seasonNumber : Z;
  name : string;
  overview : string;
  posterPath : string;
  airDate : option Z;
  episodes : list Episode
}.

(** A series document: the fields the hook and the handlers read or write.
    The remaining fields of the schema pass through a save untouched. *)
Record Series : Type := {
  title : string;
  slug : string;
  releaseYear : Z;
  seasons : list Season;
  numberOfSeasons : Z;
  numberOfEpisodes : Z;
  addedBy : string;
  lastModifiedBy : option string;
  views : Z
}.

(** Field updates, as assignments to [this]. *)
Definition set_slug (v : string) (s : Series) : Series :=
  {| title := title s; slug := v; releaseYear := releaseYear s; seasons := seasons s;
     numberOfSeasons := numberOfSeasons s; numberOfEpisodes := numberOfEpisodes s;
     addedBy := addedBy s; lastModifiedBy := lastModifiedBy s; views := views s |}.

Definition set_seasons (v : list Season) (s : Series) : Series :=
  {| title := title s; slug := slug s; releaseYear := releaseYear s; seasons := v;
     numberOfSeasons := numberOfSeasons s; numberOfEpisodes := numberOfEpisodes s;
     addedBy := addedBy s; lastModifiedBy := lastModifiedBy s; views := views s |}.

Definition set_counts (nSeasons nEpisodes : Z) (s : Series) : Series :=
  {| title := title s; slug := slug s; releaseYear := releaseYear s; seasons := seasons s;
     numberOfSeasons := nSeasons; numberOfEpisodes := nEpisodes;
     addedBy := addedBy s; lastModifiedBy := lastModifiedBy s; views := views s |}.

Definition set_lastModifiedBy (v : string) (s : Series) : Series :=
  {| title := title s; slug := slug s; releaseYear := releaseYear s; seasons := seasons s;
     numberOfSeasons := numberOfSeasons s; numberOfEpisodes := numberOfEpisodes s;
     addedBy := addedBy s; lastModifiedBy := Some v; views := views s |}.

Definition push_episode (e : Episode) (s : Season) : Season :=
  {| seasonNumber := seasonNumber s; name := name s; overview := overview s;
     posterPath := posterPath s; airDate := airDate s; episodes := episodes s ++ [e] |}.

(** [find] hands out the first element that passes the test, and a later
    mutation of that element shows in the array: [update_first] applies
    the mutation where [find] found it. *)
Fixpoint update_first {A : Type} (p : A -> bool) (f : A -> A) (l : list A) : list A :=
  match l with
  | [] => []
  | x :: l' => if p x then f x :: l' else x :: update_first p f l'
  end.

(** [seasonNumber === 0 ? 'Specials' : `Season ${seasonNumber}`]. *)
Definition default_name (seasonNumber : Z) : string :=
  if seasonNumber =? 0 then "Specials" else "Season " +:+ Z_toString seasonNumber.

(** What the schema leaves to its libraries: the [slugify] call of the
    hook, the validation a [save] runs first, whether a plain object
    pushed on a document array stays the very object the array holds
    ([true]) or is copied into a sub-document ([false]), and the cast of
    a raw value to a required Number path when a payload is pushed on a
    document array: [cast_number v] is the number stored for [v], and
    [None] when the cast fails or the value is missing, which makes the
    save that follows reject. The numbers the records here hold are
    integers; a number with a fraction is outside them. *)
Class Odm := {
  slugify : string -> string;
  validates : Series -> bool;
  push_keeps_reference : bool;
  cast_number : value -> option Z
}.

Section WithOdm.
Context `{Odm}.

(** The sub-document a pushed payload becomes. *)
Definition cast_episode (episodeData : EpisodeData) : option Episode :=
  match cast_number (data_episodeNumber episodeData) with
  | Some n => Some {| episodeNumber := n; episodeFields := data_fields episodeData |}
  | None => None
  end.

(** [seriesSchema.pre('save', ...)]; the flag is
    [this.isModified('title') || this.isNew]. *)
Definition pre_save (titleModifiedOrNew : bool) (this : Series) : Series :=
  let this :=
    if titleModifiedOrNew
    then
      let this := set_slug (slugify (title this)) this in
      if negb (releaseYear this =? 0)
      then set_slug (slug this +:+ "-" +:+ Z_toString (releaseYear this)) this
      else this
    else this in
  let totalEpisodes :=
    fold_left (fun total season => total + Z.of_nat (length (episodes season)))
              (seasons this) 0 in
  set_counts (Z.of_nat (length (seasons this))) totalEpisodes this.

(** [doc.save(options)]: validation unless switched off, then the hook;
    [None] is a rejected save. The result is the stored document. *)
Definition save (validateBeforeSave titleModifiedOrNew : bool) (this : Series) : option Series :=
  if validateBeforeSave && negb (validates this)
  then None
  else Some (pre_save titleModifiedOrNew this).

(** [seriesSchema.methods.getEpisode]. *)
Definition getEpisode (this : Series) (seasonNumber' episodeNumber' : Z) : option Episode :=
  match List.find (fun s => seasonNumber s =? seasonNumber') (seasons this) with
  | None => None
  | Some season => List.find (fun e => episodeNumber e =? episodeNumber') (episodes season)
  end.

(** [seriesSchema.methods.addEpisode], called with a season number and
    an episode that are cast already. *)
Definition addEpisode (this : Series) (seasonNumber' : Z) (episodeData : Episode)
    : option Series :=
  let found := List.find (fun s => seasonNumber s =? seasonNumber') (seasons this) in
  let this :=
    match found with
    | Some _ =>
        set_seasons (update_first (fun s => seasonNumber s =? seasonNumber')
                                  (push_episode episodeData) (seasons this)) this
    | None =>
        (* Create new season if it doesn't exist *)
        let season :=
          {| seasonNumber := seasonNumber'; name := default_name seasonNumber';
             overview := ""; posterPath := ""; airDate := None; episodes := [] |} in
        let stored := if push_keeps_reference then push_episode episodeData season else season in
        set_seasons (seasons this ++ [stored]) this
    end in
  save true false this.

End WithOdm.

End SeriesModel.

(** ** [controllers/seriesController.js]: seasons and episodes *)

Module SeriesController.
Import JS SeriesModel.

(** [req.user]. *)
Record User : Type := {
  role : string;
  userId : string
}.

(** The body of [POST /:id/seasons]. No validator stands before the
    handler: [seasonNumber] is whatever JSON value the body holds under
    that name (a number, or a string as a form sends it), [undefined]
    when it holds none. *)
Record SeasonBody : Type := {
  body_seasonNumber : value;
  body_name : option string;
  body_overview : option string;
  body_posterPath : option string;
  body_airDate : option Z
}.

(** [res.status(code).json({ success, message, data })]. *)
Record Response : Type := {
  status : Z;
  success : bool;
  message : string;
  data : option Series
}.

Definition respond (status : Z) (message : string) : Response :=
  {| status := status; success := false; message := message; data := None |}.

Definition created (message : string) (series : Series) : Response :=
  {| status := 201; success := true; message := message; data := Some series |}.

(** [s || d] for an optional string: absent and empty give way to [d]. *)
Definition str_or (s : option string) (d : string) : string :=
  match s with
  | Some x => if is_empty x then d else x
  | None => d
  end.

(** The ownership check shared by the handlers. *)
Definition denied (user : User) (series : Series) : bool :=
  negb (String.eqb (role user) "admin") && negb (String.eqb (addedBy series) (userId user)).

(** The collection, by [_id]. *)
Abbreviation Db := (gmap string Series).

Section WithRuntime.
Context `{Builtins} `{Odm}.

(** [seasonNumber === 0 ? 'Specials' : `Season ${seasonNumber}`], on the
    value of the body. *)
Definition season_name (seasonNumber' : value) : string :=
  if strict_eq_num 0 seasonNumber' then "Specials"
  else "Season " +:+ toString seasonNumber'.

(** [addSeason(req, res)]: [id] is [req.params.id]. The result is the
    answer and the collection after the request. Whatever is thrown on
    the way ends in the answer 500 of the [catch]: [findById] throws on
    an id that does not cast, and [save] rejects when the pushed season
    did not cast or the document does not validate. *)
Definition addSeason (id : string) (body : SeasonBody) (user : User) (db : Db)
    : Response * Db :=
  if negb (castable_id id) then (respond 500 "Failed to add season", db)
  else
  match db !! id with
  | None => (respond 404 "Series not found", db)
  | Some series =>
      if denied user series then (respond 403 "Access denied", db)
      else
        let seasonNumber' := body_seasonNumber body in
        (* Check if season already exists *)
        match List.find (fun s => strict_eq_num (seasonNumber s) seasonNumber')
                        (seasons series) with
        | Some _ => (respond 409 "Season already exists", db)
        | None =>
            match cast_number seasonNumber' with
            | None => (respond 500 "Failed to add season", db)
            | Some castNumber =>
                let season :=
                  {| seasonNumber := castNumber;
                     name := str_or (body_name body) (season_name seasonNumber');
                     overview := str_or (body_overview body) "";
                     posterPath := str_or (body_posterPath body) "";
                     airDate := body_airDate body;
                     episodes := [] |} in
                let series := set_seasons (seasons series ++ [season]) series in
                let series := set_lastModifiedBy (userId user) series in
                match save true false series with
                | Some stored =>
                    (created "Season added successfully" stored, <[id := stored]> db)
                | None => (respond 500 "Failed to add season", db)
                end
            end
        end
  end.

(** [addEpisode(req, res)]: [seasonNumber'] is the route parameter, a
    string, compared with [==]; [episodeData] is the body, whose episode
    number is compared with [===] as it came. The validators of the route
    have no effect, the handler not reading their result. *)
Definition addEpisode (id seasonNumber' : string) (episodeData : EpisodeData) (user : User)
    (db : Db) : Response * Db :=
  if negb (castable_id id) then (respond 500 "Failed to add episode", db)
  else
  match db !! id with
  | None => (respond 404 "Series not found", db)
  | Some series =>
      if denied user series then (respond 403 "Access denied", db)
      else
        let is_season s := loose_eq_num (seasonNumber s) (VStr seasonNumber') in
        match List.find is_season (seasons series) with
        | None => (respond 404 "Season not found", db)
        | Some season =>
            (* Check if episode already exists *)
            match List.find (fun e => strict_eq_num (episodeNumber e)
                                                    (data_episodeNumber episodeData))
                            (episodes season) with
            | Some _ => (respond 409 "Episode already exists", db)
            | None =>
                match cast_episode episodeData with
                | None => (respond 500 "Failed to add episode", db)
                | Some episode =>
                    let series :=
                      set_seasons (update_first is_season (push_episode episode)
                                                (seasons series)) series in
                    let series := set_lastModifiedBy (userId user) series in
                    match save true false series with
                    | Some stored =>
                        (created "Episode added successfully" stored, <[id := stored]> db)
                    | None => (respond 500 "Failed to add episode", db)
                    end
                end
            end
        end
  end.

(** One operation on the collection: a request to either handler, or a
    call of the model's own [addEpisode] on the document [id]. *)
Inductive Call : Type :=
| AddSeason (id : string) (body : SeasonBody) (user : User)
| AddEpisode (id seasonNumber' : string) (episodeData : EpisodeData) (user : User)
| ModelAddEpisode (id : string) (seasonNumber' : Z) (episodeData : Episode).

Definition target (c : Call) : string :=
  match c with
  | AddSeason id _ _ | AddEpisode id _ _ _ | ModelAddEpisode id _ _ => id
  end.

(** The outcome of an operation: whether it saved, and the collection
    afterwards. *)
Definition exec (c : Call) (db : Db) : bool * Db :=
  match c with
  | AddSeason id body user =>
      let '(res, db') := addSeason id body user db in (status res =? 201, db')
  | AddEpisode id sn e user =>
      let '(res, db') := addEpisode id sn e user db in (status res =? 201, db')
  | ModelAddEpisode id sn e =>
      match db !! id with
      | Some series =>
          match SeriesModel.addEpisode series sn e with
          | Some stored => (true, <[id := stored]> db)
          | None => (false, db)
          end
      | None => (false, db)
      end
  end.

(** The operations in order, each with its outcome. *)
Fixpoint run (db : Db) (calls : list Call) : list (Call * bool * Db) :=
  match calls with
  | [] => []
  | c :: rest => let '(saved, db') := exec c db in (c, saved, db') :: run db' rest
  end.

End WithRuntime.

(** The derived fields agree with the season and episode lists. *)
Definition counts_agree (s : Series) : Prop :=
  numberOfEpisodes s
    = Z.of_nat (sum_list (map (fun season => length (episodes season)) (seasons s)))
  /\ numberOfSeasons s = Z.of_nat (length (seasons s)).

End SeriesController.

(** ** The Ad schema: [models/Ad.js] *)

Module AdModel.
Import JS Mongo.

(** A date path of a stored document: absent, stored as [null], or a
    time in epoch milliseconds. *)
Inductive StoredDate : Type :=
| Unset
| NullDate
| At (t : Z).

Record Ad : Type := {
  _id : string;
  name : string;
  type : string;
  placement : string;
  code : string;
  redirectUrl : string;
  isActive : bool;
  priority : Z;
  targetPages : list string;
  targetDevices : list string;
  targetCountries : list string;
  startDate : StoredDate;
  endDate : StoredDate;
  impressions : Z;
  clicks : Z;
  createdAt : Z;
  updatedAt : Z
}.

Definition date_value (t : Z) : value := VNum (inject_Z t).

Definition stored_date (d : StoredDate) : option value :=
  match d with
  | Unset => None
  | NullDate => Some VNull
  | At t => Some (date_value t)
  end.

(** The stored document of an ad. *)
Definition view (ad : Ad) : doc := fun path =>
  if String.eqb path "_id" then Some (VStr (_id ad))
  else if String.eqb path "name" then Some (VStr (name ad))
  else if String.eqb path "type" then Some (VStr (type ad))
  else if String.eqb path "placement" then Some (VStr (placement ad))
  else if String.eqb path "code" then Some (VStr (code ad))
  else if String.eqb path "redirectUrl" then Some (VStr (redirectUrl ad))
  else if String.eqb path "isActive" then Some (VBool (isActive ad))
  else if String.eqb path "priority" then Some (VNum (inject_Z (priority ad)))
  else if String.eqb path "targetPages" then Some (VArr (map VStr (targetPages ad)))
  else if String.eqb path "targetDevices" then Some (VArr (map VStr (targetDevices ad)))
  else if String.eqb path "targetCountries" then Some (VArr (map VStr (targetCountries ad)))
  else if String.eqb path "startDate" then stored_date (startDate ad)
  else if String.eqb path "endDate" then stored_date (endDate ad)
  else if String.eqb path "impressions" then Some (VNum (inject_Z (impressions ad)))
  else if String.eqb path "clicks" then Some (VNum (inject_Z (clicks ad)))
  else if String.eqb path "createdAt" then Some (date_value (createdAt ad))
  else if String.eqb path "updatedAt" then Some (date_value (updatedAt ad))
  else None.

(** [adSchema.methods.isCurrentlyActive], at time [now]: a date that is
    absent or [null] is falsy and passes. *)
Definition isCurrentlyActive (now : Z) (this : Ad) : bool :=
  let startOk := match startDate this with At d => d <=? now | _ => true end in
  let endOk := match endDate this with At d => now <=? d | _ => true end in
  isActive this && startOk && endOk.

(** The targeting clause pushed on [query.$and] for a requested value. *)
Definition targeting (field requested : string) : query :=
  [("$or", Or [ [(field, Field (In_ [VStr requested; VStr "all"]))];
                [(field, Field (Size 0))] ])].

(** The query object of [getActiveAdsByPlacement], [now] being
    [new Date()]. *)
Definition activeAdsQuery (now : Z) (placement targetPage targetDevice : string) : query :=
  let and0 :=
    [ [("$or", Or [ [("endDate", Field (Gte (date_value now)))];
                    [("endDate", Field (Exists false))] ])] ] in
  (* Add targeting filters *)
  let and1 :=
    if negb (String.eqb targetPage "all")
    then and0 ++ [targeting "targetPages" targetPage] else and0 in
  let and2 :=
    if negb (String.eqb targetDevice "all")
    then and1 ++ [targeting "targetDevices" targetDevice] else and1 in
  [ ("placement", Field (Is (VStr placement)));
    ("isActive", Field (Is (VBool true)));
    ("$or", Or [ [("startDate", Field (Lte (date_value now)))];
                 [("startDate", Field (Exists false))] ]);
    ("$and", And and2) ].

Section WithBuiltins.
Context `{Builtins}.

(** [adSchema.statics.getActiveAdsByPlacement(placement, targetPage = 'all',
    targetDevice = 'all')] over the collection [ads]. *)
Definition getActiveAdsByPlacement (now : Z) (ads : list Ad)
    (placement targetPage targetDevice : string) : list Ad :=
  sort_by view [("priority", -1); ("createdAt", -1)]
          (find view (activeAdsQuery now placement targetPage targetDevice) ads).

End WithBuiltins.

End AdModel.

(** ** [controllers/adController.js] *)

Module AdController.
Import JS Mongo Helpers AdModel.

(** What [getAdsByPlacement] sends for each ad. *)
Record ServedAd : Type := {
  served_id : string;
  served_name : string;
  served_type : string;
  served_placement : string;
  served_code : string;
  served_redirectUrl : string;
  served_priority : Z
}.

Definition serve (ad : Ad) : ServedAd :=
  {| served_id := _id ad; served_name := name ad; served_type := type ad;
     served_placement := placement ad; served_code := code ad;
     served_redirectUrl := redirectUrl ad; served_priority := priority ad |}.

Record AdsPayload : Type := {
  ads : list ServedAd;
  payload_placement : string;
  count : Z
}.

(** A destructuring default: it applies to an absent parameter only. *)
Definition param_or (p : option string) (d : string) : string := default d p.

Definition in_country (targetCountry : string) (ad : Ad) : bool :=
  (length (targetCountries ad) =? 0)%nat
  || existsb (String.eqb targetCountry) (targetCountries ad)
  || existsb (String.eqb "all") (targetCountries ad).

(** [limit = 5]. *)
Definition limit_or_default (limit : value) : value :=
  match limit with VUndefined => VNum 5 | v => v end.

Section WithBuiltins.
Context `{Builtins}.

(** The ads [getAdsByPlacement] selects, before they are stripped down for
    the response: [page], [device], [country] and [limit] are the query
    parameters, absent ones being [None] (for [limit]: [VUndefined]). *)
Definition selectAds (now : Z) (collection : list Ad) (placement : string)
    (page device country : option string) (limit : value) : list Ad :=
  let targetPage := param_or page "all" in
  let targetDevice := param_or device "all" in
  let limit := limit_or_default limit in
  (* Get active ads for this placement *)
  let ads := getActiveAdsByPlacement now collection placement targetPage targetDevice in
  (* Filter by country if specified *)
  let filteredAds :=
    match country with
    | Some targetCountry =>
        if is_empty targetCountry then ads else List.filter (in_country targetCountry) ads
    | None => ads
    end in
  (* Sort by priority and limit results *)
  slice (Some 0) (parseInt limit)
        (JS.sort (fun a b => inject_Z (priority b - priority a)) filteredAds).

(** [filteredAds] of the handler on its own: the ads the query returned
    that pass the country filter, before they are sorted and cut. *)
Definition filteredAds (now : Z) (collection : list Ad) (placement : string)
    (page device country : option string) : list Ad :=
  let ads := getActiveAdsByPlacement now collection placement
               (param_or page "all") (param_or device "all") in
  match country with
  | Some targetCountry =>
      if is_empty targetCountry then ads else List.filter (in_country targetCountry) ads
  | None => ads
  end.

(** [finalAds]: the selected ads as they are sent. *)
Definition finalAds (now : Z) (collection : list Ad) (placement : string)
    (page device country : option string) (limit : value) : list ServedAd :=
  map serve (selectAds now collection placement page device country limit).

(** [getAdsByPlacement(req, res)]. *)
Definition getAdsByPlacement (now : Z) (collection : list Ad) (placement : string)
    (page device country : option string) (limit : value) : Envelope AdsPayload :=
  let finalAds := finalAds now collection placement page device country limit in
  createSuccessResponse
    {| ads := finalAds; payload_placement := placement; count := Z.of_nat (length finalAds) |}.

(** The filter object [getAllAds] hands to [buildFilterQuery]; the
    arguments are the query parameters, [VUndefined] when absent. *)
Definition getAllAds_filters (type placement isActive network : value)
    : list (string * value) :=
  [ ("type", type);
    ("placement", placement);
    ("isActive",
      if strict_eq_str isActive "true" then VBool true
      else if strict_eq_str isActive "false" then VBool false
      else VUndefined);
    ("network", network) ].

Definition getAllAds_query (type placement isActive network : value) : query :=
  buildFilterQuery (getAllAds_filters type placement isActive network).

End WithBuiltins.

End AdController.

(** ** [controllers/contentController.js]: the combined feed *)

Module ContentController.
Import JS Mongo Helpers.

(** A movie or series document, with the fields the feed selects. A
    timestamp is its epoch milliseconds. *)
Record Content : Type := {
  _id : string;
  title : string;
  overview : string;
  director : option string;
  castNames : list string;
  creatorNames : list string;
  genres : list string;
  language : list string;
  type : string;
  quality : string;
  adminStatus : string;
  releaseYear : Z;
  rating : Q;
  imdbRating : Q;
  views : Z;
  likes : Z;
  createdAt : Z;
  runtime : option Z;
  episodeRunTime : list Z;
  numberOfSeasons : option Z;
  numberOfEpisodes : option Z
}.

(** An entry of the feed: the document and what the handler adds to it. *)
Record FeedItem : Type := {
  content : Content;
  contentType : string;
  duration : option Z;
  episodeCount : option Z;
  seasonCount : option Z
}.

Definition view (c : Content) : doc := fun path =>
  if String.eqb path "_id" then Some (VStr (_id c))
  else if String.eqb path "title" then Some (VStr (title c))
  else if String.eqb path "overview" then Some (VStr (overview c))
  else if String.eqb path "director" then VStr <$> director c
  else if String.eqb path "cast.name" then Some (VArr (map VStr (castNames c)))
  else if String.eqb path "creators.name" then Some (VArr (map VStr (creatorNames c)))
  else if String.eqb path "genres" then Some (VArr (map VStr (genres c)))
  else if String.eqb path "language" then Some (VArr (map VStr (language c)))
  else if String.eqb path "type" then Some (VStr (type c))
  else if String.eqb path "quality" then Some (VStr (quality c))
  else if String.eqb path "adminStatus" then Some (VStr (adminStatus c))
  else if String.eqb path "releaseYear" then Some (VNum (inject_Z (releaseYear c)))
  else if String.eqb path "rating" then Some (VNum (rating c))
  else if String.eqb path "imdbRating" then Some (VNum (imdbRating c))
  else if String.eqb path "views" then Some (VNum (inject_Z (views c)))
  else if String.eqb path "likes" then Some (VNum (inject_Z (likes c)))
  else if String.eqb path "createdAt" then Some (VNum (inject_Z (createdAt c)))
  else None.

(** [req.query] of [getContent], defaults applied. *)
Record ContentParams : Type := {
  q_page : value;
  q_limit : value;
  q_type : string;
  q_search : string;
  q_genres : string;
  q_language : string;
  q_releaseYear : string;
  q_quality : string;
  q_rating : string;
  q_sortBy : string;
  q_sortOrder : string
}.

Definition movieItem (movie : Content) : FeedItem :=
  {| content := movie; contentType := "Movie"; duration := runtime movie;
     episodeCount := None; seasonCount := None |}.

Definition seriesItem (s : Content) : FeedItem :=
  {| content :=
       {| _id := _id s; title := title s; overview := overview s; director := None;
          castNames := castNames s; creatorNames := creatorNames s; genres := genres s;
          language := language s; type := type s; quality := quality s;
          adminStatus := adminStatus s; releaseYear := releaseYear s; rating := rating s;
          imdbRating := imdbRating s; views := views s; likes := likes s;
          createdAt := createdAt s; runtime := None; episodeRunTime := episodeRunTime s;
          numberOfSeasons := numberOfSeasons s; numberOfEpisodes := numberOfEpisodes s |};
     contentType := "Series";
     duration := head (episodeRunTime s);
     episodeCount := numberOfEpisodes s;
     seasonCount := numberOfSeasons s |}.

(** [x || 0] on a number. *)
Definition num_or_zero (x : Q) : Q := if Qeq_bool x 0 then 0%Q else x.

(** The custom trending calculation of the re-sort. *)
Definition trendingScore (a : FeedItem) : Q :=
  (inject_Z (views (content a)) * (7 # 10)
   + rating (content a) * 10
   + inject_Z (likes (content a)) * (3 # 10))%Q.

Definition newestFirst (a b : FeedItem) : Q :=
  inject_Z (createdAt (content b) - createdAt (content a)).

Section WithBuiltins.
Context `{Builtins}.

(** The comparator of the re-sort, per [sortBy]. *)
Definition feedOrder (sortBy : string) (a b : FeedItem) : Q :=
  if String.eqb sortBy "newest" then newestFirst a b
  else if String.eqb sortBy "oldest" then
    inject_Z (createdAt (content a) - createdAt (content b))
  else if String.eqb sortBy "rating" then
    (num_or_zero (rating (content b)) - num_or_zero (rating (content a)))%Q
  else if String.eqb sortBy "views" then
    inject_Z (views (content b) - views (content a))
  else if String.eqb sortBy "alphabetical" then
    inject_Z (localeCompare (title (content a)) (title (content b)))
  else if String.eqb sortBy "year" then
    inject_Z (releaseYear (content b) - releaseYear (content a))
  else if String.eqb sortBy "trending" then
    (trendingScore b - trendingScore a)%Q
  else newestFirst a b.

(** The query both collections are asked. *)
Definition baseQuery (q : ContentParams) : query :=
  let baseQuery := [("adminStatus", Field (Is (VStr "Published")))] in
  (* Add search query *)
  let baseQuery :=
    if negb (is_empty (q_search q)) && (2 <=? Z.of_nat (String.length (trim (q_search q))))
    then
      let searchFields := ["title"; "overview"; "director"; "cast.name"; "creators.name"] in
      obj_spread baseQuery (buildSearchQuery (VStr (trim (q_search q))) searchFields)
    else baseQuery in
  (* Add filter queries *)
  let filterQuery :=
    buildFilterQuery [ ("genres", VStr (q_genres q)); ("language", VStr (q_language q));
                       ("releaseYear", VStr (q_releaseYear q));
                       ("quality", VStr (q_quality q)); ("rating", VStr (q_rating q)) ] in
  obj_spread baseQuery filterQuery.

Definition wants_movies (type : string) : bool :=
  String.eqb type "all" || String.eqb type "movie".

Definition wants_series (type : string) : bool :=
  String.eqb type "all" || String.eqb type "series" || String.eqb type "anime"
  || String.eqb type "kdrama".

(** [allContent] of [getContent], after the re-sort and before the page
    is cut: [movies] and [series] are the two collections. *)
Definition allContent (movies series : list Content) (q : ContentParams) : list FeedItem :=
  let type := q_type q in
  let baseQuery := baseQuery q in
  (* Sort configuration *)
  let sortConfig := buildSortQuery (q_sortBy q) (q_sortOrder q) in
  let fromMovies :=
    if wants_movies type
    then
      let movieQuery :=
        if String.eqb type "movie"
        then obj_set "type" (Field (Is (VStr "Movie"))) baseQuery else baseQuery in
      map movieItem (sort_by view sortConfig (find view movieQuery movies))
    else [] in
  let fromSeries :=
    if wants_series type
    then
      let seriesQuery :=
        if String.eqb type "series" then obj_set "type" (Field (Is (VStr "Series"))) baseQuery
        else if String.eqb type "anime" then obj_set "type" (Field (Is (VStr "Anime"))) baseQuery
        else if String.eqb type "kdrama" then obj_set "type" (Field (Is (VStr "Kdrama"))) baseQuery
        else baseQuery in
      map seriesItem (sort_by view sortConfig (find view seriesQuery series))
    else [] in
  let allContent := fromMovies ++ fromSeries in
  (* Re-sort combined results if needed *)
  if String.eqb type "all" then JS.sort (feedOrder (q_sortBy q)) allContent else allContent.

(** Arithmetic on parsed numbers: NaN spreads. *)
Definition skip_of (pageNum limitNum : option Z) : option Z :=
  match pageNum, limitNum with
  | Some p, Some l => Some ((p - 1) * l)
  | _, _ => None
  end.

Definition plus_opt (a b : option Z) : option Z :=
  match a, b with
  | Some x, Some y => Some (x + y)
  | _, _ => None
  end.

(** [getContent(req, res)]: the page of the feed and its pagination, which
    the answer carries as [content] and [pagination]. The answer also
    repeats the parameters of the request as [filters], and carries the
    figures of [FeedStats.stats] further down. *)
Definition getContent (movies series : list Content) (q : ContentParams)
    : Pagination FeedItem :=
  let pageNum := parseInt (q_page q) in
  let limitNum := parseInt (q_limit q) in
  let skip := skip_of pageNum limitNum in
  let allContent := allContent movies series q in
  let totalCount := Z.of_nat (length allContent) in
  (* Apply pagination *)
  let paginatedContent := slice skip (plus_opt skip limitNum) allContent in
  createPagination (int_value pageNum) (int_value limitNum) totalCount paginatedContent.

End WithBuiltins.

End ContentController.

(** ** The User schema: [models/User.js] *)

Module UserModel.
Import JS.

Record WatchlistEntry : Type := {
  contentItem : string;
  contentType : string;
  addedAt : Z
}.

(** A user document. The password hash and the refresh token are loaded
    only on request ([select: false]), so either may be absent. *)
Record User : Type := {
  _id : string;
  username : string;
  email : string;
  password : option string;
  role : string;
  avatar : string;
  isActive : bool;
  lastLogin : option Z;
  refreshToken : option string;
  watchlist : list WatchlistEntry;
  pref_language : string;
  pref_theme : string;
  pref_emailNotifications : bool
}.

Definition opt_value {A : Type} (f : A -> value) (x : option A) : value :=
  match x with Some a => f a | None => VNull end.

Definition date_value (t : Z) : value := VNum (inject_Z t).

Definition entry_value (e : WatchlistEntry) : value :=
  VObj [ ("contentItem", VStr (contentItem e)); ("contentType", VStr (contentType e));
         ("addedAt", date_value (addedAt e)) ].

(** Insert a property that is present. *)
Definition with_field (key : string) (v : option value) (o : gmap string value)
    : gmap string value :=
  match v with Some x => <[key := x]> o | None => o end.

(** [this.toObject()]: the plain object of the document's properties. *)
Definition toObject (this : User) : gmap string value :=
  with_field "password" (VStr <$> password this)
  (with_field "refreshToken" (VStr <$> refreshToken this)
  (<["_id" := VStr (_id this)]>
  (<["username" := VStr (username this)]>
  (<["email" := VStr (email this)]>
  (<["role" := VStr (role this)]>
  (<["avatar" := VStr (avatar this)]>
  (<["isActive" := VBool (isActive this)]>
  (<["lastLogin" := opt_value date_value (lastLogin this)]>
  (<["watchlist" := VArr (map entry_value (watchlist this))]>
  (<["preferences" :=
       VObj [ ("language", VStr (pref_language this)); ("theme", VStr (pref_theme this));
              ("emailNotifications", VBool (pref_emailNotifications this)) ]]> ∅)))))))))).

(** [userSchema.methods.toJSON]. *)
Definition toJSON (this : User) : gmap string value :=
  let userObject := toObject this in
  let userObject := delete "password" userObject in
  let userObject := delete "refreshToken" userObject in
  userObject.

End UserModel.

(** ** A small runtime to run the definitions

    [Sample.builtins] reads decimal numerals the way the host does and is
    enough to evaluate the definitions on such inputs; [Sample.odm]
    checks what the Series schema declares for the fields of the records
    above. *)

Module Sample.
Import JS SeriesModel.

Definition digit_of (c : ascii) : Z := Z.of_N (code c) - 48.

(** The leading digits of [s], and what follows them. *)
Fixpoint read_digits (s : string) : list Z * string :=
  match s with
  | String c s' =>
      if is_digit c
      then let '(ds, rest) := read_digits s' in (digit_of c :: ds, rest)
      else ([], s)
  | EmptyString => ([], s)
  end.

Definition digits_value (ds : list Z) : Z := fold_left (fun acc d => 10 * acc + d) ds 0.

(** An optional sign, digits, and an optional fraction. *)
Definition read_number (fraction : bool) (s : string) : option Q * string :=
  let '(negative, body) :=
    match s with
    | String c s' =>
        if is_hyphen c then (true, s')
        else if (code c =? 43)%N then (false, s') else (false, s)
    | EmptyString => (false, s)
    end in
  let '(ds, rest) := read_digits body in
  let '(fs, rest') :=
    match rest with
    | String c r =>
        if fraction && (code c =? 46)%N then read_digits r else ([], rest)
    | EmptyString => ([], rest)
    end in
  match ds, fs with
  | [], [] => (None, s)
  | _, _ =>
      let magnitude :=
        (inject_Z (digits_value ds)
         + inject_Z (digits_value fs) / inject_Z (10 ^ Z.of_nat (length fs)))%Q in
      (Some (if negative then (- magnitude)%Q else magnitude),
       match fs with [] => rest | _ => rest' end)
  end.

(** Truncation towards zero. *)
Definition truncate (q : Q) : Z := Z.quot (Qnum q) (Z.pos (Qden q)).

Definition sample_parseInt (v : value) : option Z :=
  match v with
  | VNum q => Some (truncate q)
  | VStr s => truncate <$> fst (read_number false (drop_start is_space s))
  | _ => None
  end.

Definition sample_parseFloat (v : value) : option Q :=
  match v with
  | VNum q => Some q
  | VStr s => fst (read_number true (drop_start is_space s))
  | _ => None
  end.

Definition sample_ToNumber (v : value) : option Q :=
  match v with
  | VNum q => Some q
  | VBool b => Some (if b then 1%Q else 0%Q)
  | VNull => Some 0%Q
  | VStr s =>
      match trim s with
      | EmptyString => Some 0%Q
      | t => match read_number true t with
             | (Some q, EmptyString) => Some q
             | _ => None
             end
      end
  | _ => None
  end.

Definition sample_Number_toString (q : Q) : string :=
  if (Z.pos (Qden q) =? 1) then Z_toString (Qnum q)
  else Z_toString (Qnum q) +:+ "/" +:+ Z_toString (Z.pos (Qden q)).

Definition sample_localeCompare (a b : string) : Z :=
  match String.compare a b with Lt => -1 | Eq => 0 | Gt => 1 end.

(** Case-insensitive containment, which is what a pattern without
    special characters asks under the [i] option. *)
Fixpoint contains (needle s : string) : bool :=
  String.prefix needle s
  || match s with
     | String _ s' => contains needle s'
     | EmptyString => false
     end.

Definition sample_regex_test (pattern options s : string) : bool :=
  if String.eqb options "i" then contains (toLowerCase pattern) (toLowerCase s)
  else contains pattern s.

(** Ids are strings of 24 hexadecimal digits. *)
Definition is_hex (c : ascii) : bool :=
  is_digit c || in_range 65 70 c || in_range 97 102 c.

Definition sample_castable_id (s : string) : bool :=
  (String.length s =? 24)%nat && all_chars is_hex s.

Definition builtins : Builtins :=
  {| parseInt := sample_parseInt;
     parseFloat := sample_parseFloat;
     ToNumber := sample_ToNumber;
     Number_toString := sample_Number_toString;
     localeCompare := sample_localeCompare;
     regex_test := sample_regex_test;
     castable_id := sample_castable_id |}.

(** The hook's [slugify] call (lower case, a fixed set of punctuation
    removed, hyphen as replacement), on plain words. *)
Definition sample_slugify (s : string) : string :=
  replace_runs is_space "-" false
    (filter_chars (fun c => negb (existsb (fun n => (code c =? n)%N)
                                          [42; 43; 126; 46; 40; 41; 39; 34; 33; 58; 64]%N))
                  (trim (toLowerCase s))).

(** The checks of the schema on the fields at hand: at least one season
    counted, season numbers from 0 and season overviews of at most 1000
    characters, episode numbers from 1, and on every episode a title of
    at most 200 characters. *)
Definition sample_validates (s : Series) : bool :=
  (1 <=? numberOfSeasons s)
  && forallb (fun season =>
                (0 <=? seasonNumber season)
                && (String.length (overview season) <=? 1000)%nat
                && forallb (fun e =>
                              (1 <=? episodeNumber e)
                              && match obj_get "title" (episodeFields e) with
                                 | Some (VStr t) =>
                                     negb (is_empty (trim t))
                                     && (String.length (trim t) <=? 200)%nat
                                 | _ => false
                                 end)
                           (episodes season))
             (seasons s).

(** The cast to a Number, where it gives an integer: a number is taken as
    it is, a string or a boolean is converted, the empty string and
    whatever else is there count as missing. *)
Definition integer_of (q : Q) : option Z :=
  if Qeq_bool (inject_Z (truncate q)) q then Some (truncate q) else None.

Definition sample_cast_number (v : value) : option Z :=
  match v with
  | VNum q => integer_of q
  | VStr EmptyString => None
  | VStr _ | VBool _ => sample_ToNumber v ≫= integer_of
  | _ => None
  end.

Definition odm : Odm :=
  {| slugify := sample_slugify;
     validates := sample_validates;
     push_keeps_reference := false;
     cast_number := sample_cast_number |}.

End Sample.

(** ** Sample data *)

Module Fixtures.
Import JS.

(** A user loaded with both secrets. *)
Definition user_with_secrets : UserModel.User :=
  {| UserModel._id := "u1"; UserModel.username := "mina";
     UserModel.email := "mina@example.org"; UserModel.password := Some "$2a$12$hash";
     UserModel.role := "user"; UserModel.avatar := ""; UserModel.isActive := true;
     UserModel.lastLogin := None; UserModel.refreshToken := Some "token";
     UserModel.watchlist := []; UserModel.pref_language := "en";
     UserModel.pref_theme := "dark"; UserModel.pref_emailNotifications := true |}.

(** A moderator, and a series of theirs without seasons. *)
Definition owner : SeriesController.User :=
  {| SeriesController.role := "moderator"; SeriesController.userId := "u1" |}.

Definition bare_series : SeriesModel.Series :=
  {| SeriesModel.title := "Dark"; SeriesModel.slug := "dark-2017";
     SeriesModel.releaseYear := 2017; SeriesModel.seasons := [];
     SeriesModel.numberOfSeasons := 1; SeriesModel.numberOfEpisodes := 0;
     SeriesModel.addedBy := "u1"; SeriesModel.lastModifiedBy := None;
     SeriesModel.views := 0 |}.

Definition season_one : SeriesModel.Season :=
  {| SeriesModel.seasonNumber := 1; SeriesModel.name := "Season 1";
     SeriesModel.overview := ""; SeriesModel.posterPath := "";
     SeriesModel.airDate := None; SeriesModel.episodes := [] |}.

Definition series_with_season_one : SeriesModel.Series :=
  SeriesModel.set_counts 1 0 (SeriesModel.set_seasons [season_one] bare_series).

(** The body [{ "seasonNumber": 1 }], and the same with the number sent
    as a string. *)
Definition season_body (seasonNumber : value) : SeriesController.SeasonBody :=
  {| SeriesController.body_seasonNumber := seasonNumber;
     SeriesController.body_name := None;
     SeriesController.body_overview := None; SeriesController.body_posterPath := None;
     SeriesController.body_airDate := None |}.

Definition season_one_body : SeriesController.SeasonBody := season_body (VNum 1).
Definition season_one_as_string : SeriesController.SeasonBody := season_body (VStr "1").

(** The first episode as it is stored, as a body sends it, and as a body
    sends it with the number as a string. *)
Definition pilot : SeriesModel.Episode :=
  {| SeriesModel.episodeNumber := 1;
     SeriesModel.episodeFields := [("title", VStr "Pilot")] |}.

Definition pilot_data : SeriesModel.EpisodeData :=
  {| SeriesModel.data_episodeNumber := VNum 1;
     SeriesModel.data_fields := [("title", VStr "Pilot")] |}.

Definition pilot_as_string : SeriesModel.EpisodeData :=
  {| SeriesModel.data_episodeNumber := VStr "1";
     SeriesModel.data_fields := [("title", VStr "Pilot")] |}.

(** The id of the series. *)
Definition series_id : string := "64b7f0c2a1d3e4f5a6b7c8d9".

Definition db_bare : gmap string SeriesModel.Series := {[series_id := bare_series]}.
Definition db_season_one : gmap string SeriesModel.Series :=
  {[series_id := series_with_season_one]}.

Definition add_season_one : SeriesController.Call :=
  SeriesController.AddSeason series_id season_one_body owner.
Definition add_pilot : SeriesController.Call :=
  SeriesController.AddEpisode series_id "1" pilot_data owner.

(** Header ads, active since time 1000 and without an end date. *)
Definition header_ad (id : string) (pages : list string) (priority : Z) : AdModel.Ad :=
  {| AdModel._id := id; AdModel.name := id; AdModel.type := "Banner";
     AdModel.placement := "Header"; AdModel.code := "<div></div>";
     AdModel.redirectUrl := ""; AdModel.isActive := true; AdModel.priority := priority;
     AdModel.targetPages := pages; AdModel.targetDevices := [];
     AdModel.targetCountries := []; AdModel.startDate := AdModel.At 1000;
     AdModel.endDate := AdModel.Unset; AdModel.impressions := 0; AdModel.clicks := 0;
     AdModel.createdAt := 1000; AdModel.updatedAt := 1000 |}.

Definition ad_detail : AdModel.Ad := header_ad "detail-only" ["detail"] 1.
Definition ad_anywhere : AdModel.Ad := header_ad "anywhere" [] 2.
Definition ad_everywhere : AdModel.Ad := header_ad "everywhere" ["all"] 3.

(** A movie and a series of equal popularity; the series is the newer. *)
Definition title_of (id kind : string) (created : Z) : ContentController.Content :=
  {| ContentController._id := id; ContentController.title := id;
     ContentController.overview := ""; ContentController.director := None;
     ContentController.castNames := []; ContentController.creatorNames := [];
     ContentController.genres := ["Drama"]; ContentController.language := ["en"];
     ContentController.type := kind; ContentController.quality := "HD";
     ContentController.adminStatus := "Published"; ContentController.releaseYear := 2020;
     ContentController.rating := 7.5; ContentController.imdbRating := 7;
     ContentController.views := 100; ContentController.likes := 10;
     ContentController.createdAt := created; ContentController.runtime := None;
     ContentController.episodeRunTime := []; ContentController.numberOfSeasons := None;
     ContentController.numberOfEpisodes := None |}.

Definition old_movie : ContentController.Content := title_of "old-movie" "Movie" 1000.
Definition new_movie : ContentController.Content := title_of "new-movie" "Movie" 2000.
Definition new_series : ContentController.Content := title_of "new-series" "Series" 2000.

(** [GET /content?sortBy=trending]. *)
Definition trending_request : ContentController.ContentParams :=
  {| ContentController.q_page := VNum 1; ContentController.q_limit := VNum 12;
     ContentController.q_type := "all"; ContentController.q_search := "";
     ContentController.q_genres := ""; ContentController.q_language := "";
     ContentController.q_releaseYear := ""; ContentController.q_quality := "";
     ContentController.q_rating := ""; ContentController.q_sortBy := "trending";
     ContentController.q_sortOrder := "desc" |}.

(** A document with the genres Action and Drama. *)
Definition action_drama : Mongo.doc := fun path =>
  if String.eqb path "genres" then Some (VArr [VStr "Action"; VStr "Drama"]) else None.

End Fixtures.

(** ** Vocabulary of the statements *)

(** [Precedes a b l]: some occurrence of [a] in [l] comes before some
    occurrence of [b]. *)
Inductive Precedes {A : Type} (a b : A) : list A -> Prop :=
| Precedes_here (l : list A) : In b l -> Precedes a b (a :: l)
| Precedes_later (x : A) (l : list A) : Precedes a b l -> Precedes a b (x :: l).

(** The characters of a slug: [a-z], [0-9] and the hyphen. *)
Definition slug_char (c : ascii) : bool :=
  JS.is_lower c || JS.is_digit c || JS.is_hyphen c.

(** A requested page or device [requested] lets through an ad whose target
    list is [targets]. *)
Definition lets_through (requested : string) (targets : list string) : Prop :=
  targets = [] \/ In requested targets \/ In "all" targets.

(** What the query of [getActiveAdsByPlacement] asks of the two dates:
    the start absent or not after [now], the end absent or not before
    it. A date stored as [null] meets neither alternative. *)
Definition in_schedule (now : Z) (ad : AdModel.Ad) : Prop :=
  match AdModel.startDate ad with
  | AdModel.Unset => True
  | AdModel.NullDate => False
  | AdModel.At d => d <= now
  end
  /\ match AdModel.endDate ad with
     | AdModel.Unset => True
     | AdModel.NullDate => False
     | AdModel.At d => now <= d
     end.

(** In the store's trending order [x] comes after [y]: fewer views, or as
    many and a lower rating, or as many, the same rating and an earlier
    creation. *)
Definition trails (x y : ContentController.Content) : Prop :=
  (inject_Z (ContentController.views x) < inject_Z (ContentController.views y)
   \/ (inject_Z (ContentController.views x) == inject_Z (ContentController.views y)
       /\ (ContentController.rating x < ContentController.rating y
           \/ (ContentController.rating x == ContentController.rating y
               /\ inject_Z (ContentController.createdAt x)
                  < inject_Z (ContentController.createdAt y)))))%Q.

(** Two feed entries with the same views, rating and likes. *)
Definition same_popularity (a b : ContentController.FeedItem) : Prop :=
  ContentController.views (ContentController.content a)
    = ContentController.views (ContentController.content b)
  /\ (ContentController.rating (ContentController.content a)
      == ContentController.rating (ContentController.content b))%Q
  /\ ContentController.likes (ContentController.content a)
     = ContentController.likes (ContentController.content b).

(** ** More of the code *)

(** *** [helpers.js]: [generateSEOData] *)

Module HelpersSeo.
Import JS.

(** The fields [generateSEOData] reads from a content document. *)
Record SeoSource : Type := {
  title : string;
  overview : string;
  genres : list string;
  releaseYear : Z;
  type : string
}.

Record SeoData : Type := {
  seoTitle : string;
  seoDescription : string;
  keywords : list string
}.

(** [generateSEOData(content)]. *)
Definition generateSEOData (content : SeoSource) : SeoData :=
  let seoTitle :=
    "Watch " +:+ title content +:+ " (" +:+ Z_toString (releaseYear content)
    +:+ ") Online - Free " +:+ type content +:+ " Streaming | MovieHubBD" in
  let seoDescription :=
    if (150 <? Z.of_nat (String.length (overview content)))
    then String.substring 0 147 (overview content) +:+ "..."
    else overview content in
  let keywords :=
    [toLowerCase (title content)]
    ++ map toLowerCase (genres content)
    ++ [toLowerCase (type content); "watch online"; "free streaming"; "moviehubbd"] in
  {| seoTitle := seoTitle; seoDescription := seoDescription; keywords := keywords |}.

End HelpersSeo.

(** *** [models/Ad.js] and [adController.js]: the counters *)

Module AdCounters.
Import JS AdModel.

(** The collection of ads, by [_id]. *)
Abbreviation AdDb := (gmap string Ad).

Definition set_impressions (n : Z) (ad : Ad) : Ad :=
  {| _id := _id ad; name := name ad; type := type ad; placement := placement ad;
     code := code ad; redirectUrl := redirectUrl ad; isActive := isActive ad;
     priority := priority ad; targetPages := targetPages ad;
     targetDevices := targetDevices ad; targetCountries := targetCountries ad;
     startDate := startDate ad; endDate := endDate ad; impressions := n;
     clicks := clicks ad; createdAt := createdAt ad; updatedAt := updatedAt ad |}.

Definition set_clicks (n : Z) (ad : Ad) : Ad :=
  {| _id := _id ad; name := name ad; type := type ad; placement := placement ad;
     code := code ad; redirectUrl := redirectUrl ad; isActive := isActive ad;
     priority := priority ad; targetPages := targetPages ad;
     targetDevices := targetDevices ad; targetCountries := targetCountries ad;
     startDate := startDate ad; endDate := endDate ad; impressions := impressions ad;
     clicks := n; createdAt := createdAt ad; updatedAt := updatedAt ad |}.

Definition set_updatedAt (t : Z) (ad : Ad) : Ad :=
  {| _id := _id ad; name := name ad; type := type ad; placement := placement ad;
     code := code ad; redirectUrl := redirectUrl ad; isActive := isActive ad;
     priority := priority ad; targetPages := targetPages ad;
     targetDevices := targetDevices ad; targetCountries := targetCountries ad;
     startDate := startDate ad; endDate := endDate ad; impressions := impressions ad;
     clicks := clicks ad; createdAt := createdAt ad; updatedAt := t |}.

(** [this.save({ validateBeforeSave: false })] of a modified ad at time
    [now]: the schema keeps timestamps, so the save also sets
    [updatedAt]. *)
Definition save (now : Z) (this : Ad) : Ad := set_updatedAt now this.

(** [adSchema.methods.incrementImpressions] and [incrementClicks]: the
    document as it is saved. *)
Definition incrementImpressions (now : Z) (this : Ad) : Ad :=
  save now (set_impressions (impressions this + 1) this).

Definition incrementClicks (now : Z) (this : Ad) : Ad :=
  save now (set_clicks (clicks this + 1) this).

(** The answer of the two recording handlers; [redirect] is
    [data.redirectUrl], when the answer has one. *)
Record Answer : Type := {
  status : Z;
  success : bool;
  message : string;
  redirect : option string
}.

Definition notFound : Answer :=
  {| status := 404; success := false; message := "Ad not found"; redirect := None |}.

Definition failed (message : string) : Answer :=
  {| status := 500; success := false; message := message; redirect := None |}.

Section WithBuiltins.
Context `{Builtins}.

(** [recordImpression(req, res)] at time [now]: [id] is [req.params.id];
    [findById] throws on an id that does not cast, which ends in the
    answer 500 of the [catch]. *)
Definition recordImpression (now : Z) (id : string) (db : AdDb) : Answer * AdDb :=
  if negb (castable_id id) then (failed "Failed to record impression", db)
  else
  match db !! id with
  | None => (notFound, db)
  | Some ad =>
      let ad := incrementImpressions now ad in
      ({| status := 200; success := true; message := "Impression recorded";
          redirect := None |},
       <[id := ad]> db)
  end.

(** [recordClick(req, res)] at time [now]. *)
Definition recordClick (now : Z) (id : string) (db : AdDb) : Answer * AdDb :=
  if negb (castable_id id) then (failed "Failed to record click", db)
  else
  match db !! id with
  | None => (notFound, db)
  | Some ad =>
      let ad := incrementClicks now ad in
      (* Return redirect URL if available *)
      ({| status := 200; success := true; message := "Click recorded";
          redirect := if is_empty (redirectUrl ad) then None else Some (redirectUrl ad) |},
       <[id := ad]> db)
  end.

End WithBuiltins.

End AdCounters.

(** *** [contentController.js]: [getContentByGenre] *)

Module GenreFeed.
Import JS Mongo Helpers ContentController.

(** An entry of the genre listing: the document and its [contentType]. *)
Record Tagged : Type := {
  document : Content;
  tag : string
}.

(** The query both collections are asked for a genre. *)
Definition genreQuery (genre : string) : query :=
  [ ("adminStatus", Field (Is (VStr "Published")));
    ("genres", Field (In_ [VStr genre])) ].

Section WithBuiltins.
Context `{Builtins}.

(** [content] of [getContentByGenre], before the page is cut. *)
Definition genreContent (movies series : list Content) (genre type : string) : list Tagged :=
  let fromMovies :=
    if String.eqb type "all" || String.eqb type "movie"
    then map (fun movie => {| document := movie; tag := "Movie" |})
             (sort_by view [("rating", -1); ("views", -1)]
                      (find view (genreQuery genre) movies))
    else [] in
  let fromSeries :=
    if String.eqb type "all" || String.eqb type "series"
    then map (fun s => {| document := s; tag := "Series" |})
             (sort_by view [("rating", -1); ("views", -1)]
                      (find view (genreQuery genre) series))
    else [] in
  fromMovies ++ fromSeries.

(** [getContentByGenre(req, res)]: [genre] is the route parameter, [page],
    [limit] and [type] the query parameters with their defaults applied. *)
Definition getContentByGenre (movies series : list Content) (genre : string)
    (page limit : value) (type : string) : Pagination Tagged :=
  let pageNum := parseInt page in
  let limitNum := parseInt limit in
  let skip := skip_of pageNum limitNum in
  let content := genreContent movies series genre type in
  let totalCount := Z.of_nat (length content) in
  let paginatedContent := slice skip (plus_opt skip limitNum) content in
  createPagination (int_value pageNum) (int_value limitNum) totalCount paginatedContent.

End WithBuiltins.

End GenreFeed.

(** *** More vocabulary *)

(** No hyphen at the start, none at the end, no two in a row. [prev]
    tells whether the character before was a hyphen. *)
Fixpoint no_double_hyphen (prev : bool) (s : string) : bool :=
  match s with
  | EmptyString => true
  | String c s' =>
      if JS.is_hyphen c then negb prev && no_double_hyphen true s'
      else no_double_hyphen false s'
  end.

Definition starts_with_hyphen (s : string) : bool :=
  match s with String c _ => JS.is_hyphen c | EmptyString => false end.

Fixpoint ends_with_hyphen (s : string) : bool :=
  match s with
  | EmptyString => false
  | String c EmptyString => JS.is_hyphen c
  | String _ s' => ends_with_hyphen s'
  end.

Definition tidy (s : string) : Prop :=
  starts_with_hyphen s = false /\ ends_with_hyphen s = false
  /\ no_double_hyphen false s = true.

(** Some character of [s] passes [p]. *)
Fixpoint any_chars (p : ascii -> bool) (s : string) : bool :=
  match s with
  | EmptyString => false
  | String c s' => p c || any_chars p s'
  end.

(** A letter of the ASCII alphabet or a digit. *)
Definition is_alnum (c : ascii) : bool :=
  JS.is_lower c || JS.is_upper c || JS.is_digit c.

(** The keys [buildFilterQuery] treats in a way of their own. *)
Definition special_filter_keys : list string :=
  ["genres"; "language"; "releaseYear"; "type"; "quality"; "rating"; "adminStatus"].

(** Season numbers are distinct within a series, and episode numbers
    within each season. *)
Definition well_numbered (s : SeriesModel.Series) : Prop :=
  NoDup (map SeriesModel.seasonNumber (SeriesModel.seasons s))
  /\ Forall (fun season => NoDup (map SeriesModel.episodeNumber
                                      (SeriesModel.episodes season)))
            (SeriesModel.seasons s).

(** A JSON number. *)
Definition is_number (v : JS.value) : Prop :=
  match v with JS.VNum _ => True | _ => False end.

(** A request to one of the two handlers whose body carries the season
    or episode number as a JSON number. *)
Definition numeric_request (c : SeriesController.Call) : Prop :=
  match c with
  | SeriesController.AddSeason _ body _ =>
      is_number (SeriesController.body_seasonNumber body)
  | SeriesController.AddEpisode _ _ episodeData _ =>
      is_number (SeriesModel.data_episodeNumber episodeData)
  | SeriesController.ModelAddEpisode _ _ _ => False
  end.

(** The cast stores a number as the number it is. *)
Definition cast_keeps_numbers `{SeriesModel.Odm} : Prop :=
  forall q n, SeriesModel.cast_number (JS.VNum q) = Some n -> (inject_Z n == q)%Q.

(** The number of episodes a series really has. *)
Definition episode_total (s : SeriesModel.Series) : Z :=
  Z.of_nat (sum_list (map (fun season => length (SeriesModel.episodes season))
                          (SeriesModel.seasons s))).

(** *** [contentController.js]: the figures beside the feed *)

Module FeedStats.
Import JS ContentController.

(** [stats] of the answer of [getContent]. *)
Record Stats : Type := {
  totalResults : Z;
  movieCount : Z;
  seriesCount : Z
}.

Definition count_of (kind : string) (allContent : list FeedItem) : Z :=
  Z.of_nat (length (List.filter (fun item => String.eqb (contentType item) kind) allContent)).

Section WithBuiltins.
Context `{Builtins}.

Definition stats (movies series : list Content) (q : ContentParams) : Stats :=
  let allContent := allContent movies series q in
  let totalCount := Z.of_nat (length allContent) in
  {| totalResults := totalCount;
     movieCount := count_of "Movie" allContent;
     seriesCount := count_of "Series" allContent |}.

End WithBuiltins.

End FeedStats.

(** The same request with another [sortOrder]. *)
Definition with_sortOrder (sortOrder : string) (q : ContentController.ContentParams)
    : ContentController.ContentParams :=
  {| ContentController.q_page := ContentController.q_page q;
     ContentController.q_limit := ContentController.q_limit q;
     ContentController.q_type := ContentController.q_type q;
     ContentController.q_search := ContentController.q_search q;
     ContentController.q_genres := ContentController.q_genres q;
     ContentController.q_language := ContentController.q_language q;
     ContentController.q_releaseYear := ContentController.q_releaseYear q;
     ContentController.q_quality := ContentController.q_quality q;
     ContentController.q_rating := ContentController.q_rating q;
     ContentController.q_sortBy := ContentController.q_sortBy q;
     ContentController.q_sortOrder := sortOrder |}.

(** *** More sample data *)

Module MoreFixtures.
Import JS Fixtures.

(** [GET /content?page=0]. *)
Definition page_zero_request : ContentController.ContentParams :=
  {| ContentController.q_page := VNum 0; ContentController.q_limit := VNum 12;
     ContentController.q_type := "all"; ContentController.q_search := "";
     ContentController.q_genres := ""; ContentController.q_language := "";
     ContentController.q_releaseYear := ""; ContentController.q_quality := "";
     ContentController.q_rating := ""; ContentController.q_sortBy := "newest";
     ContentController.q_sortOrder := "desc" |}.

(** [GET /content], every parameter at its default. *)
Definition newest_request : ContentController.ContentParams :=
  {| ContentController.q_page := VNum 1; ContentController.q_limit := VNum 12;
     ContentController.q_type := "all"; ContentController.q_search := "";
     ContentController.q_genres := ""; ContentController.q_language := "";
     ContentController.q_releaseYear := ""; ContentController.q_quality := "";
     ContentController.q_rating := ""; ContentController.q_sortBy := "newest";
     ContentController.q_sortOrder := "desc" |}.

(** A Header ad of the priority of [ad_anywhere], created after it. *)
Definition newer_ad : AdModel.Ad :=
  {| AdModel._id := "newer"; AdModel.name := "newer"; AdModel.type := "Banner";
     AdModel.placement := "Header"; AdModel.code := "<div></div>";
     AdModel.redirectUrl := ""; AdModel.isActive := true; AdModel.priority := 2;
     AdModel.targetPages := []; AdModel.targetDevices := [];
     AdModel.targetCountries := []; AdModel.startDate := AdModel.At 1000;
     AdModel.endDate := AdModel.Unset; AdModel.impressions := 0; AdModel.clicks := 0;
     AdModel.createdAt := 2000; AdModel.updatedAt := 2000 |}.

(** The series with its first season and the pilot in it. *)
Definition series_with_pilot : SeriesModel.Series :=
  SeriesModel.set_counts 1 1
    (SeriesModel.set_seasons [SeriesModel.push_episode pilot season_one] bare_series).

Definition db_with_pilot : gmap string SeriesModel.Series :=
  {[series_id := series_with_pilot]}.

End MoreFixtures.

(* ===================================================================== *)
(** * Part II: lemmas and theorems *)
(* ===================================================================== *)

(** ** Pagination *)

Section Pagination.
Import JS Helpers.
Context `{Builtins}.

Lemma ceil_div_zero (b : Z) : ceil_div 0 b = 0.
Proof. unfold ceil_div. rewrite Z.opp_0, Zdiv_0_l. reflexivity. Qed.

(** C2, as the code has it. With no result at all there are no pages, a
    next page is announced only to a negative page number, and a previous
    page is announced exactly when the requested page lies beyond the
    first one. *)
Theorem createPagination_no_results {A : Type} (page limit : value) (docs : list A) :
  let p := createPagination page limit 0 docs in
  totalPages p = 0
  /\ (hasNextPage p = false <-> 0 <= Helpers.page p)
  /\ (hasPrevPage p = false <-> Helpers.page p <= 1)
  /\ Helpers.page p = or_default (parseInt page) 1.
Proof.
  cbn. rewrite ceil_div_zero. repeat split; try reflexivity.
  - intros E. apply Z.ltb_ge in E. exact E.
  - intros E. apply Z.ltb_ge. exact E.
  - intros E. apply Z.ltb_ge in E. exact E.
  - intros E. apply Z.ltb_ge. exact E.
Qed.

End Pagination.

(** C2 on the first page of an empty result: no pages, none before, none
    after. *)
Lemma createPagination_no_results_witness :
  let p := @Helpers.createPagination Sample.builtins nat
             (JS.VStr "1") JS.VUndefined 0 [] in
  Helpers.totalPages p = 0 /\ Helpers.hasNextPage p = false
  /\ Helpers.hasPrevPage p = false.
Proof.
  pose proof (@createPagination_no_results Sample.builtins nat
                (JS.VStr "1") JS.VUndefined []) as (Ht & Hn & Hp & Hpage).
  cbv zeta in *. split; [exact Ht|]. split.
  - apply Hn. rewrite Hpage. vm_compute. discriminate.
  - apply Hp. rewrite Hpage. vm_compute. discriminate.
Defined.

(** C2 as stated fails on the second page of an empty result: a previous
    page is announced. *)
Lemma createPagination_second_page_of_nothing :
  let p := @Helpers.createPagination Sample.builtins nat
             (JS.VNum 2) (JS.VNum 12) 0 [] in
  Helpers.hasPrevPage p = true
  /\ ~ (Helpers.totalPages p = 0 /\ Helpers.hasNextPage p = false
        /\ Helpers.hasPrevPage p = false).
Proof.
  split; [reflexivity|]. intros (_ & _ & E). vm_compute in E. discriminate E.
Qed.

(** ** Slugs *)

Section Slugs.
Import JS Helpers.
Context `{Builtins}.

Ltac each_char c := destruct c as [[] [] [] [] [] [] [] []].

Lemma lower_char_not_upper (c : ascii) : is_upper (lower_char c) = false.
Proof. each_char c; reflexivity. Qed.

Lemma kept_char_is_slug_char (c : ascii) :
  is_upper c = false ->
  is_word c || is_space c || is_hyphen c = true ->
  is_space c || is_underscore c || is_hyphen c = false ->
  slug_char c = true.
Proof. each_char c; vm_compute; intros; congruence. Qed.

Lemma slug_char_lower (c : ascii) : slug_char c = true -> lower_char c = c.
Proof. each_char c; vm_compute; intros; congruence. Qed.

Lemma append_cons (c : ascii) (a b : string) : String c a +:+ b = String c (a +:+ b).
Proof. reflexivity. Qed.

Lemma all_chars_app (p : ascii -> bool) (a b : string) :
  all_chars p (a +:+ b) = all_chars p a && all_chars p b.
Proof.
  induction a as [|c a IH]; [reflexivity|].
  rewrite append_cons. simpl. rewrite IH. apply andb_assoc.
Qed.

Lemma all_chars_weaken (p q : ascii -> bool) (s : string) :
  (forall c, p c = true -> q c = true) -> all_chars p s = true -> all_chars q s = true.
Proof.
  intros Hpq. induction s as [|c s IH]; simpl; [reflexivity|].
  intros E. apply andb_prop in E as [Hc Hs]. rewrite (Hpq _ Hc), (IH Hs). reflexivity.
Qed.

Lemma all_chars_map (p : ascii -> bool) (f : ascii -> ascii) (s : string) :
  (forall c, p (f c) = true) -> all_chars p (map_chars f s) = true.
Proof.
  intros Hf. induction s as [|c s IH]; simpl; [reflexivity|]. rewrite Hf, IH. reflexivity.
Qed.

Lemma all_chars_drop_start (p q : ascii -> bool) (s : string) :
  all_chars p s = true -> all_chars p (drop_start q s) = true.
Proof.
  induction s as [|c s IH]; simpl; [reflexivity|].
  intros E. destruct (q c); [|exact E]. apply andb_prop in E as [_ Hs]. exact (IH Hs).
Qed.

Lemma all_chars_drop_end (p q : ascii -> bool) (s : string) :
  all_chars p s = true -> all_chars p (drop_end q s) = true.
Proof.
  induction s as [|c s IH]; simpl; [reflexivity|].
  intros E. apply andb_prop in E as [Hc Hs]. specialize (IH Hs).
  destruct (drop_end q s) as [|c' r].
  - destruct (q c); simpl; [reflexivity|rewrite Hc; reflexivity].
  - change (all_chars p (String c (String c' r))) with (p c && all_chars p (String c' r)).
    rewrite Hc, IH. reflexivity.
Qed.

Lemma all_chars_filter (p q : ascii -> bool) (s : string) :
  all_chars p s = true -> all_chars (fun c => p c && q c) (filter_chars q s) = true.
Proof.
  induction s as [|c s IH]; simpl; [reflexivity|].
  intros E. apply andb_prop in E as [Hc Hs]. specialize (IH Hs).
  destruct (q c) eqn:Q; simpl; [rewrite Hc, Q, IH; reflexivity|exact IH].
Qed.

Lemma all_chars_replace_runs (p q sep : ascii -> bool) (r : ascii) (b : bool) (s : string) :
  q r = true ->
  (forall c, p c = true -> sep c = false -> q c = true) ->
  all_chars p s = true -> all_chars q (replace_runs sep r b s) = true.
Proof.
  intros Hr Hq. revert b. induction s as [|c s IH]; intros b; simpl; [reflexivity|].
  intros E. apply andb_prop in E as [Hc Hs].
  destruct (sep c) eqn:S.
  - destruct b; simpl; [|rewrite Hr]; apply IH; exact Hs.
  - simpl. rewrite (Hq _ Hc S). apply IH. exact Hs.
Qed.

Lemma string_of_uint_chars (d : Decimal.uint) :
  all_chars slug_char (NilEmpty.string_of_uint d) = true.
Proof. induction d; simpl; try rewrite IHd; reflexivity. Qed.

Lemma Z_toString_chars (z : Z) : all_chars slug_char (Z_toString z) = true.
Proof.
  unfold Z_toString, NilZero.string_of_int, NilZero.string_of_uint.
  destruct (Z.to_int z) as [d|d]; simpl.
  - destruct d; try reflexivity; apply (string_of_uint_chars (_ d)).
  - destruct d; try reflexivity; apply (string_of_uint_chars (_ d)).
Qed.

(** The part of the slug made from the title. *)
Lemma baseSlug_chars (title : string) :
  all_chars slug_char
    (strip_hyphens (hyphenate (remove_special (trim (toLowerCase title))))) = true.
Proof.
  unfold strip_hyphens, hyphenate, remove_special, trim, toLowerCase.
  apply all_chars_drop_end, all_chars_drop_start.
  eapply (all_chars_replace_runs
            (fun c => negb (is_upper c) && (is_word c || is_space c || is_hyphen c)));
    [reflexivity| |].
  - intros c Hc Hsep. apply andb_prop in Hc as [Hu Hk].
    apply kept_char_is_slug_char; [|exact Hk|exact Hsep].
    destruct (is_upper c); [discriminate Hu|reflexivity].
  - apply (all_chars_filter (fun c => negb (is_upper c))).
    apply all_chars_drop_end, all_chars_drop_start, all_chars_map.
    intros c. rewrite lower_char_not_upper. reflexivity.
Qed.

(** The slug is the title's part, then a hyphen and the printed year when
    the year is truthy. *)
Lemma generateSlug_chars (title : string) (year : value) :
  all_chars slug_char (generateSlug title year)
  = (negb (truthy year) || all_chars slug_char (toString year)).
Proof.
  unfold generateSlug. destruct (truthy year); simpl; [|apply baseSlug_chars].
  rewrite !all_chars_app, baseSlug_chars. reflexivity.
Qed.

Lemma toLowerCase_slug_chars (s : string) :
  all_chars slug_char s = true -> toLowerCase s = s.
Proof.
  unfold toLowerCase. induction s as [|c s IH]; simpl; [reflexivity|].
  intros E. apply andb_prop in E as [Hc Hs]. rewrite (slug_char_lower _ Hc), (IH Hs).
  reflexivity.
Qed.

(** C6, as the code has it. A year that is missing or falsy, 0 among
    them, adds nothing: the slug is the part made from the title, which
    consists of the characters a-z, 0-9 and the hyphen. A truthy year is
    appended after a hyphen the way the language prints it, and the slug
    stays within these characters exactly when that printing does. So for
    an integer year other than zero that is printed in plain decimal
    digits, as every integer of a magnitude below 10^21 is, the slug
    consists of a-z, 0-9 and the hyphen, lower-casing leaves it as it is,
    and it ends with a hyphen and the year. *)
Theorem generateSlug_shape (title : string) (year : value) :
  (truthy year = false ->
     generateSlug title year = generateSlug title VNull
     /\ all_chars slug_char (generateSlug title year) = true
     /\ toLowerCase (generateSlug title year) = generateSlug title year)
  /\ (truthy year = true ->
        generateSlug title year = generateSlug title VNull +:+ "-" +:+ toString year
        /\ (all_chars slug_char (generateSlug title year) = true
            <-> all_chars slug_char (toString year) = true))
  /\ (forall y, year = VNum (inject_Z y) -> y <> 0 ->
        Number_toString (inject_Z y) = Z_toString y ->
        all_chars slug_char (generateSlug title year) = true
        /\ toLowerCase (generateSlug title year) = generateSlug title year
        /\ ends_with (generateSlug title year) ("-" +:+ Z_toString y)).
Proof.
  split; [|split].
  - intros Hy.
    assert (Hc : all_chars slug_char (generateSlug title year) = true).
    { rewrite generateSlug_chars, Hy. reflexivity. }
    split; [unfold generateSlug; rewrite Hy; reflexivity|].
    split; [exact Hc|apply toLowerCase_slug_chars; exact Hc].
  - intros Hy. split; [unfold generateSlug; rewrite Hy; reflexivity|].
    rewrite generateSlug_chars, Hy. reflexivity.
  - intros y -> Hy Hprint.
    assert (Ht : truthy (VNum (inject_Z y)) = true).
    { simpl. apply negb_true_iff. destruct (Qeq_bool (inject_Z y) 0) eqn:E; [|reflexivity].
      apply Qeq_bool_iff in E. unfold Qeq in E. simpl in E. lia. }
    assert (Hc : all_chars slug_char (generateSlug title (VNum (inject_Z y))) = true).
    { rewrite generateSlug_chars, Ht. simpl. rewrite Hprint. apply Z_toString_chars. }
    split; [exact Hc|]. split; [apply toLowerCase_slug_chars; exact Hc|].
    unfold generateSlug. rewrite Ht. simpl toString. rewrite Hprint.
    eexists. reflexivity.
Qed.

End Slugs.

(** The theorem at the title of the scenario and at the year 1999. *)
Lemma generateSlug_shape_witness :
  @Helpers.generateSlug Sample.builtins "The Matrix" (JS.VNum 1999) = "the-matrix-1999"
  /\ JS.ends_with (@Helpers.generateSlug Sample.builtins "The Matrix" (JS.VNum 1999))
                  ("-" +:+ JS.Z_toString 1999).
Proof.
  split; [reflexivity|].
  apply (proj2 (proj2 (@generateSlug_shape Sample.builtins "The Matrix" (JS.VNum 1999)))
           1999); [reflexivity|lia|reflexivity].
Defined.

(** C6 as stated fails for the year 0, which the guard on the year treats
    as no year: the slug gets no suffix. *)
Lemma generateSlug_year_zero :
  @Helpers.generateSlug Sample.builtins "a" (JS.VNum 0) = "a"
  /\ ~ JS.ends_with (@Helpers.generateSlug Sample.builtins "a" (JS.VNum 0))
                    ("-" +:+ JS.Z_toString 0).
Proof.
  split; [reflexivity|].
  intros [prefix E]. vm_compute in E.
  destruct prefix as [|c [|c' prefix]]; discriminate E.
Qed.

(** ** The serialised user *)

Section UserJSON.
Import JS UserModel Fixtures.

Lemma toJSON_lookup (this : User) (key : string) :
  toJSON this !! key
  = if decide (key = "password" \/ key = "refreshToken") then None else toObject this !! key.
Proof.
  unfold toJSON. rewrite !lookup_delete.
  destruct (decide ("refreshToken" = key)) as [<-|Hr].
  - rewrite decide_True by (right; reflexivity). reflexivity.
  - destruct (decide ("password" = key)) as [<-|Hp].
    + rewrite decide_True by (left; reflexivity). reflexivity.
    + rewrite decide_False by (intros [->| ->]; congruence). reflexivity.
Qed.

(** C8. Whatever state a user document is in, the object [toJSON]
    returns has no [password] and no [refreshToken] property; every other
    property is the one [toObject] produced. *)
Theorem toJSON_hides_secrets (this : User) :
  toJSON this !! "password" = None
  /\ toJSON this !! "refreshToken" = None
  /\ (forall key, key <> "password" -> key <> "refreshToken" ->
        toJSON this !! key = toObject this !! key).
Proof.
  repeat split.
  - rewrite toJSON_lookup. apply decide_True. left. reflexivity.
  - rewrite toJSON_lookup. apply decide_True. right. reflexivity.
  - intros key Hp Hr. rewrite toJSON_lookup. apply decide_False.
    intros [E|E]; [exact (Hp E)|exact (Hr E)].
Qed.

Lemma toJSON_hides_secrets_witness :
  toObject user_with_secrets !! "password" = Some (VStr "$2a$12$hash")
  /\ toJSON user_with_secrets !! "password" = None
  /\ toJSON user_with_secrets !! "username" = Some (VStr "mina").
Proof.
  split; [reflexivity|]. split.
  - exact (proj1 (toJSON_hides_secrets user_with_secrets)).
  - rewrite (proj2 (proj2 (toJSON_hides_secrets user_with_secrets)) "username");
      [reflexivity|discriminate|discriminate].
Defined.

End UserJSON.

(** ** Filter queries *)

Section Objects.
Import JS.
Context {A : Type}.

Lemma obj_get_nil (key : string) : obj_get key ([] : list (string * A)) = None.
Proof. reflexivity. Qed.

Lemma obj_get_cons (key k : string) (v : A) (o : list (string * A)) :
  obj_get key ((k, v) :: o) = if String.eqb k key then Some v else obj_get key o.
Proof. unfold obj_get. simpl. destruct (String.eqb k key); reflexivity. Qed.

Lemma obj_get_set (key k : string) (v : A) (o : list (string * A)) :
  obj_get key (obj_set k v o) = if String.eqb k key then Some v else obj_get key o.
Proof.
  induction o as [|[k' w] o IH]; simpl.
  - rewrite obj_get_cons. reflexivity.
  - destruct (String.eqb k' k) eqn:E.
    + apply String.eqb_eq in E as ->. rewrite !obj_get_cons.
      destruct (String.eqb k key); reflexivity.
    + rewrite !obj_get_cons, IH.
      destruct (String.eqb k' key) eqn:E'; [|reflexivity].
      apply String.eqb_eq in E' as ->. rewrite String.eqb_sym, E. reflexivity.
Qed.

End Objects.

Section FilterQuery.
Import JS Mongo Helpers.
Context `{Builtins}.

(** One step of the loop leaves [query] alone or sets the very key it
    looks at. *)
Lemma filter_step_cases (filters : list (string * value)) (query : Mongo.query) (key : string) :
  filter_step filters query key = query
  \/ exists c, filter_step filters query key = obj_set key c query.
Proof.
  unfold filter_step.
  destruct (truthy _ && _); [|left; reflexivity].
  repeat match goal with
         | |- context [if String.eqb key ?k then _ else _] =>
             destruct (String.eqb_spec key k) as [->|?]
         end;
  repeat match goal with
         | |- context [match ?v with _ => _ end] => destruct v
         end;
  (left; reflexivity) || (right; eexists; reflexivity).
Qed.

Lemma filter_step_falsy (filters : list (string * value)) (query : Mongo.query)
    (key : string) (v : value) :
  obj_get key filters = Some v -> falsy v = true -> filter_step filters query key = query.
Proof.
  intros Hget Hv. unfold filter_step. rewrite Hget. simpl.
  unfold falsy in Hv. apply negb_true_iff in Hv. rewrite Hv. reflexivity.
Qed.

Lemma buildFilterQuery_skips (filters : list (string * value)) (key : string) (v : value)
    (keys : list string) (query : Mongo.query) :
  obj_get key filters = Some v -> falsy v = true ->
  obj_get key query = None ->
  obj_get key (fold_left (filter_step filters) keys query) = None.
Proof.
  intros Hget Hv. revert query. induction keys as [|k keys IH]; intros query Hq; simpl.
  - exact Hq.
  - apply IH. destruct (String.eqb_spec k key) as [->|Hk].
    + rewrite (filter_step_falsy _ _ _ _ Hget Hv). exact Hq.
    + destruct (filter_step_cases filters query k) as [->|[c ->]]; [exact Hq|].
      rewrite obj_get_set. apply String.eqb_neq in Hk. rewrite Hk. exact Hq.
Qed.

(** C10. A key of the filter object whose value is falsy ([false], [0],
    the empty string, [null], [undefined]) leaves no constraint in the
    query; [{ isActive: false }] gives the empty query, which every
    document matches; and a request for inactive ads in the admin listing
    arrives at a query that says nothing about [isActive]. *)
Theorem buildFilterQuery_drops_falsy :
  (forall filters key v,
      obj_get key filters = Some v -> falsy v = true ->
      obj_get key (buildFilterQuery filters) = None)
  /\ buildFilterQuery [("isActive", VBool false)] = []
  /\ (forall d, matches (buildFilterQuery [("isActive", VBool false)]) d = true)
  /\ (forall type placement network,
        obj_get "isActive"
          (AdController.getAllAds_query type placement (VStr "false") network) = None).
Proof.
  split; [|split; [|split]].
  - intros filters key v Hget Hv. unfold buildFilterQuery.
    apply (buildFilterQuery_skips filters key v); [exact Hget|exact Hv|reflexivity].
  - reflexivity.
  - intros d. reflexivity.
  - intros type placement network. unfold AdController.getAllAds_query, buildFilterQuery.
    apply (buildFilterQuery_skips _ _ (VBool false)); reflexivity.
Qed.

Lemma In_existsb_literal (a : string) (items : list value) :
  existsb (fun x => value_eqb x (VStr a)) items = true <-> In (VStr a) items.
Proof.
  rewrite existsb_exists. split.
  - intros (x & Hx & E). destruct x; try discriminate E.
    simpl in E. apply String.eqb_eq in E as ->. exact Hx.
  - intros Hin. exists (VStr a). split; [exact Hin|]. simpl. apply String.eqb_refl.
Qed.

(** C9. The query built from [{ genres: "Action, Comedy" }] asks for any
    of the two genres: a document whose genres form an array matches
    exactly when the array holds "Action" or holds "Comedy" -- so one with
    "Action" and without "Comedy" matches, and the other way round. *)
Theorem buildFilterQuery_genres_any_of (d : doc) (items : list value) :
  d "genres" = Some (VArr items) ->
  buildFilterQuery [("genres", VStr "Action, Comedy")]
    = [("genres", Field (In_ [VStr "Action"; VStr "Comedy"]))]
  /\ (matches (buildFilterQuery [("genres", VStr "Action, Comedy")]) d = true
      <-> In (VStr "Action") items \/ In (VStr "Comedy") items).
Proof.
  intros Hd. split; [reflexivity|].
  change (buildFilterQuery [("genres", VStr "Action, Comedy")])
    with [("genres", Field (In_ [VStr "Action"; VStr "Comedy"]))].
  unfold matches. simpl. rewrite Hd. simpl.
  rewrite andb_true_r, orb_false_r, orb_true_iff, !In_existsb_literal. reflexivity.
Qed.

End FilterQuery.

(** ** Seasons and episodes *)

Section SeriesLemmas.
Import JS SeriesModel SeriesController.
Context `{Builtins} `{Odm}.

Lemma fold_episode_count (l : list Season) (acc : Z) :
  fold_left (fun total season => total + Z.of_nat (length (episodes season))) l acc
  = acc + Z.of_nat (sum_list (map (fun season => length (episodes season)) l)).
Proof.
  revert acc. induction l as [|s l IH]; intros acc; simpl.
  - lia.
  - rewrite IH. lia.
Qed.

Lemma pre_save_seasons (flag : bool) (this : Series) :
  seasons (pre_save flag this) = seasons this.
Proof.
  unfold pre_save. destruct flag; simpl; [|reflexivity].
  destruct (negb (releaseYear this =? 0)); reflexivity.
Qed.

(** The hook recomputes both derived fields, on every save. *)
Lemma pre_save_counts (flag : bool) (this : Series) : counts_agree (pre_save flag this).
Proof.
  unfold counts_agree.
  assert (E : forall s : Series,
             seasons (set_counts (Z.of_nat (length (seasons s)))
               (fold_left (fun total season => total + Z.of_nat (length (episodes season)))
                          (seasons s) 0) s) = seasons s) by reflexivity.
  unfold pre_save. cbv zeta.
  match goal with |- context [set_counts _ _ ?s] => generalize s end.
  intros s. simpl. rewrite fold_episode_count. split; [lia|reflexivity].
Qed.

Lemma save_counts (validate flag : bool) (this stored : Series) :
  save validate flag this = Some stored -> counts_agree stored.
Proof.
  unfold save. destruct (validate && negb (validates this)); [discriminate|].
  intros [= <-]. apply pre_save_counts.
Qed.

Lemma save_seasons (validate flag : bool) (this stored : Series) :
  save validate flag this = Some stored -> seasons stored = seasons this.
Proof.
  unfold save. destruct (validate && negb (validates this)); [discriminate|].
  intros [= <-]. apply pre_save_seasons.
Qed.

Lemma save_addedBy (validate flag : bool) (this stored : Series) :
  save validate flag this = Some stored -> addedBy stored = addedBy this.
Proof.
  unfold save. destruct (validate && negb (validates this)); [discriminate|].
  intros [= <-]. unfold pre_save. destruct flag; simpl; [|reflexivity].
  destruct (negb (releaseYear this =? 0)); reflexivity.
Qed.

(** Strict equality with a stored number holds for a number only. *)
Lemma strict_eq_num_true (n : Z) (v : value) :
  strict_eq_num n v = true <-> exists q, v = VNum q /\ (inject_Z n == q)%Q.
Proof.
  unfold strict_eq_num. split.
  - destruct v as [| | |q| | | |]; try discriminate.
    intros E. apply Qeq_bool_iff in E. exists q. split; [reflexivity|exact E].
  - intros (q & -> & E). apply Qeq_bool_iff. exact E.
Qed.

(** What an answer 201 of [addSeason] means for the collection. *)
Lemma addSeason_created (id : string) (body : SeasonBody) (user : User) (db : Db) :
  status (addSeason id body user db).1 = 201 ->
  exists series stored,
    db !! id = Some series
    /\ (addSeason id body user db).2 = <[id := stored]> db
    /\ counts_agree stored
    /\ denied user stored = false
    /\ exists season, seasons stored = seasons series ++ [season]
                      /\ cast_number (body_seasonNumber body) = Some (seasonNumber season).
Proof.
  unfold addSeason. destruct (castable_id id); [|discriminate]. simpl.
  destruct (db !! id) as [series|]; [|discriminate].
  destruct (denied user series) eqn:D; [discriminate|].
  destruct (List.find _ (seasons series)); [discriminate|].
  destruct (cast_number (body_seasonNumber body)) as [n|]; [|discriminate].
  destruct (save true false _) as [stored|] eqn:S; [|discriminate].
  intros _. exists series, stored. split; [reflexivity|]. split; [reflexivity|].
  split; [exact (save_counts _ _ _ _ S)|].
  split.
  - unfold denied in *. rewrite (save_addedBy _ _ _ _ S). exact D.
  - eexists. rewrite (save_seasons _ _ _ _ S). split; reflexivity.
Qed.

Lemma addEpisode_created (id sn : string) (e : EpisodeData) (user : User) (db : Db) :
  status (addEpisode id sn e user db).1 = 201 ->
  exists stored, (addEpisode id sn e user db).2 = <[id := stored]> db /\ counts_agree stored.
Proof.
  unfold addEpisode. destruct (castable_id id); [|discriminate]. simpl.
  destruct (db !! id) as [series|]; [|discriminate].
  destruct (denied user series); [discriminate|].
  destruct (List.find _ (seasons series)) as [season|]; [|discriminate].
  destruct (List.find _ (episodes season)); [discriminate|].
  destruct (cast_episode e) as [episode|]; [|discriminate].
  destruct (save true false _) as [stored|] eqn:S; [|discriminate].
  intros _. exists stored. split; [reflexivity|exact (save_counts _ _ _ _ S)].
Qed.

Lemma model_addEpisode_counts (this stored : Series) (sn : Z) (e : Episode) :
  SeriesModel.addEpisode this sn e = Some stored -> counts_agree stored.
Proof. unfold SeriesModel.addEpisode. apply save_counts. Qed.

(** An operation that saved left, under its target, a document whose
    derived fields agree with its lists. *)
Lemma exec_saved (c : Call) (db : Db) :
  (exec c db).1 = true ->
  exists stored, (exec c db).2 !! target c = Some stored /\ counts_agree stored.
Proof.
  destruct c as [id body user|id sn e user|id sn e]; simpl.
  - destruct (addSeason id body user db) as [res db'] eqn:E. simpl.
    intros Hs. apply Z.eqb_eq in Hs.
    destruct (addSeason_created id body user db) as (series & stored & _ & Hdb & Hc & _ & _).
    { rewrite E. exact Hs. }
    rewrite E in Hdb. simpl in Hdb. subst db'.
    exists stored. split; [apply lookup_insert_eq|exact Hc].
  - destruct (addEpisode id sn e user db) as [res db'] eqn:E. simpl.
    intros Hs. apply Z.eqb_eq in Hs.
    destruct (addEpisode_created id sn e user db) as (stored & Hdb & Hc).
    { rewrite E. exact Hs. }
    rewrite E in Hdb. simpl in Hdb. subst db'.
    exists stored. split; [apply lookup_insert_eq|exact Hc].
  - destruct (db !! id) as [series|]; [|discriminate].
    destruct (SeriesModel.addEpisode series sn e) as [stored|] eqn:E; [|discriminate].
    intros _. exists stored. simpl.
    split; [apply lookup_insert_eq|exact (model_addEpisode_counts _ _ _ _ E)].
Qed.

(** C1. In any sequence of season and episode operations on any
    collection, after each operation that saved, the stored
    [numberOfEpisodes] is the sum of the lengths of the episode lists of
    all seasons and the stored [numberOfSeasons] is the length of the
    season list. *)
Theorem counts_agree_after_each_save (db : Db) (calls : list Call) (c : Call) (db' : Db) :
  In (c, true, db') (run db calls) ->
  exists stored, db' !! target c = Some stored /\ counts_agree stored.
Proof.
  revert db. induction calls as [|c0 calls IH]; intros db; simpl; [intros []|].
  destruct (exec c0 db) as [saved db0] eqn:E. simpl.
  intros [Hhead|Htail]; [|exact (IH _ Htail)].
  injection Hhead as -> -> ->.
  pose proof (exec_saved c db) as Hs. rewrite E in Hs. exact (Hs eq_refl).
Qed.

(** C3, as the code has it. The request handler [addEpisode] answers 404
    when no season of the series has the season number of the route, and
    409 when the season found has an episode whose number is strictly
    equal to the episode number of the body, which takes a body that
    gives it as a JSON number; either way the collection, and with it the
    series, is what it was, and no season is created. The model's own
    [addEpisode] method is another matter: when no season has the number
    it is given, it appends a season with that number and saves. *)
Theorem addEpisode_refusals (id sn : string) (episodeData : EpisodeData) (e : Episode)
    (user : User) (db : Db) (series : Series) :
  castable_id id = true ->
  db !! id = Some series ->
  denied user series = false ->
  ((forall s, In s (seasons series) -> loose_eq_num (seasonNumber s) (VStr sn) = false) ->
     addEpisode id sn episodeData user db = (respond 404 "Season not found", db))
  /\ (forall season,
        List.find (fun s => loose_eq_num (seasonNumber s) (VStr sn)) (seasons series)
          = Some season ->
        (exists e0 q,
            In e0 (episodes season) /\ data_episodeNumber episodeData = VNum q
            /\ (inject_Z (episodeNumber e0) == q)%Q) ->
        addEpisode id sn episodeData user db = (respond 409 "Episode already exists", db))
  /\ (forall n,
        (forall s, In s (seasons series) -> seasonNumber s <> n) ->
        exists season,
          seasonNumber season = n
          /\ SeriesModel.addEpisode series n e
             = save true false (set_seasons (seasons series ++ [season]) series)
          /\ (validates (set_seasons (seasons series ++ [season]) series) = true ->
              exists stored,
                SeriesModel.addEpisode series n e = Some stored
                /\ seasons stored = seasons series ++ [season])).
Proof.
  intros Hid Hdb Hden. split; [|split].
  - intros Hnone. unfold addEpisode. rewrite Hid, Hdb, Hden. simpl.
    destruct (List.find _ (seasons series)) as [season|] eqn:F; [|reflexivity].
    apply find_some in F as [Hin Hm]. rewrite (Hnone _ Hin) in Hm. discriminate Hm.
  - intros season F (e0 & q & Hin & Hq & Hnum). unfold addEpisode.
    rewrite Hid, Hdb, Hden. simpl. rewrite F.
    destruct (List.find _ (episodes season)) eqn:G; [reflexivity|].
    apply (find_none _ _ G) in Hin. simpl in Hin.
    assert (E : strict_eq_num (episodeNumber e0) (data_episodeNumber episodeData) = true).
    { apply strict_eq_num_true. exists q. split; assumption. }
    rewrite E in Hin. discriminate Hin.
  - intros n Hnone. unfold SeriesModel.addEpisode.
    destruct (List.find _ (seasons series)) as [s|] eqn:F.
    { apply find_some in F as [Hin Hm]. apply Z.eqb_eq in Hm.
      destruct (Hnone _ Hin Hm). }
    eexists. split; [|split; [reflexivity|]].
    + destruct push_keeps_reference; reflexivity.
    + intros Hv. unfold save. rewrite Hv. simpl. eexists. split; [reflexivity|].
      apply pre_save_seasons.
Qed.

(** A refused [addSeason]: the number is taken. *)
Lemma addSeason_taken (id : string) (body : SeasonBody) (user : User) (db : Db)
    (series : Series) (season : Season) (q : Q) :
  castable_id id = true ->
  db !! id = Some series ->
  denied user series = false ->
  In season (seasons series) ->
  body_seasonNumber body = VNum q ->
  (inject_Z (seasonNumber season) == q)%Q ->
  addSeason id body user db = (respond 409 "Season already exists", db).
Proof.
  intros Hid Hdb Hden Hin Hq Hnum. unfold addSeason. rewrite Hid, Hdb, Hden. simpl.
  destruct (List.find _ (seasons series)) eqn:F; [reflexivity|].
  apply (find_none _ _ F) in Hin. simpl in Hin.
  assert (E : strict_eq_num (seasonNumber season) (body_seasonNumber body) = true).
  { apply strict_eq_num_true. exists q. split; assumption. }
  rewrite E in Hin. discriminate Hin.
Qed.

(** X25. When the series has a season whose number is the JSON number
    of the request, [addSeason] answers 409 and the collection -- hence
    the series, its season list and its season count -- is what it was;
    so the same request, sent again after it was answered 201, is
    answered 409, the cast being taken to store a number as the number it
    is. *)
Theorem addSeason_conflict (id : string) (body : SeasonBody) (user : User) (db : Db) (q : Q) :
  body_seasonNumber body = VNum q ->
  (forall series season,
      castable_id id = true ->
      db !! id = Some series ->
      denied user series = false ->
      In season (seasons series) ->
      (inject_Z (seasonNumber season) == q)%Q ->
      addSeason id body user db = (respond 409 "Season already exists", db))
  /\ (cast_keeps_numbers ->
      status (addSeason id body user db).1 = 201 ->
      let db' := (addSeason id body user db).2 in
      addSeason id body user db' = (respond 409 "Season already exists", db')).
Proof.
  intros Hq. split.
  - intros series season Hid Hdb Hden Hin Hnum.
    exact (addSeason_taken id body user db series season q Hid Hdb Hden Hin Hq Hnum).
  - intros Hcast H201.
    assert (Hid : castable_id id = true).
    { unfold addSeason in H201. destruct (castable_id id); [reflexivity|discriminate]. }
    destruct (addSeason_created id body user db H201)
      as (series & stored & Hdb & -> & _ & Hden & season & Hseasons & Hnum).
    cbv zeta. apply (addSeason_taken _ _ _ _ stored season q Hid).
    + apply lookup_insert_eq.
    + exact Hden.
    + rewrite Hseasons. apply in_or_app. right. left. reflexivity.
    + exact Hq.
    + apply Hcast. rewrite <- Hq. exact Hnum.
Qed.

Lemma strict_eq_num_number (n : Z) (v : value) :
  strict_eq_num n v = true -> is_number v.
Proof. destruct v; simpl; try discriminate. intros _. exact I. Qed.

(** X26. A season number or an episode number that the body does not give
    as a JSON number is never answered 409, whatever the series holds.
    When the series is found and its owner or an admin asks, [addSeason]
    then goes on to the cast and the save: the cast giving a number and
    the document validating, it answers 201 and the series has one more
    season, under the number the cast gave, taken or not. *)
Theorem no_conflict_without_number (id sn : string) (body : SeasonBody) (e : EpisodeData)
    (user : User) (db : Db) :
  (~ is_number (body_seasonNumber body) -> status (addSeason id body user db).1 <> 409)
  /\ (~ is_number (data_episodeNumber e) -> status (addEpisode id sn e user db).1 <> 409)
  /\ (forall series n,
        ~ is_number (body_seasonNumber body) ->
        castable_id id = true ->
        db !! id = Some series ->
        denied user series = false ->
        cast_number (body_seasonNumber body) = Some n ->
        exists season,
          seasonNumber season = n
          /\ (validates (set_lastModifiedBy (userId user)
                           (set_seasons (seasons series ++ [season]) series)) = true ->
              exists stored,
                addSeason id body user db
                = (created "Season added successfully" stored, <[id := stored]> db)
                /\ seasons stored = seasons series ++ [season]
                /\ numberOfSeasons stored = Z.of_nat (length (seasons series)) + 1)).
Proof.
  split; [|split].
  - intros Hn. unfold addSeason. destruct (castable_id id); [|discriminate]. simpl.
    destruct (db !! id) as [series|]; [|discriminate].
    destruct (denied user series); [discriminate|].
    destruct (List.find _ (seasons series)) eqn:F.
    { apply find_some in F as [_ Hm]. destruct (Hn (strict_eq_num_number _ _ Hm)). }
    destruct (cast_number (body_seasonNumber body)); [|discriminate].
    destruct (save true false _); discriminate.
  - intros Hn. unfold addEpisode. destruct (castable_id id); [|discriminate]. simpl.
    destruct (db !! id) as [series|]; [|discriminate].
    destruct (denied user series); [discriminate|].
    destruct (List.find _ (seasons series)) as [season|]; [|discriminate].
    destruct (List.find _ (episodes season)) eqn:F.
    { apply find_some in F as [_ Hm]. destruct (Hn (strict_eq_num_number _ _ Hm)). }
    destruct (cast_episode e); [|discriminate].
    destruct (save true false _); discriminate.
  - intros series n Hn Hid Hdb Hden Hcast. eexists. split; [|intros Hv].
    2: { unfold addSeason. rewrite Hid, Hdb, Hden. simpl.
         destruct (List.find _ (seasons series)) eqn:F.
         { apply find_some in F as [_ Hm]. destruct (Hn (strict_eq_num_number _ _ Hm)). }
         rewrite Hcast.
         destruct (save true false _) as [stored|] eqn:S.
         - exists stored. split; [reflexivity|].
           pose proof (save_seasons _ _ _ _ S) as Hs. simpl in Hs.
           split; [exact Hs|].
           destruct (save_counts _ _ _ _ S) as [_ Hc]. rewrite Hc, Hs.
           rewrite length_app. simpl. lia.
         - unfold save in S. rewrite Hv in S. simpl in S. discriminate S. }
    reflexivity.
Qed.

End SeriesLemmas.

(** ** The stable sort and slices *)

Section Order.
Context {A : Type}.
Implicit Types (a b x : A) (l : list A).

Lemma Precedes_cons a b x l :
  Precedes a b (x :: l) <-> (a = x /\ In b l) \/ Precedes a b l.
Proof.
  split.
  - intros P. inversion P; subst; [left; split; [reflexivity|assumption]|right; assumption].
  - intros [[-> Hb]|P]; [apply Precedes_here; exact Hb|apply Precedes_later; exact P].
Qed.

Lemma Precedes_nil a b : ~ Precedes a b [].
Proof. intros P. inversion P. Qed.

Lemma Precedes_In a b l : Precedes a b l -> In a l /\ In b l.
Proof.
  induction 1 as [l Hb|x l P [IHa IHb]].
  - split; [left; reflexivity|right; exact Hb].
  - split; right; assumption.
Qed.

Lemma Precedes_app a b l1 l2 :
  Precedes a b (l1 ++ l2)
  <-> Precedes a b l1 \/ Precedes a b l2 \/ (In a l1 /\ In b l2).
Proof.
  induction l1 as [|x l1 IH]; simpl.
  - split.
    + intros P. right. left. exact P.
    + intros [P|[P|[[] _]]]; [destruct (Precedes_nil _ _ P)|exact P].
  - rewrite !Precedes_cons, IH, in_app_iff. clear IH. split.
    + intros [[-> [Hb|Hb]]|[P|[P|[Ha Hb]]]]; eauto 6.
    + intros [[[-> Hb]|P]|[P|[[->|Ha] Hb]]]; eauto 6.
Qed.

(** Two distinct members of a list come in one order or the other. *)
Lemma In_Precedes a b l : In a l -> In b l -> a <> b -> Precedes a b l \/ Precedes b a l.
Proof.
  induction l as [|x l IH]; simpl; [intros []|].
  intros [->|Ha] [->|Hb] Hne.
  - contradiction.
  - left. apply Precedes_here. exact Hb.
  - right. apply Precedes_here. exact Ha.
  - destruct (IH Ha Hb Hne); [left|right]; apply Precedes_later; assumption.
Qed.

Lemma In_take x (n : nat) l : In x (take n l) -> In x l.
Proof.
  revert n. induction l as [|y l IH]; intros [|n]; simpl; try tauto.
  intros [->|Hx]; [left; reflexivity|right; exact (IH _ Hx)].
Qed.

Lemma In_drop x (n : nat) l : In x (drop n l) -> In x l.
Proof.
  revert n. induction l as [|y l IH]; intros [|n]; simpl; try tauto.
  intros Hx. right. exact (IH _ Hx).
Qed.

Lemma Precedes_take a b (n : nat) l : Precedes a b (take n l) -> Precedes a b l.
Proof.
  revert n. induction l as [|y l IH]; intros [|n]; simpl; intros P;
    try (destruct (Precedes_nil _ _ P)).
  apply Precedes_cons in P as [[-> Hb]|P].
  - apply Precedes_here. exact (In_take _ _ _ Hb).
  - apply Precedes_later. exact (IH _ P).
Qed.

Lemma Precedes_drop a b (n : nat) l : Precedes a b (drop n l) -> Precedes a b l.
Proof.
  revert n. induction l as [|y l IH]; intros [|n]; simpl; intros P; try exact P.
  apply Precedes_later. exact (IH _ P).
Qed.

(** A slice keeps members and their order. *)
Lemma In_slice x (start stop : option Z) l : In x (JS.slice start stop l) -> In x l.
Proof. unfold JS.slice. intros Hx. exact (In_drop _ _ _ (In_take _ _ _ Hx)). Qed.

Lemma Precedes_slice a b (start stop : option Z) l :
  Precedes a b (JS.slice start stop l) -> Precedes a b l.
Proof. unfold JS.slice. intros P. exact (Precedes_drop _ _ _ _ (Precedes_take _ _ _ _ P)). Qed.

(** From the start and with room for every element, a slice is the whole
    list. *)
Lemma slice_all (n : Z) l : Z.of_nat (length l) <= n -> JS.slice (Some 0) (Some n) l = l.
Proof.
  intros Hn. unfold JS.slice, JS.rel_index.
  replace (0 <? 0) with false by reflexivity.
  destruct (n <? 0) eqn:E; [apply Z.ltb_lt in E; lia|].
  rewrite (Z.min_l 0) by lia. rewrite Z.min_r by exact Hn.
  rewrite Z.sub_0_r, Nat2Z.id. simpl. apply firstn_all.
Qed.

Variable cmp : A -> A -> Q.

Lemma In_sort_insert x y l : In y (JS.sort_insert cmp x l) <-> y = x \/ In y l.
Proof.
  induction l as [|z l IH]; simpl.
  - split; intros [E|[]]; left; congruence.
  - destruct (Qlt_le_dec 0 (cmp x z)); simpl; [rewrite IH|]; intuition congruence.
Qed.

Lemma In_sort y l : In y (JS.sort cmp l) <-> In y l.
Proof.
  induction l as [|x l IH]; simpl; [reflexivity|].
  rewrite In_sort_insert, IH. intuition congruence.
Qed.

(** Where an inserted element ends up relative to the others. *)
Lemma Precedes_sort_insert a b x l :
  Precedes a b (JS.sort_insert cmp x l) ->
  Precedes a b l \/ (a = x /\ In b l) \/ (b = x /\ In a l /\ (0 < cmp x a)%Q).
Proof.
  induction l as [|y l IH]; simpl; intros P.
  - apply Precedes_cons in P as [[_ []]|P]. destruct (Precedes_nil _ _ P).
  - destruct (Qlt_le_dec 0 (cmp x y)) as [Hgt|Hle].
    + apply Precedes_cons in P as [[-> Hb]|P].
      * apply In_sort_insert in Hb as [->|Hb].
        -- right. right. split; [reflexivity|]. split; [left; reflexivity|exact Hgt].
        -- left. apply Precedes_here. exact Hb.
      * destruct (IH P) as [P'|[[-> Hb]|(-> & Ha & Hgt')]].
        -- left. apply Precedes_later. exact P'.
        -- right. left. split; [reflexivity|right; exact Hb].
        -- right. right. split; [reflexivity|]. split; [right; exact Ha|exact Hgt'].
    + apply Precedes_cons in P as [[-> Hb]|P].
      * right. left. split; [reflexivity|exact Hb].
      * left. exact P.
Qed.

(** Stability: the sort puts [a] before [b] only if the comparator asked
    for it or they came in this order. *)
Lemma sort_stable a b l :
  Precedes a b (JS.sort cmp l) -> (0 < cmp b a)%Q \/ Precedes a b l.
Proof.
  induction l as [|x l IH]; simpl; intros P.
  - destruct (Precedes_nil _ _ P).
  - apply Precedes_sort_insert in P as [P|[[-> Hb]|(-> & Ha & Hgt)]].
    + destruct (IH P) as [Hgt|P']; [left; exact Hgt|right; apply Precedes_later; exact P'].
    + right. apply Precedes_here. exact (proj1 (In_sort b l) Hb).
    + left. exact Hgt.
Qed.

(** Order: under a comparator that is transitive and never asks for both
    orders, the sort never leaves [a] before [b] when [cmp a b > 0]. *)
Hypothesis cmp_trans :
  forall x y z, ~ (0 < cmp x y)%Q -> ~ (0 < cmp y z)%Q -> ~ (0 < cmp x z)%Q.
Hypothesis cmp_asym : forall x y, (0 < cmp x y)%Q -> ~ (0 < cmp y x)%Q.

Lemma sort_insert_ordered x l :
  (forall a b, Precedes a b l -> ~ (0 < cmp a b)%Q) ->
  forall a b, Precedes a b (JS.sort_insert cmp x l) -> ~ (0 < cmp a b)%Q.
Proof.
  induction l as [|y l IH]; simpl; intros Hl a b P.
  - apply Precedes_cons in P as [[_ []]|P]. destruct (Precedes_nil _ _ P).
  - destruct (Qlt_le_dec 0 (cmp x y)) as [Hgt|Hle].
    + apply Precedes_cons in P as [[-> Hb]|P].
      * apply In_sort_insert in Hb as [->|Hb].
        -- apply cmp_asym. exact Hgt.
        -- apply Hl. apply Precedes_here. exact Hb.
      * revert P. apply IH. intros a' b' P'. apply Hl. apply Precedes_later. exact P'.
    + apply Precedes_cons in P as [[-> Hb]|P]; [|exact (Hl _ _ P)].
      assert (Hxy : ~ (0 < cmp x y)%Q) by (apply Qle_not_lt; exact Hle).
      destruct Hb as [->|Hb]; [exact Hxy|].
      apply (cmp_trans x y b Hxy). apply Hl. apply Precedes_here. exact Hb.
Qed.

Lemma sort_ordered a b l : Precedes a b (JS.sort cmp l) -> ~ (0 < cmp a b)%Q.
Proof.
  revert a b. induction l as [|x l IH]; simpl; intros a b P.
  - destruct (Precedes_nil _ _ P).
  - revert P. apply sort_insert_ordered. exact IH.
Qed.

(** A sort keeps the number of elements of each kind. *)
Lemma length_filter_sort_insert (p : A -> bool) x l :
  length (List.filter p (JS.sort_insert cmp x l)) = length (List.filter p (x :: l)).
Proof.
  induction l as [|y l IH]; simpl; [reflexivity|].
  destruct (Qlt_le_dec 0 (cmp x y)); [|reflexivity].
  simpl in *. destruct (p y), (p x); simpl in *; rewrite IH; reflexivity.
Qed.

Lemma length_filter_sort (p : A -> bool) l :
  length (List.filter p (JS.sort cmp l)) = length (List.filter p l).
Proof.
  induction l as [|x l IH]; simpl; [reflexivity|].
  rewrite length_filter_sort_insert. simpl. destruct (p x); simpl; rewrite IH; reflexivity.
Qed.

End Order.

Lemma Precedes_map {A B : Type} (f : A -> B) (u v : B) (l : list A) :
  Precedes u v (map f l) -> exists a b, Precedes a b l /\ f a = u /\ f b = v.
Proof.
  induction l as [|x l IH]; simpl; intros P.
  - destruct (Precedes_nil _ _ P).
  - apply Precedes_cons in P as [[-> Hv]|P].
    + apply in_map_iff in Hv as (b & Hb & Hin).
      exists x, b. split; [apply Precedes_here; exact Hin|split; [reflexivity|exact Hb]].
    + destruct (IH P) as (a & b & P' & Ha & Hb).
      exists a, b. split; [apply Precedes_later; exact P'|split; assumption].
Qed.

(** ** Ad targeting *)

Section Ads.
Import JS Mongo Helpers AdModel AdController.
Context `{Builtins}.

Lemma In_map_VStr (a : string) (l : list string) : In (VStr a) (map VStr l) <-> In a l.
Proof.
  rewrite in_map_iff. split.
  - intros (x & [= ->] & Hx). exact Hx.
  - intros Ha. exists a. split; [reflexivity|exact Ha].
Qed.

Lemma date_le (a b : Z) : Qle_bool (inject_Z a) (inject_Z b) = (a <=? b).
Proof.
  apply eq_true_iff_eq. rewrite Qle_bool_iff, <- Zle_Qle, Z.leb_le. reflexivity.
Qed.

(** What the query object asks of an ad, field by field. *)
Lemma matches_activeAdsQuery (now : Z) (pl pg dv : string) (ad : Ad) :
  matches (activeAdsQuery now pl pg dv) (view ad) = true
  <-> placement ad = pl /\ isActive ad = true /\ in_schedule now ad
      /\ (pg = "all" \/ lets_through pg (targetPages ad))
      /\ (dv = "all" \/ lets_through dv (targetDevices ad)).
Proof.
  unfold matches, activeAdsQuery, in_schedule, lets_through.
  destruct (String.eqb_spec pg "all") as [->|Hpg], (String.eqb_spec dv "all") as [->|Hdv];
    simpl;
    change (view ad "startDate") with (stored_date (startDate ad));
    change (view ad "endDate") with (stored_date (endDate ad));
    destruct (startDate ad) as [| |s], (endDate ad) as [| |e], (isActive ad); simpl;
    rewrite ?date_le, ?andb_true_r, ?orb_false_r, ?andb_false_r, ?length_map;
    rewrite ?andb_true_iff, ?orb_true_iff, ?In_existsb_literal, ?In_map_VStr,
            ?String.eqb_eq, ?Nat.eqb_eq, ?length_zero_iff_nil, ?Z.leb_le;
    intuition congruence.
Qed.

(** The method [isCurrentlyActive] accepts what the query accepts; it also
    accepts a date stored as [null], which the query does not. *)
Lemma in_schedule_active (now : Z) (ad : Ad) :
  isActive ad = true -> in_schedule now ad -> isCurrentlyActive now ad = true.
Proof.
  unfold in_schedule, isCurrentlyActive. intros -> [Hs He].
  destruct (startDate ad) as [| |s], (endDate ad) as [| |e]; simpl;
    rewrite ?andb_true_iff, ?Z.leb_le; tauto.
Qed.

Lemma In_getActiveAdsByPlacement (now : Z) (collection : list Ad) (pl pg dv : string)
    (ad : Ad) :
  In ad (getActiveAdsByPlacement now collection pl pg dv)
  <-> In ad collection /\ placement ad = pl /\ isActive ad = true /\ in_schedule now ad
      /\ (pg = "all" \/ lets_through pg (targetPages ad))
      /\ (dv = "all" \/ lets_through dv (targetDevices ad)).
Proof.
  unfold getActiveAdsByPlacement, sort_by, find.
  rewrite In_sort, filter_In, matches_activeAdsQuery. reflexivity.
Qed.

Lemma length_sort_insert {A : Type} (cmp : A -> A -> Q) (x : A) (l : list A) :
  length (JS.sort_insert cmp x l) = S (length l).
Proof.
  induction l as [|y l IH]; simpl; [reflexivity|].
  destruct (Qlt_le_dec 0 (cmp x y)); simpl; [rewrite IH|]; reflexivity.
Qed.

Lemma length_sort {A : Type} (cmp : A -> A -> Q) (l : list A) :
  length (JS.sort cmp l) = length l.
Proof.
  induction l as [|x l IH]; simpl; [reflexivity|]. rewrite length_sort_insert, IH. reflexivity.
Qed.

Lemma length_filter_le {A : Type} (p : A -> bool) (l : list A) :
  (length (List.filter p l) <= length l)%nat.
Proof. induction l as [|x l IH]; simpl; [lia|]. destruct (p x); simpl; lia. Qed.

(** The handler sorts and cuts what passed the country filter. *)
Lemma selectAds_filteredAds (now : Z) (collection : list Ad) (pl : string)
    (page device country : option string) (limit : value) :
  selectAds now collection pl page device country limit
  = slice (Some 0) (parseInt (limit_or_default limit))
          (JS.sort (fun a b => inject_Z (priority b - priority a))
                   (filteredAds now collection pl page device country)).
Proof. reflexivity. Qed.

Lemma In_filteredAds (now : Z) (collection : list Ad) (pl : string)
    (page device country : option string) (ad : Ad) :
  In ad (filteredAds now collection pl page device country)
  <-> In ad (getActiveAdsByPlacement now collection pl (param_or page "all")
                                     (param_or device "all"))
      /\ match country with
         | Some c => is_empty c = true \/ in_country c ad = true
         | None => True
         end.
Proof.
  unfold filteredAds. destruct country as [c|]; [|tauto].
  destruct (is_empty c); [tauto|]. rewrite filter_In. intuition discriminate.
Qed.

(** Whoever is selected was let through by the query. *)
Lemma selectAds_sound (now : Z) (collection : list Ad) (pl : string)
    (page device country : option string) (limit : value) (ad : Ad) :
  In ad (selectAds now collection pl page device country limit) ->
  In ad (getActiveAdsByPlacement now collection pl (param_or page "all")
                                 (param_or device "all")).
Proof.
  rewrite selectAds_filteredAds. intros Hin. apply In_slice, In_sort in Hin.
  apply In_filteredAds in Hin as [Hin _]. exact Hin.
Qed.

Lemma priority_asks (x y : Ad) :
  (0 < inject_Z (priority y - priority x))%Q <-> priority x < priority y.
Proof. change 0%Q with (inject_Z 0). rewrite <- Zlt_Qlt. lia. Qed.

Lemma filter_all {A : Type} (p : A -> bool) (l : list A) :
  (forall x, In x l -> p x = true) -> List.filter p l = l.
Proof.
  induction l as [|x l IH]; simpl; intros Hp; [reflexivity|].
  rewrite (Hp x) by (left; reflexivity). rewrite IH; [reflexivity|].
  intros y Hy. apply Hp. right. exact Hy.
Qed.

(** The cut leaves room for an ad when at most [n] of the ads at hand
    have its priority or a higher one. *)
Lemma served_when_room (l : list Ad) (ad : Ad) (n : Z) :
  In ad l ->
  Z.of_nat (length (List.filter (fun x => priority ad <=? priority x) l)) <= n ->
  In ad (slice (Some 0) (Some n)
               (JS.sort (fun a b => inject_Z (priority b - priority a)) l)).
Proof.
  intros Hin Hroom.
  set (cmp := fun a b : Ad => inject_Z (priority b - priority a)).
  set (p := fun x : Ad => priority ad <=? priority x) in *.
  assert (Hs : In ad (JS.sort cmp l)) by (apply In_sort; exact Hin).
  destruct (in_split _ _ Hs) as (l1 & l2 & E).
  assert (Hbefore : forall x, In x l1 -> p x = true).
  { intros x Hx. unfold p. apply Z.leb_le. apply Z.nlt_ge. intros Hlt.
    refine (sort_ordered cmp _ _ x ad l _ _).
    - intros u v w. unfold cmp. rewrite !priority_asks. lia.
    - intros u v. unfold cmp. rewrite !priority_asks. lia.
    - rewrite E. apply Precedes_app. right. right.
      split; [exact Hx|left; reflexivity].
    - unfold cmp. apply priority_asks. exact Hlt. }
  assert (Hcount : (length l1 + 1 <= length (List.filter p l))%nat).
  { rewrite <- (length_filter_sort cmp p l), E, List.filter_app, length_app.
    rewrite (filter_all p l1 Hbefore). simpl.
    replace (p ad) with true by (symmetry; unfold p; apply Z.leb_refl).
    simpl. lia. }
  unfold slice, rel_index. replace (0 <? 0) with false by reflexivity.
  destruct (n <? 0) eqn:N; [apply Z.ltb_lt in N; lia|].
  rewrite (Z.min_l 0) by lia. rewrite Z.sub_0_r.
  change (Z.to_nat 0) with 0%nat. rewrite drop_0, E.
  assert (Hlen : length (l1 ++ ad :: l2) = (length l1 + S (length l2))%nat).
  { rewrite length_app. reflexivity. }
  rewrite Hlen.
  remember (Z.to_nat (Z.min n (Z.of_nat (length l1 + S (length l2))))) as k eqn:Ek.
  assert (Hk : (length l1 < k)%nat) by lia.
  rewrite take_app, in_app_iff. right.
  destruct (k - length l1)%nat as [|m] eqn:M; [lia|]. left. reflexivity.
Qed.

(** C5, as the code has it. For a requested page or device other than
    "all", an ad passes the targeting exactly when its target list is
    empty, holds the requested value or holds "all"; when "all" is
    requested -- which is what an absent parameter means -- no targeting
    applies and every ad passes. The model's query returns exactly the
    ads of the placement that are flagged active, whose start date is
    absent or not after now and whose end date is absent or not before
    now, and that pass the two targetings. So for placement "Header" and
    page "homepage" no ad with [targetPages = ["detail"]] is served, and
    every such Header ad with an empty [targetPages] or one with "all"
    is returned by the model's query; the handler serves it, whatever the
    device, the country and the limit, when it passes the device
    targeting and the country filter and at most as many of the ads that
    do have its priority or a higher one as the limit admits. *)
Theorem ad_targeting (now : Z) (collection : list Ad) :
  (forall ad pl pg dv,
      In ad (getActiveAdsByPlacement now collection pl pg dv)
      <-> In ad collection /\ placement ad = pl /\ isActive ad = true
          /\ in_schedule now ad
          /\ (pg = "all" \/ lets_through pg (targetPages ad))
          /\ (dv = "all" \/ lets_through dv (targetDevices ad)))
  /\ (forall ad device country limit,
        targetPages ad = ["detail"] ->
        ~ In ad (selectAds now collection "Header" (Some "homepage") device country limit)
        /\ ~ In ad (getActiveAdsByPlacement now collection "Header" "homepage"
                                            (param_or device "all")))
  /\ (forall served device country limit,
        In served (finalAds now collection "Header" (Some "homepage") device country limit) ->
        exists ad, served = serve ad /\ In ad collection
                   /\ lets_through "homepage" (targetPages ad))
  /\ (forall ad,
        In ad collection -> placement ad = "Header" -> isActive ad = true ->
        in_schedule now ad ->
        targetPages ad = [] \/ In "all" (targetPages ad) ->
        In ad (getActiveAdsByPlacement now collection "Header" "homepage" "all")
        /\ (forall device country limit n,
              param_or device "all" = "all"
              \/ lets_through (param_or device "all") (targetDevices ad) ->
              match country with
              | Some c => is_empty c = true \/ in_country c ad = true
              | None => True
              end ->
              parseInt (limit_or_default limit) = Some n ->
              Z.of_nat (length (List.filter
                                  (fun x => priority ad <=? priority x)
                                  (filteredAds now collection "Header" (Some "homepage")
                                               device country))) <= n ->
              In ad (selectAds now collection "Header" (Some "homepage") device country
                               limit))).
Proof.
  split; [|split; [|split]].
  - intros ad pl pg dv. apply In_getActiveAdsByPlacement.
  - intros ad device country limit Hpages.
    assert (Hout : ~ In ad (getActiveAdsByPlacement now collection "Header" "homepage"
                                                    (param_or device "all"))).
    { intros Hin. apply In_getActiveAdsByPlacement in Hin as (_ & _ & _ & _ & Hpg & _).
      unfold lets_through in Hpg. rewrite Hpages in Hpg. simpl in Hpg.
      intuition discriminate. }
    split; [|exact Hout]. intros Hin. apply Hout.
    exact (selectAds_sound _ _ _ _ _ _ _ _ Hin).
  - intros served device country limit Hin. unfold finalAds in Hin.
    apply in_map_iff in Hin as (ad & <- & Hin). apply selectAds_sound in Hin.
    apply In_getActiveAdsByPlacement in Hin as (Hc & _ & _ & _ & Hpg & _).
    exists ad. split; [reflexivity|]. split; [exact Hc|].
    destruct Hpg as [Hpg|Hpg]; [discriminate Hpg|exact Hpg].
  - intros ad Hc Hpl Hact Hsched Hpages.
    assert (Hpg : "homepage" = "all" \/ lets_through "homepage" (targetPages ad)).
    { right. unfold lets_through. tauto. }
    split.
    { apply In_getActiveAdsByPlacement. repeat split; try assumption.
      - apply Hsched.
      - apply Hsched.
      - left. reflexivity. }
    intros device country limit n Hdv Hcountry Hlimit Hroom.
    rewrite selectAds_filteredAds, Hlimit. apply served_when_room; [|exact Hroom].
    apply In_filteredAds. split; [|exact Hcountry].
    apply In_getActiveAdsByPlacement. repeat split; try assumption.
    + apply Hsched.
    + apply Hsched.
Qed.

End Ads.

(** ** The trending feed *)

Section Feed.
Import JS Mongo Helpers ContentController.
Context `{Builtins}.

Local Abbreviation trendingSpec := [("views", -1); ("rating", -1); ("createdAt", -1)].

(** The store's comparator under the trending specification. *)
Lemma store_asks_iff (x y : Content) :
  (0 < inject_Z (compare_docs trendingSpec (view x) (view y)))%Q
  <-> trails x y.
Proof.
  change 0%Q with (inject_Z 0). rewrite <- Zlt_Qlt. unfold trails.
  change (compare_docs _ (view x) (view y))
    with (match Qcompare (inject_Z (views x)) (inject_Z (views y)) with
          | Eq => match Qcompare (rating x) (rating y) with
                  | Eq => match Qcompare (inject_Z (createdAt x)) (inject_Z (createdAt y)) with
                          | Eq => 0
                          | c => -1 * sign_of c
                          end
                  | c => -1 * sign_of c
                  end
          | c => -1 * sign_of c
          end).
  destruct (Qcompare_spec (inject_Z (views x)) (inject_Z (views y)));
    [destruct (Qcompare_spec (rating x) (rating y));
      [destruct (Qcompare_spec (inject_Z (createdAt x)) (inject_Z (createdAt y)))|..]|..];
    simpl; split; intros; try lia; try lra.
Qed.

(** What the store hands over is in trending order. *)
Lemma store_trending_ordered (x y : Content) (l : list Content) :
  Precedes x y (sort_by view trendingSpec l) -> ~ trails x y.
Proof.
  unfold sort_by. intros P Ht. apply store_asks_iff in Ht.
  refine (sort_ordered _ _ _ x y _ P Ht); cbv beta.
  - intros u v w. rewrite !store_asks_iff. unfold trails. lra.
  - intros u v. rewrite !store_asks_iff. unfold trails. lra.
Qed.

Lemma same_popularity_score (a b : FeedItem) :
  same_popularity a b -> (trendingScore b - trendingScore a == 0)%Q.
Proof.
  intros (Hv & Hr & Hl). unfold trendingScore. rewrite Hv, Hl, Hr. ring.
Qed.

(** The feed for [type = all], [sortBy = trending]: the re-sort of the two
    store results, movies first. *)
Lemma allContent_trending (movies series : list Content) (q : ContentParams) :
  q_type q = "all" -> q_sortBy q = "trending" ->
  exists qm qs,
    allContent movies series q
    = JS.sort (fun a b => (trendingScore b - trendingScore a)%Q)
        (map movieItem (sort_by view trendingSpec (find view qm movies))
         ++ map seriesItem (sort_by view trendingSpec (find view qs series))).
Proof.
  intros Ht Hs. unfold allContent. rewrite Ht, Hs. simpl.
  eexists _, _. reflexivity.
Qed.

Lemma contentType_movieItem (l : list Content) (a : FeedItem) :
  In a (map movieItem l) -> contentType a = "Movie".
Proof. intros Hin. apply in_map_iff in Hin as (m & <- & _). reflexivity. Qed.

Lemma contentType_seriesItem (l : list Content) (a : FeedItem) :
  In a (map seriesItem l) -> contentType a = "Series".
Proof. intros Hin. apply in_map_iff in Hin as (m & <- & _). reflexivity. Qed.

(** Among entries of equal popularity, the re-sort never puts [b] before
    [a] when [a] is a movie and [b] a series, nor when they are of one
    kind and [a] is the more recent. *)
Lemma trending_never_before (movies series : list Content) (q : ContentParams)
    (a b : FeedItem) :
  q_type q = "all" -> q_sortBy q = "trending" ->
  same_popularity a b ->
  (contentType a = contentType b /\ createdAt (content b) < createdAt (content a))
  \/ (contentType a = "Movie" /\ contentType b = "Series") ->
  ~ Precedes b a (allContent movies series q).
Proof.
  intros Ht Hs Hpop Hcase P.
  destruct (allContent_trending movies series q Ht Hs) as (qm & qs & E).
  rewrite E in P. clear E. apply sort_stable in P as [Hgt|P].
  { rewrite (same_popularity_score a b Hpop) in Hgt. exact (Qlt_irrefl _ Hgt). }
  assert (Hsame : forall f (l : list Content),
             (forall c, views (content (f c)) = views c
                        /\ rating (content (f c)) = rating c
                        /\ createdAt (content (f c)) = createdAt c) ->
             createdAt (content b) < createdAt (content a) ->
             Precedes b a (map f (sort_by view trendingSpec l)) ->
             False).
  { intros f l Hf Hrecent P'.
    apply Precedes_map in P' as (b0 & a0 & P' & <- & <-).
    destruct Hpop as (Hv & Hr & _).
    destruct (Hf a0) as (Va & Ra & Ca), (Hf b0) as (Vb & Rb & Cb).
    rewrite Va, Vb in Hv. rewrite Ra, Rb in Hr. rewrite Ca, Cb in Hrecent.
    apply (store_trending_ordered b0 a0 l).
    - exact P'.
    - unfold trails. right. split; [rewrite Hv; reflexivity|]. right.
      split; [symmetry; exact Hr|]. rewrite <- Zlt_Qlt. exact Hrecent. }
  apply Precedes_app in P as [P|[P|[Hb Ha]]].
  - destruct Hcase as [[_ Hrecent]|[_ Hser]].
    + revert P. unfold find. apply (Hsame movieItem); [|exact Hrecent].
      intros c. repeat split.
    + apply Precedes_In in P as [Hb _]. apply contentType_movieItem in Hb. congruence.
  - destruct Hcase as [[_ Hrecent]|[Hmov _]].
    + revert P. unfold find. apply (Hsame seriesItem); [|exact Hrecent].
      intros c. repeat split.
    + apply Precedes_In in P as [_ Ha]. apply contentType_seriesItem in Ha. congruence.
  - apply contentType_movieItem in Hb. apply contentType_seriesItem in Ha.
    destruct Hcase as [[Heq _]|[Hmov _]]; congruence.
Qed.

(** C4, as the code has it. In the combined feed sorted by trending, take
    two entries with equal views, rating and likes. If both are movies or
    both are series, the more recently created one comes first. If one is
    a movie and the other a series, the movie comes first, whichever is
    the more recent. The page cut from the feed keeps that order. *)
Theorem trending_feed_order (movies series : list Content) (q : ContentParams)
    (a b : FeedItem) :
  q_type q = "all" -> q_sortBy q = "trending" ->
  In a (allContent movies series q) -> In b (allContent movies series q) ->
  same_popularity a b ->
  (contentType a = contentType b /\ createdAt (content b) < createdAt (content a))
  \/ (contentType a = "Movie" /\ contentType b = "Series") ->
  Precedes a b (allContent movies series q)
  /\ ~ Precedes b a (allContent movies series q)
  /\ ~ Precedes b a (docs (getContent movies series q)).
Proof.
  intros Ht Hs Ha Hb Hpop Hcase.
  pose proof (trending_never_before movies series q a b Ht Hs Hpop Hcase) as Hnot.
  split; [|split; [exact Hnot|]].
  - destruct (In_Precedes a b _ Ha Hb) as [P|P]; [|exact P|destruct (Hnot P)].
    intros ->. destruct Hcase as [[_ Hlt]|[Hm Hse]]; [lia|congruence].
  - intros P. apply Hnot. unfold getContent in P. simpl in P.
    exact (Precedes_slice _ _ _ _ _ P).
Qed.

End Feed.

(** ** The theorems at sample inputs *)

Section Instances.
Import JS Mongo Helpers Fixtures MoreFixtures.

(** C10 at a filter object with an inactive flag and an ad type. *)
Lemma buildFilterQuery_drops_falsy_witness :
  obj_get "isActive"
    (@buildFilterQuery Sample.builtins [("isActive", VBool false); ("type", VStr "Banner")])
  = None.
Proof.
  apply (proj1 (@buildFilterQuery_drops_falsy Sample.builtins)
               [("isActive", VBool false); ("type", VStr "Banner")] "isActive" (VBool false));
    reflexivity.
Defined.

(** C9 at a document with Action and without Comedy. *)
Lemma buildFilterQuery_genres_any_of_witness :
  matches (H := Sample.builtins)
    (@buildFilterQuery Sample.builtins [("genres", VStr "Action, Comedy")]) action_drama
  = true.
Proof.
  apply (proj2 (@buildFilterQuery_genres_any_of Sample.builtins action_drama
                  [VStr "Action"; VStr "Drama"] eq_refl)).
  left. left. reflexivity.
Defined.

(** C1 at a season and then an episode added to a series without seasons. *)
Lemma counts_agree_after_each_save_witness :
  let run_of := @SeriesController.run Sample.builtins Sample.odm in
  exists db' stored,
    In (add_pilot, true, db') (run_of db_bare [add_season_one; add_pilot])
    /\ db' !! series_id = Some stored
    /\ SeriesModel.numberOfSeasons stored = 1
    /\ SeriesModel.numberOfEpisodes stored = 1
    /\ SeriesController.counts_agree stored.
Proof.
  cbv zeta.
  set (db' := (@SeriesController.exec Sample.builtins Sample.odm add_pilot
                 (@SeriesController.exec Sample.builtins Sample.odm add_season_one
                    db_bare).2).2).
  assert (Hin : In (add_pilot, true, db')
                   (@SeriesController.run Sample.builtins Sample.odm db_bare
                      [add_season_one; add_pilot])).
  { right. left. reflexivity. }
  destruct (@counts_agree_after_each_save Sample.builtins Sample.odm db_bare
              [add_season_one; add_pilot] add_pilot db' Hin) as (stored & Hdb & Hc).
  exists db', stored. split; [exact Hin|]. split; [exact Hdb|].
  assert (E : db' !! series_id = Some stored) by exact Hdb.
  vm_compute in E. injection E as <-.
  split; [reflexivity|]. split; [reflexivity|exact Hc].
Defined.

(** X25 at a series that has its first season, the number sent as a JSON
    number. *)
Lemma addSeason_conflict_witness :
  @SeriesController.addSeason Sample.builtins Sample.odm series_id season_one_body owner
    db_season_one
  = (SeriesController.respond 409 "Season already exists", db_season_one).
Proof.
  apply (proj1 (@addSeason_conflict Sample.builtins Sample.odm series_id season_one_body
                  owner db_season_one 1 eq_refl) series_with_season_one season_one).
  - reflexivity.
  - reflexivity.
  - reflexivity.
  - left. reflexivity.
  - reflexivity.
Defined.

(** X26 at a series that has its season 1 and a request that sends the
    number 1 as a string. *)
Lemma no_conflict_without_number_witness :
  SeriesController.status
    (@SeriesController.addSeason Sample.builtins Sample.odm series_id season_one_as_string
       owner db_season_one).1 <> 409.
Proof.
  apply (proj1 (@no_conflict_without_number Sample.builtins Sample.odm series_id "1"
                  season_one_as_string pilot_as_string owner db_season_one)).
  intros [].
Defined.

(** C7. On the code the claim fails when the number comes as a string:
    the series has its season 1, the request sends the number 1 as the
    string of its digit, and the answer is 201, a second season numbered
    1 is stored and the season count is 2. *)
Lemma addSeason_string_number_duplicate :
  let '(res, db') :=
    @SeriesController.addSeason Sample.builtins Sample.odm series_id season_one_as_string
      owner db_season_one in
  map SeriesModel.seasonNumber (SeriesModel.seasons series_with_season_one) = [1]
  /\ SeriesController.status res = 201
  /\ exists stored,
       db' !! series_id = Some stored
       /\ map SeriesModel.seasonNumber (SeriesModel.seasons stored) = [1; 1]
       /\ SeriesModel.numberOfSeasons stored = 2.
Proof.
  vm_compute. split; [reflexivity|]. split; [reflexivity|].
  eexists. split; [reflexivity|]. split; reflexivity.
Qed.

(** C3 at a series without seasons, where the handler answers 404, and at
    a series whose season 1 holds the episode sent, where it answers
    409. *)
Lemma addEpisode_refusals_witness :
  @SeriesController.addEpisode Sample.builtins Sample.odm series_id "1" pilot_data owner
    db_bare
  = (SeriesController.respond 404 "Season not found", db_bare)
  /\ @SeriesController.addEpisode Sample.builtins Sample.odm series_id "1" pilot_data owner
       db_with_pilot
     = (SeriesController.respond 409 "Episode already exists", db_with_pilot).
Proof.
  split.
  - apply (proj1 (@addEpisode_refusals Sample.builtins Sample.odm series_id "1" pilot_data
                    pilot owner db_bare bare_series eq_refl eq_refl eq_refl)).
    intros s [].
  - apply (proj1 (proj2 (@addEpisode_refusals Sample.builtins Sample.odm series_id "1"
                           pilot_data pilot owner db_with_pilot
                           series_with_pilot eq_refl eq_refl eq_refl))
                 (SeriesModel.push_episode pilot season_one) eq_refl).
    exists pilot, 1%Q. split; [left; reflexivity|]. split; reflexivity.
Defined.

(** C3 as stated fails on the model's [addEpisode]: on a series without
    seasons it succeeds, and the stored series has a season 1 nobody
    added. *)
Lemma model_addEpisode_creates_season :
  SeriesModel.seasons bare_series = []
  /\ exists stored,
       @SeriesModel.addEpisode Sample.odm bare_series 1 pilot = Some stored
       /\ map SeriesModel.seasonNumber (SeriesModel.seasons stored) = [1]
       /\ SeriesModel.numberOfSeasons stored = 1.
Proof. split; [reflexivity|]. eexists. repeat split. Qed.

(** C5 at the three Header ads: the one for every page is served on the
    home page to a phone in Bangladesh, under the default limit. *)
Lemma ad_targeting_witness :
  In ad_everywhere
     (@AdController.selectAds Sample.builtins 5000 [ad_detail; ad_anywhere; ad_everywhere]
        "Header" (Some "homepage") (Some "mobile") (Some "BD") VUndefined).
Proof.
  refine (proj2 (proj2 (proj2 (proj2 (@ad_targeting Sample.builtins 5000
                                        [ad_detail; ad_anywhere; ad_everywhere])))
                  ad_everywhere _ eq_refl eq_refl _ _)
            (Some "mobile") (Some "BD") VUndefined 5 _ _ eq_refl _).
  - right. right. left. reflexivity.
  - split; [simpl; lia|exact I].
  - right. left. reflexivity.
  - right. left. reflexivity.
  - right. reflexivity.
  - vm_compute. discriminate.
Defined.

(** C5 as stated fails in two places. When no page is requested, the ad
    targeted at the detail page is served although its list is not empty
    and holds neither the requested value nor "all". And with a limit of
    one, an untargeted Header ad is left out of the answer for the home
    page. *)
Lemma ad_targeting_all_and_limit :
  (In ad_detail
      (@AdController.selectAds Sample.builtins 5000 [ad_detail] "Header" None None None
         VUndefined)
   /\ ~ lets_through "all" (AdModel.targetPages ad_detail))
  /\ (AdModel.targetPages ad_anywhere = []
      /\ AdModel.isCurrentlyActive 5000 ad_anywhere = true
      /\ ~ In ad_anywhere
           (@AdController.selectAds Sample.builtins 5000 [ad_anywhere; ad_everywhere]
              "Header" (Some "homepage") None None (VStr "1"))).
Proof.
  split; split.
  - left. reflexivity.
  - unfold lets_through. simpl. intros [E|[[E|[]]|[E|[]]]]; discriminate E.
  - reflexivity.
  - split; [reflexivity|]. vm_compute. intros [E|[]]. discriminate E.
Qed.

(** C4 at two movies of equal popularity: the newer one comes first. *)
Lemma trending_feed_order_witness :
  let feed := @ContentController.allContent Sample.builtins [old_movie; new_movie] []
                trending_request in
  Precedes (ContentController.movieItem new_movie) (ContentController.movieItem old_movie)
           feed.
Proof.
  apply (@trending_feed_order Sample.builtins [old_movie; new_movie] [] trending_request
           (ContentController.movieItem new_movie) (ContentController.movieItem old_movie)).
  - reflexivity.
  - reflexivity.
  - vm_compute. left. reflexivity.
  - vm_compute. right. left. reflexivity.
  - repeat split.
  - left. split; [reflexivity|]. simpl. lia.
Defined.

(** C4 as stated fails across the two collections: an older movie stays
    ahead of a newer series of the same views, rating and likes. *)
Lemma trending_older_movie_first :
  let older := ContentController.movieItem old_movie in
  let newer := ContentController.seriesItem new_series in
  same_popularity older newer
  /\ ContentController.createdAt (ContentController.content older)
     < ContentController.createdAt (ContentController.content newer)
  /\ @ContentController.allContent Sample.builtins [old_movie] [new_series] trending_request
     = [older; newer]
  /\ ~ Precedes newer older
       (@ContentController.allContent Sample.builtins [old_movie] [new_series]
          trending_request).
Proof.
  cbv zeta. split; [repeat split|]. split; [reflexivity|].
  assert (E : @ContentController.allContent Sample.builtins [old_movie] [new_series]
                trending_request
              = [ContentController.movieItem old_movie;
                 ContentController.seriesItem new_series]) by (vm_compute; reflexivity).
  split; [exact E|]. rewrite E. intros P.
  apply Precedes_cons in P as [[E' _]|P]; [discriminate E'|].
  apply Precedes_cons in P as [[_ []]|P]. exact (Precedes_nil _ _ P).
Qed.

End Instances.

(* ===================================================================== *)
(** * Part III: further properties of the code *)
(* ===================================================================== *)

(** ** Pagination, in general *)

Section PaginationMore.
Import JS Helpers.
Context `{Builtins}.

Lemma ceil_div_bounds (a b : Z) :
  0 < b -> (ceil_div a b - 1) * b < a <= ceil_div a b * b.
Proof.
  intros Hb. unfold ceil_div.
  pose proof (Z.div_mod (- a) b) as E.
  pose proof (Z.mod_pos_bound (- a) b Hb) as B.
  specialize (E ltac:(lia)). nia.
Qed.

Lemma or_default_nonzero (x : option Z) (d : Z) : d <> 0 -> or_default x d <> 0.
Proof.
  intros Hd. unfold or_default. destruct x as [z|]; [|exact Hd].
  destruct (z =? 0) eqn:E; [exact Hd|]. apply Z.eqb_neq. exact E.
Qed.

(** X1. The page size of the envelope is never zero: a limit that is
    missing, not a number or zero becomes 12. When the page size is
    positive, [totalPages] is the least number of pages that hold [total]
    items. A next page is announced exactly below the last page and is
    the page number plus one; a previous page exactly above the first and
    is the page number minus one. *)
Theorem createPagination_pages {A : Type} (page limit : value) (total : Z) (docs : list A) :
  let p := createPagination page limit total docs in
  Helpers.limit p <> 0
  /\ (parseInt limit = None \/ parseInt limit = Some 0 -> Helpers.limit p = 12)
  /\ (0 < Helpers.limit p ->
        (totalPages p - 1) * Helpers.limit p < total <= totalPages p * Helpers.limit p)
  /\ (hasNextPage p = true <-> Helpers.page p < totalPages p)
  /\ nextPage p = (if hasNextPage p then Some (Helpers.page p + 1) else None)
  /\ (hasPrevPage p = true <-> 1 < Helpers.page p)
  /\ prevPage p = (if hasPrevPage p then Some (Helpers.page p - 1) else None)
  /\ pagingCounter p = (Helpers.page p - 1) * Helpers.limit p + 1.
Proof.
  cbn. repeat split.
  - apply or_default_nonzero. discriminate.
  - intros [-> | ->]; reflexivity.
  - apply ceil_div_bounds. assumption.
  - apply ceil_div_bounds. assumption.
  - apply Z.ltb_lt.
  - apply Z.ltb_lt.
  - apply Z.ltb_lt.
  - apply Z.ltb_lt.
Qed.

End PaginationMore.

(** X1 at 25 items in pages of 10, second page. *)
Lemma createPagination_pages_witness :
  let p := @Helpers.createPagination Sample.builtins nat
             (JS.VStr "2") (JS.VStr "10") 25 [] in
  Helpers.totalPages p = 3 /\ (3 - 1) * 10 < 25 <= 3 * 10.
Proof.
  pose proof (@createPagination_pages Sample.builtins nat
                (JS.VStr "2") (JS.VStr "10") 25 []) as (_ & _ & Hb & _).
  cbv zeta in Hb. split; [reflexivity|]. apply Hb. reflexivity.
Defined.

(** ** Search and filter queries, in general *)

Section QueriesMore.
Import JS Mongo Helpers.
Context `{Builtins}.

Lemma trim_empty (t : string) : is_empty t = true -> trim t = EmptyString.
Proof. destruct t; [reflexivity|discriminate]. Qed.

(** X2. A search term that is not a string, or has fewer than two
    characters once trimmed, gives the empty query, which every document
    matches. Any other term gives a query a document matches exactly when
    one of the given fields -- title and overview when none is given --
    meets the trimmed term as a case-insensitive pattern. *)
Theorem buildSearchQuery_behaviour (searchTerm : value) (fields : list string) :
  ((forall t, searchTerm = VStr t -> Z.of_nat (String.length (trim t)) < 2) ->
     buildSearchQuery searchTerm fields = [])
  /\ (forall t d,
        searchTerm = VStr t -> 2 <= Z.of_nat (String.length (trim t)) ->
        (matches (buildSearchQuery searchTerm fields) d = true
         <-> exists field,
               In field (match fields with [] => ["title"; "overview"] | _ => fields end)
               /\ holds (Regex (trim t) "i") (d field) = true)).
Proof.
  split.
  - intros Hshort. destruct searchTerm as [| | | | |t| |]; try reflexivity.
    specialize (Hshort t eq_refl). unfold buildSearchQuery.
    apply Z.ltb_lt in Hshort. rewrite Hshort, orb_true_r. reflexivity.
  - intros t d -> Hlong. unfold buildSearchQuery.
    assert (Ht : truthy (VStr t) = true).
    { simpl. destruct (is_empty t) eqn:E; [|reflexivity].
      rewrite (trim_empty t E) in Hlong. simpl in Hlong. lia. }
    rewrite Ht. apply Z.ltb_ge in Hlong. rewrite Hlong. simpl negb. cbv iota.
    set (searchFields := if 0 <? Z.of_nat (length fields) then fields
                         else ["title"; "overview"]).
    assert (E : searchFields = match fields with [] => ["title"; "overview"] | _ => fields end)
      by (destruct fields; reflexivity).
    rewrite <- E. clear E. unfold matches. simpl. rewrite andb_true_r, existsb_exists.
    split.
    + intros (q & Hq & Hm). apply in_map_iff in Hq as (field & <- & Hin).
      exists field. split; [exact Hin|]. simpl in Hm. rewrite andb_true_r in Hm. exact Hm.
    + intros (field & Hin & Hm). exists [(field, Field (Regex (trim t) "i"))].
      split; [apply in_map_iff; exists field; split; [reflexivity|exact Hin]|].
      simpl. rewrite andb_true_r. exact Hm.
Qed.

(** What one step of [buildFilterQuery] does, with the guard it passed. *)
Lemma filter_step_set (filters : list (string * value)) (query : Mongo.query) (key : string) :
  filter_step filters query key = query
  \/ exists c v,
       filter_step filters query key = obj_set key c query
       /\ obj_get key filters = Some v /\ truthy v = true
       /\ trim (toString v) <> EmptyString.
Proof.
  destruct (filter_step_cases filters query key) as [E|[c E]]; [left; exact E|].
  unfold filter_step in *.
  destruct (obj_get key filters) as [v|] eqn:G; simpl in *; [|left; reflexivity].
  destruct (truthy v) eqn:T; simpl in *; [|left; reflexivity].
  destruct (String.eqb_spec (trim (toString v)) "") as [Hb|Hb]; simpl in *;
    [left; reflexivity|].
  right. exists c, v. repeat split; assumption.
Qed.

Lemma filter_step_plain (filters : list (string * value)) (query : Mongo.query)
    (key : string) (v : value) :
  obj_get key filters = Some v -> truthy v = true -> trim (toString v) <> EmptyString ->
  ~ In key special_filter_keys ->
  filter_step filters query key = obj_set key (Field (Is v)) query.
Proof.
  intros G T B Hkey. unfold filter_step. rewrite G. simpl. rewrite T.
  apply String.eqb_neq in B. rewrite B. simpl.
  repeat match goal with
         | |- context [if String.eqb key ?k then _ else _] =>
             destruct (String.eqb_spec key k) as [->|?];
               [exfalso; apply Hkey; unfold special_filter_keys; simpl; tauto|]
         end.
  reflexivity.
Qed.

Lemma buildFilterQuery_origin (filters : list (string * value)) (key : string) (c : clause)
    (keys : list string) (query : Mongo.query) :
  obj_get key (fold_left (filter_step filters) keys query) = Some c ->
  obj_get key query = Some c
  \/ exists v, obj_get key filters = Some v /\ truthy v = true
               /\ trim (toString v) <> EmptyString.
Proof.
  revert query. induction keys as [|k keys IH]; intros query Hget; simpl in *.
  - left. exact Hget.
  - destruct (IH _ Hget) as [Hq|Hv]; [|right; exact Hv].
    destruct (filter_step_set filters query k) as [E|(c' & v & E & G & T & B)].
    + rewrite E in Hq. left. exact Hq.
    + rewrite E, obj_get_set in Hq. destruct (String.eqb_spec k key) as [->|Hk].
      * right. exists v. repeat split; assumption.
      * left. exact Hq.
Qed.

Lemma buildFilterQuery_plain (filters : list (string * value)) (key : string) (v : value)
    (keys : list string) (query : Mongo.query) :
  obj_get key filters = Some v -> truthy v = true -> trim (toString v) <> EmptyString ->
  ~ In key special_filter_keys ->
  obj_get key query = Some (Field (Is v)) \/ In key keys ->
  obj_get key (fold_left (filter_step filters) keys query) = Some (Field (Is v)).
Proof.
  intros G T B Hkey. revert query. induction keys as [|k keys IH]; intros query Hq; simpl.
  - destruct Hq as [Hq|[]]. exact Hq.
  - apply IH. destruct (String.eqb_spec k key) as [->|Hk].
    + left. rewrite (filter_step_plain filters query key v G T B Hkey), obj_get_set.
      rewrite String.eqb_refl. reflexivity.
    + destruct Hq as [Hq|[Hq|Hq]]; [|contradiction|right; exact Hq].
      left. destruct (filter_step_cases filters query k) as [->|[c ->]]; [exact Hq|].
      rewrite obj_get_set. apply String.eqb_neq in Hk. rewrite Hk. exact Hq.
Qed.

Lemma obj_get_In_keys {A : Type} (key : string) (v : A) (o : list (string * A)) :
  obj_get key o = Some v -> In key (obj_keys o).
Proof.
  induction o as [|[k w] o IH]; [discriminate|].
  rewrite obj_get_cons. simpl. destruct (String.eqb_spec k key) as [->|Hk].
  - intros _. left. reflexivity.
  - intros G. right. exact (IH G).
Qed.

(** X3. [buildFilterQuery] never invents a constraint: every key of the
    query is a key of the filter object whose value is truthy and not
    blank. And a key it has no rule of its own for passes through: with
    such a value [v], the query asks the field of that name to equal
    [v]. *)
Theorem buildFilterQuery_keys (filters : list (string * value)) (key : string) :
  (forall c,
      obj_get key (buildFilterQuery filters) = Some c ->
      exists v, obj_get key filters = Some v /\ truthy v = true
                /\ trim (toString v) <> EmptyString)
  /\ (forall v,
        obj_get key filters = Some v -> truthy v = true ->
        trim (toString v) <> EmptyString -> ~ In key special_filter_keys ->
        obj_get key (buildFilterQuery filters) = Some (Field (Is v))).
Proof.
  split.
  - intros c Hget. unfold buildFilterQuery in Hget.
    destruct (buildFilterQuery_origin _ _ _ _ _ Hget) as [Hq|Hv]; [discriminate Hq|exact Hv].
  - intros v G T B Hkey. unfold buildFilterQuery.
    apply (buildFilterQuery_plain filters key v); try assumption.
    right. exact (obj_get_In_keys _ _ _ G).
Qed.

End QueriesMore.

(** X2 at the term "  matrix " and the default fields. *)
Lemma buildSearchQuery_behaviour_witness :
  Mongo.matches (H := Sample.builtins)
    (@Helpers.buildSearchQuery (JS.VStr "  matrix ") [])
    (fun path => if String.eqb path "title" then Some (JS.VStr "The Matrix") else None)
  = true.
Proof.
  apply (proj2 (@buildSearchQuery_behaviour Sample.builtins (JS.VStr "  matrix ") [])
           "  matrix " _ eq_refl).
  - vm_compute. discriminate.
  - exists "title". split; [left; reflexivity|reflexivity].
Defined.

(** X3 at the admin listing's network filter. *)
Lemma buildFilterQuery_keys_witness :
  JS.obj_get "network"
    (@Helpers.buildFilterQuery Sample.builtins
       [("isActive", JS.VUndefined); ("network", JS.VStr "AdSense")])
  = Some (Mongo.Field (Mongo.Is (JS.VStr "AdSense"))).
Proof.
  apply (proj2 (@buildFilterQuery_keys Sample.builtins
                  [("isActive", JS.VUndefined); ("network", JS.VStr "AdSense")] "network")).
  - reflexivity.
  - reflexivity.
  - discriminate.
  - unfold special_filter_keys. simpl. intuition discriminate.
Defined.

(** ** Slugs, in general *)

Section SlugsMore.
Import JS Helpers.
Context {runtime : Builtins}.

(** Without a year the slug is the part made from the title. *)
Lemma generateSlug_null (title : string) :
  generateSlug title VNull
  = strip_hyphens (hyphenate (remove_special (trim (toLowerCase title)))).
Proof. reflexivity. Qed.

Ltac each_char c := destruct c as [[] [] [] [] [] [] [] []].

Abbreviation separator := (fun c => is_space c || is_underscore c || is_hyphen c).
Abbreviation kept := (fun c => is_word c || is_space c || is_hyphen c).

Lemma is_hyphen_eq (c : ascii) : is_hyphen c = true -> c = "-"%char.
Proof. each_char c; vm_compute; intros; congruence. Qed.

Lemma slug_char_facts (c : ascii) :
  slug_char c = true ->
  is_space c = false /\ kept c = true /\ (is_hyphen c = false -> separator c = false).
Proof. each_char c; vm_compute; intuition congruence. Qed.

Lemma lower_char_alnum (c : ascii) : is_alnum (lower_char c) = is_alnum c.
Proof. each_char c; reflexivity. Qed.

Lemma lower_char_idem (c : ascii) : lower_char (lower_char c) = lower_char c.
Proof. each_char c; reflexivity. Qed.

Lemma alnum_facts (c : ascii) :
  is_alnum c = true ->
  is_space c = false /\ kept c = true /\ separator c = false /\ is_hyphen c = false.
Proof. each_char c; vm_compute; intuition congruence. Qed.

Lemma not_alnum_kept (c : ascii) : is_alnum c = false -> kept c = true -> separator c = true.
Proof. each_char c; vm_compute; intros; congruence. Qed.

(** *** The shape of the hyphens *)

Lemma hyphenate_no_double (b : bool) (s : string) :
  no_double_hyphen b (replace_runs separator "-" b s) = true.
Proof.
  revert b. induction s as [|c s IH]; intros b; simpl; [reflexivity|].
  destruct (is_space c || is_underscore c || is_hyphen c) eqn:S.
  - destruct b; [apply IH|]. simpl. apply IH.
  - simpl. apply orb_false_elim in S as [_ Hh]. rewrite Hh. apply IH.
Qed.

Lemma no_double_drop_start (b : bool) (s : string) :
  no_double_hyphen b s = true -> no_double_hyphen false (drop_start is_hyphen s) = true.
Proof.
  revert b. induction s as [|c s IH]; intros b; simpl; [reflexivity|].
  destruct (is_hyphen c) eqn:Hh.
  - intros E. apply andb_prop in E as [_ E]. exact (IH _ E).
  - intros E. simpl. rewrite Hh. exact E.
Qed.

Lemma no_double_drop_end (b : bool) (s : string) :
  no_double_hyphen b s = true -> no_double_hyphen b (drop_end is_hyphen s) = true.
Proof.
  revert b. induction s as [|c s IH]; intros b; simpl; [reflexivity|].
  destruct (is_hyphen c) eqn:Hh.
  - intros E. apply andb_prop in E as [Hb E]. specialize (IH _ E).
    destruct (drop_end is_hyphen s) as [|c' r]; [reflexivity|].
    change (no_double_hyphen b (String c (String c' r)))
      with (if is_hyphen c then negb b && no_double_hyphen true (String c' r)
            else no_double_hyphen false (String c' r)).
    rewrite Hh, Hb, IH. reflexivity.
  - intros E. specialize (IH _ E).
    destruct (drop_end is_hyphen s) as [|c' r]; [simpl; rewrite Hh; reflexivity|].
    change (no_double_hyphen b (String c (String c' r)))
      with (if is_hyphen c then negb b && no_double_hyphen true (String c' r)
            else no_double_hyphen false (String c' r)).
    rewrite Hh. exact IH.
Qed.

Lemma drop_start_no_hyphen (s : string) :
  starts_with_hyphen (drop_start is_hyphen s) = false.
Proof.
  induction s as [|c s IH]; simpl; [reflexivity|].
  destruct (is_hyphen c) eqn:Hh; [exact IH|]. simpl. exact Hh.
Qed.

Lemma drop_end_keeps_start (s : string) :
  starts_with_hyphen s = false -> starts_with_hyphen (drop_end is_hyphen s) = false.
Proof.
  destruct s as [|c s]; simpl; [reflexivity|]. intros Hh.
  destruct (drop_end is_hyphen s); [rewrite Hh|]; simpl; exact Hh.
Qed.

Lemma drop_end_no_hyphen (s : string) : ends_with_hyphen (drop_end is_hyphen s) = false.
Proof.
  induction s as [|c s IH]; simpl; [reflexivity|].
  destruct (drop_end is_hyphen s) as [|c' r].
  - destruct (is_hyphen c) eqn:Hh; simpl; [reflexivity|exact Hh].
  - exact IH.
Qed.

Lemma baseSlug_tidy (title : string) : tidy (generateSlug title VNull).
Proof.
  rewrite generateSlug_null. unfold strip_hyphens, hyphenate, tidy. repeat split.
  - apply drop_end_keeps_start, drop_start_no_hyphen.
  - apply drop_end_no_hyphen.
  - apply no_double_drop_end. eapply no_double_drop_start. apply hyphenate_no_double.
Qed.

(** *** A slug is its own slug *)

Lemma drop_start_id (p : ascii -> bool) (s : string) :
  all_chars (fun c => negb (p c)) s = true -> drop_start p s = s.
Proof.
  destruct s as [|c s]; simpl; [reflexivity|].
  intros E. apply andb_prop in E as [Hc _]. apply negb_true_iff in Hc. rewrite Hc.
  reflexivity.
Qed.

Lemma drop_end_id (p : ascii -> bool) (s : string) :
  all_chars (fun c => negb (p c)) s = true -> drop_end p s = s.
Proof.
  induction s as [|c s IH]; simpl; [reflexivity|].
  intros E. apply andb_prop in E as [Hc Hs]. apply negb_true_iff in Hc.
  rewrite (IH Hs), Hc. destruct s; reflexivity.
Qed.

Lemma filter_chars_id (p : ascii -> bool) (s : string) :
  all_chars p s = true -> filter_chars p s = s.
Proof.
  induction s as [|c s IH]; simpl; [reflexivity|].
  intros E. apply andb_prop in E as [Hc Hs]. rewrite Hc, (IH Hs). reflexivity.
Qed.

Lemma hyphenate_id (b : bool) (s : string) :
  all_chars slug_char s = true -> no_double_hyphen b s = true ->
  replace_runs separator "-" b s = s.
Proof.
  revert b. induction s as [|c s IH]; intros b; simpl; [reflexivity|].
  intros E N. apply andb_prop in E as [Hc Hs].
  destruct (slug_char_facts c Hc) as (_ & _ & Hsep).
  destruct (is_hyphen c) eqn:Hh.
  - apply andb_prop in N as [Hb N]. apply negb_true_iff in Hb. subst b.
    rewrite orb_true_r. rewrite (IH _ Hs N), (is_hyphen_eq c Hh). reflexivity.
  - rewrite (Hsep eq_refl). rewrite (IH _ Hs N). reflexivity.
Qed.

Lemma strip_start_id (s : string) :
  starts_with_hyphen s = false -> drop_start is_hyphen s = s.
Proof. destruct s as [|c s]; simpl; [reflexivity|]. intros ->. reflexivity. Qed.

Lemma strip_end_id (s : string) : ends_with_hyphen s = false -> drop_end is_hyphen s = s.
Proof.
  induction s as [|c s IH]; [reflexivity|].
  destruct s as [|c' s].
  - simpl. intros ->. reflexivity.
  - intros E. change (ends_with_hyphen (String c' s) = false) in E.
    change (drop_end is_hyphen (String c (String c' s)))
      with (match drop_end is_hyphen (String c' s) with
            | EmptyString => if is_hyphen c then EmptyString else String c EmptyString
            | r => String c r
            end).
    rewrite (IH E). reflexivity.
Qed.

(** A string of slug characters with tidy hyphens is the slug of itself. *)
Lemma generateSlug_fixpoint (s : string) :
  all_chars slug_char s = true -> tidy s -> generateSlug s VNull = s.
Proof.
  intros Hc (Hs & He & Hn). rewrite generateSlug_null.
  rewrite (toLowerCase_slug_chars s Hc).
  assert (Hnospace : all_chars (fun c => negb (is_space c)) s = true).
  { revert Hc. apply all_chars_weaken. intros c H.
    destruct (slug_char_facts c H) as (-> & _). reflexivity. }
  unfold trim. rewrite (drop_start_id _ _ Hnospace), (drop_end_id _ _ Hnospace).
  unfold remove_special. rewrite filter_chars_id.
  2:{ revert Hc. apply all_chars_weaken. intros c H.
      destruct (slug_char_facts c H) as (_ & Hk & _). exact Hk. }
  unfold hyphenate. rewrite (hyphenate_id false s Hc Hn).
  unfold strip_hyphens. rewrite (strip_start_id s Hs). exact (strip_end_id s He).
Qed.

(** X4. The slug of a title alone has no hyphen at either end and no two
    hyphens in a row; and making a slug of a slug changes nothing. *)
Theorem generateSlug_tidy_and_stable (title : string) :
  tidy (generateSlug title VUndefined)
  /\ generateSlug (generateSlug title VUndefined) VUndefined = generateSlug title VUndefined.
Proof.
  change (generateSlug title VUndefined) with (generateSlug title VNull).
  change (generateSlug (generateSlug title VNull) VUndefined)
    with (generateSlug (generateSlug title VNull) VNull).
  split; [apply baseSlug_tidy|].
  apply generateSlug_fixpoint; [|apply baseSlug_tidy].
  rewrite generateSlug_chars. reflexivity.
Qed.

(** *** Titles without letters or digits *)

Lemma any_chars_nonempty (p : ascii -> bool) (s : string) :
  any_chars p s = true -> s <> EmptyString.
Proof. destruct s; [discriminate|intros _; discriminate]. Qed.

Lemma any_chars_not_all (p : ascii -> bool) (s : string) :
  any_chars p s = negb (all_chars (fun c => negb (p c)) s).
Proof.
  induction s as [|c s IH]; simpl; [reflexivity|].
  rewrite IH, negb_andb, negb_involutive. reflexivity.
Qed.

Lemma any_chars_map (p q : ascii -> bool) (f : ascii -> ascii) (s : string) :
  (forall c, p c = true -> q (f c) = true) ->
  any_chars p s = true -> any_chars q (map_chars f s) = true.
Proof.
  intros Hf. induction s as [|c s IH]; simpl; [discriminate|].
  intros E. apply orb_prop in E as [Hc|Hs]; [rewrite (Hf _ Hc)|rewrite (IH Hs)];
    [reflexivity|apply orb_true_r].
Qed.

Lemma any_chars_drop_start (p q : ascii -> bool) (s : string) :
  (forall c, p c = true -> q c = false) ->
  any_chars p s = true -> any_chars p (drop_start q s) = true.
Proof.
  intros Hpq. induction s as [|c s IH]; simpl; [discriminate|].
  intros E. destruct (q c) eqn:Q; [|exact E].
  apply orb_prop in E as [Hc|Hs]; [rewrite (Hpq _ Hc) in Q; discriminate|exact (IH Hs)].
Qed.

Lemma any_chars_drop_end (p q : ascii -> bool) (s : string) :
  (forall c, p c = true -> q c = false) ->
  any_chars p s = true -> any_chars p (drop_end q s) = true.
Proof.
  intros Hpq. induction s as [|c s IH]; simpl; [discriminate|].
  intros E. destruct (drop_end q s) as [|c' r] eqn:D.
  - apply orb_prop in E as [Hc|Hs]; [|discriminate (IH Hs)].
    rewrite (Hpq _ Hc). simpl. rewrite Hc. reflexivity.
  - change (any_chars p (String c (String c' r)))
      with (p c || any_chars p (String c' r)).
    apply orb_prop in E as [Hc|Hs]; [rewrite Hc; reflexivity|].
    rewrite (IH Hs). apply orb_true_r.
Qed.

Lemma any_chars_filter (p q : ascii -> bool) (s : string) :
  (forall c, p c = true -> q c = true) ->
  any_chars p s = true -> any_chars p (filter_chars q s) = true.
Proof.
  intros Hpq. induction s as [|c s IH]; simpl; [discriminate|].
  intros E. apply orb_prop in E as [Hc|Hs].
  - rewrite (Hpq _ Hc). simpl. rewrite Hc. reflexivity.
  - destruct (q c); simpl; rewrite (IH Hs); [apply orb_true_r|reflexivity].
Qed.

Lemma any_chars_replace_runs (p sep : ascii -> bool) (r : ascii) (b : bool) (s : string) :
  (forall c, p c = true -> sep c = false) ->
  any_chars p s = true -> any_chars p (replace_runs sep r b s) = true.
Proof.
  intros Hp. revert b. induction s as [|c s IH]; intros b; simpl; [discriminate|].
  intros E. apply orb_prop in E as [Hc|Hs].
  - rewrite (Hp _ Hc). simpl. rewrite Hc. reflexivity.
  - destruct (sep c); [destruct b|]; simpl; rewrite (IH _ Hs);
      try reflexivity; apply orb_true_r.
Qed.

Lemma replace_runs_all (sep : ascii -> bool) (r : ascii) (s : string) :
  all_chars sep s = true ->
  replace_runs sep r true s = EmptyString
  /\ (replace_runs sep r false s = EmptyString
      \/ replace_runs sep r false s = String r EmptyString).
Proof.
  induction s as [|c s IH]; simpl; [intros _; split; [|left]; reflexivity|].
  intros E. apply andb_prop in E as [Hc Hs]. rewrite Hc.
  destruct (IH Hs) as [E1 _]. rewrite E1. split; [reflexivity|right; reflexivity].
Qed.

Lemma baseSlug_empty_iff (title : string) :
  generateSlug title VNull = EmptyString
  <-> all_chars (fun c => negb (is_alnum c)) title = true.
Proof.
  split.
  - intros E. destruct (all_chars _ title) eqn:Hall; [reflexivity|exfalso].
    assert (Hany : any_chars is_alnum title = true)
      by (rewrite any_chars_not_all, Hall; reflexivity).
    revert E. apply (any_chars_nonempty is_alnum). rewrite generateSlug_null.
    unfold strip_hyphens, hyphenate, remove_special, trim, toLowerCase.
    apply any_chars_drop_end; [intros c Hc; apply (alnum_facts c Hc)|].
    apply any_chars_drop_start; [intros c Hc; apply (alnum_facts c Hc)|].
    apply any_chars_replace_runs;
      [intros c Hc; exact (proj1 (proj2 (proj2 (alnum_facts c Hc))))|].
    apply any_chars_filter; [intros c Hc; exact (proj1 (proj2 (alnum_facts c Hc)))|].
    apply any_chars_drop_end; [intros c Hc; exact (proj1 (alnum_facts c Hc))|].
    apply any_chars_drop_start; [intros c Hc; exact (proj1 (alnum_facts c Hc))|].
    revert Hany. apply any_chars_map. intros c Hc. rewrite lower_char_alnum. exact Hc.
  - intros Hall. rewrite generateSlug_null.
    unfold strip_hyphens, hyphenate, remove_special.
    assert (Hlow : all_chars (fun c => negb (is_alnum c)) (trim (toLowerCase title)) = true).
    { unfold trim, toLowerCase. apply all_chars_drop_end, all_chars_drop_start.
      clear -Hall. induction title as [|c s IH]; simpl in *; [reflexivity|].
      apply andb_prop in Hall as [Hc Hs]. rewrite lower_char_alnum, Hc, (IH Hs).
      reflexivity. }
    assert (Hsep : all_chars separator
                     (filter_chars kept (trim (toLowerCase title))) = true).
    { apply (all_chars_filter _ kept) in Hlow. revert Hlow. apply all_chars_weaken.
      intros c Hc. apply andb_prop in Hc as [Ha Hk]. apply negb_true_iff in Ha.
      exact (not_alnum_kept c Ha Hk). }
    destruct (replace_runs_all separator "-" _ Hsep) as [_ [-> | ->]]; reflexivity.
Qed.

(** X5. For a title of Latin-1 characters, which is what a string is
    here: the title alone gives the empty slug exactly when it has no
    letter a-z or A-Z and no digit. With such a title a truthy year gives
    a hyphen followed by the year as the language prints it and nothing
    before it; for an integer year other than zero printed in plain
    decimal digits that is a hyphen and the digits of the year. *)
Theorem generateSlug_without_letters (title : string) :
  (generateSlug title VNull = EmptyString
   <-> all_chars (fun c => negb (is_alnum c)) title = true)
  /\ (forall year, all_chars (fun c => negb (is_alnum c)) title = true ->
        truthy year = true ->
        generateSlug title year = "-" +:+ toString year)
  /\ (forall y, all_chars (fun c => negb (is_alnum c)) title = true -> y <> 0 ->
        Number_toString (inject_Z y) = Z_toString y ->
        generateSlug title (VNum (inject_Z y)) = "-" +:+ Z_toString y).
Proof.
  assert (Hyear : forall year, all_chars (fun c => negb (is_alnum c)) title = true ->
                    truthy year = true ->
                    generateSlug title year = "-" +:+ toString year).
  { intros year Hall Hy. apply baseSlug_empty_iff in Hall.
    rewrite generateSlug_null in Hall. unfold generateSlug. rewrite Hy, Hall.
    reflexivity. }
  split; [apply baseSlug_empty_iff|]. split; [exact Hyear|].
  intros y Hall Hy Hprint. rewrite (Hyear _ Hall).
  - simpl. rewrite Hprint. reflexivity.
  - simpl. apply negb_true_iff. destruct (Qeq_bool (inject_Z y) 0) eqn:E; [|reflexivity].
    apply Qeq_bool_iff in E. unfold Qeq in E. simpl in E. lia.
Qed.

End SlugsMore.

(** X5 at a title of punctuation. *)
Lemma generateSlug_without_letters_witness :
  @Helpers.generateSlug Sample.builtins "?! ... _" (JS.VNum 2024) = "-2024".
Proof.
  apply (proj2 (proj2 (@generateSlug_without_letters Sample.builtins "?! ... _")) 2024);
    [reflexivity|lia|reflexivity].
Defined.

(** ** Search-engine data *)

Section Seo.
Import JS HelpersSeo.

Lemma length_append (a b : string) :
  String.length (a +:+ b) = (String.length a + String.length b)%nat.
Proof. induction a as [|c a IH]; [reflexivity|]. rewrite append_cons. simpl. rewrite IH. reflexivity. Qed.

Lemma length_substring_0 (n : nat) (s : string) :
  (n <= String.length s)%nat -> String.length (String.substring 0 n s) = n.
Proof.
  revert s. induction n as [|n IH]; intros s Hn.
  - destruct s; reflexivity.
  - destruct s as [|c s]; simpl in *; [lia|]. rewrite IH; [reflexivity|lia].
Qed.

Lemma toLowerCase_idem (s : string) : toLowerCase (toLowerCase s) = toLowerCase s.
Proof.
  unfold toLowerCase. induction s as [|c s IH]; simpl; [reflexivity|].
  rewrite lower_char_idem, IH. reflexivity.
Qed.

(** X6. The description for search engines never exceeds 150 characters:
    an overview of at most 150 characters is taken as it is, a longer one
    is cut to its first 147 characters followed by three dots, which makes
    150. The keywords are all in lower case, and there are five more of
    them than the content has genres. *)
Theorem generateSEOData_bounds (content : SeoSource) :
  let seo := generateSEOData content in
  (String.length (seoDescription seo) <= 150)%nat
  /\ ((String.length (overview content) <= 150)%nat -> seoDescription seo = overview content)
  /\ ((150 < String.length (overview content))%nat ->
        String.length (seoDescription seo) = 150%nat
        /\ ends_with (seoDescription seo) "...")
  /\ length (keywords seo) = (length (genres content) + 5)%nat
  /\ Forall (fun k => toLowerCase k = k) (keywords seo).
Proof.
  cbv zeta. unfold generateSEOData. simpl.
  destruct (150 <? Z.of_nat (String.length (overview content))) eqn:E.
  - apply Z.ltb_lt in E.
    assert (L : String.length (String.substring 0 147 (overview content) +:+ "...") = 150%nat).
    { rewrite length_append, length_substring_0; [reflexivity|lia]. }
    split; [lia|]. split; [lia|]. split; [intros _; split; [exact L|eexists; reflexivity]|].
    split; [rewrite length_app, length_map; simpl; lia|].
    apply Forall_cons. split; [apply toLowerCase_idem|].
    apply Forall_app. split.
    + apply List.Forall_forall. intros k Hk. apply in_map_iff in Hk as (g & <- & _).
      apply toLowerCase_idem.
    + repeat (apply Forall_cons; split; [try reflexivity; apply toLowerCase_idem|]).
      apply Forall_nil. exact I.
  - apply Z.ltb_ge in E.
    split; [lia|]. split; [reflexivity|]. split; [lia|].
    split; [rewrite length_app, length_map; simpl; lia|].
    apply Forall_cons. split; [apply toLowerCase_idem|].
    apply Forall_app. split.
    + apply List.Forall_forall. intros k Hk. apply in_map_iff in Hk as (g & <- & _).
      apply toLowerCase_idem.
    + repeat (apply Forall_cons; split; [try reflexivity; apply toLowerCase_idem|]).
      apply Forall_nil. exact I.
Qed.

End Seo.

(** ** Seasons and episodes, in general *)

Section SeriesMore.
Import JS SeriesModel SeriesController.
Context `{Builtins} `{Odm}.

(** *** What a success means *)

Lemma addSeason_success (id : string) (body : SeasonBody) (user : User) (db : Db) :
  status (addSeason id body user db).1 = 201 ->
  exists series stored season,
    castable_id id = true
    /\ db !! id = Some series
    /\ denied user series = false
    /\ (forall s, In s (seasons series) ->
          strict_eq_num (seasonNumber s) (body_seasonNumber body) = false)
    /\ (addSeason id body user db).2 = <[id := stored]> db
    /\ counts_agree stored
    /\ seasons stored = seasons series ++ [season]
    /\ cast_number (body_seasonNumber body) = Some (seasonNumber season)
    /\ name season = str_or (body_name body) (season_name (body_seasonNumber body))
    /\ episodes season = [].
Proof.
  unfold addSeason. destruct (castable_id id); [|discriminate]. simpl.
  destruct (db !! id) as [series|]; [|discriminate].
  destruct (denied user series) eqn:D; [discriminate|].
  destruct (List.find _ (seasons series)) eqn:F; [discriminate|].
  destruct (cast_number (body_seasonNumber body)) as [n|] eqn:C; [|discriminate].
  destruct (save true false _) as [stored|] eqn:S; [|discriminate].
  intros _. eexists series, stored, _. split; [reflexivity|]. split; [reflexivity|].
  split; [exact D|]. split.
  { intros s Hin. exact (find_none _ _ F s Hin). }
  split; [reflexivity|]. split; [exact (save_counts _ _ _ _ S)|].
  rewrite (save_seasons _ _ _ _ S). repeat split.
Qed.

Lemma addEpisode_success (id sn : string) (e : EpisodeData) (user : User) (db : Db) :
  status (addEpisode id sn e user db).1 = 201 ->
  exists series stored season episode,
    castable_id id = true
    /\ db !! id = Some series
    /\ denied user series = false
    /\ List.find (fun s => loose_eq_num (seasonNumber s) (VStr sn)) (seasons series)
       = Some season
    /\ List.find (fun e0 => strict_eq_num (episodeNumber e0) (data_episodeNumber e))
                 (episodes season) = None
    /\ cast_episode e = Some episode
    /\ (addEpisode id sn e user db).2 = <[id := stored]> db
    /\ counts_agree stored
    /\ seasons stored
       = update_first (fun s => loose_eq_num (seasonNumber s) (VStr sn))
                      (push_episode episode) (seasons series).
Proof.
  unfold addEpisode. destruct (castable_id id); [|discriminate]. simpl.
  destruct (db !! id) as [series|]; [|discriminate].
  destruct (denied user series) eqn:D; [discriminate|].
  destruct (List.find _ (seasons series)) as [season|] eqn:F; [|discriminate].
  destruct (List.find _ (episodes season)) eqn:G; [discriminate|].
  destruct (cast_episode e) as [episode|] eqn:C; [|discriminate].
  destruct (save true false _) as [stored|] eqn:S; [|discriminate].
  intros _. exists series, stored, season, episode.
  split; [reflexivity|]. split; [reflexivity|]. split; [exact D|]. split; [exact F|].
  split; [exact G|]. split; [reflexivity|].
  split; [reflexivity|]. split; [exact (save_counts _ _ _ _ S)|].
  exact (save_seasons _ _ _ _ S).
Qed.

(** *** No write without success *)

Lemma addSeason_frame (id : string) (body : SeasonBody) (user : User) (db : Db) :
  (status (addSeason id body user db).1 = 201 \/ (addSeason id body user db).2 = db)
  /\ (forall other, other <> id -> (addSeason id body user db).2 !! other = db !! other)
  /\ (castable_id id = false -> status (addSeason id body user db).1 = 500)
  /\ (castable_id id = true -> db !! id = None ->
        status (addSeason id body user db).1 = 404)
  /\ (forall series, castable_id id = true -> db !! id = Some series ->
        denied user series = true -> status (addSeason id body user db).1 = 403).
Proof.
  unfold addSeason. destruct (castable_id id); simpl;
    [|repeat split; auto; discriminate].
  destruct (db !! id) as [series|] eqn:Hdb;
    [|repeat split; auto; try discriminate].
  destruct (denied user series) eqn:D;
    [repeat split; auto; try discriminate|].
  destruct (List.find _ (seasons series));
    [repeat split; auto; try discriminate; intros ? _ [= <-] ?; congruence|].
  destruct (cast_number (body_seasonNumber body));
    [|repeat split; auto; try discriminate; intros ? _ [= <-] ?; congruence].
  destruct (save true false _) as [stored|];
    [|repeat split; auto; try discriminate; intros ? _ [= <-] ?; congruence].
  simpl. repeat split; auto; try discriminate.
  - intros other Hne. apply lookup_insert_ne. congruence.
  - intros ? _ [= <-] ?. congruence.
Qed.

Lemma addEpisode_frame (id sn : string) (e : EpisodeData) (user : User) (db : Db) :
  (status (addEpisode id sn e user db).1 = 201 \/ (addEpisode id sn e user db).2 = db)
  /\ (forall other, other <> id -> (addEpisode id sn e user db).2 !! other = db !! other)
  /\ (castable_id id = false -> status (addEpisode id sn e user db).1 = 500)
  /\ (castable_id id = true -> db !! id = None ->
        status (addEpisode id sn e user db).1 = 404)
  /\ (forall series, castable_id id = true -> db !! id = Some series ->
        denied user series = true -> status (addEpisode id sn e user db).1 = 403).
Proof.
  unfold addEpisode. destruct (castable_id id); simpl;
    [|repeat split; auto; discriminate].
  destruct (db !! id) as [series|] eqn:Hdb;
    [|repeat split; auto; try discriminate].
  destruct (denied user series) eqn:D;
    [repeat split; auto; try discriminate|].
  destruct (List.find _ (seasons series)) as [season|];
    [|repeat split; auto; try discriminate; intros ? _ [= <-] ?; congruence].
  destruct (List.find _ (episodes season));
    [repeat split; auto; try discriminate; intros ? _ [= <-] ?; congruence|].
  destruct (cast_episode e);
    [|repeat split; auto; try discriminate; intros ? _ [= <-] ?; congruence].
  destruct (save true false _) as [stored|];
    [|repeat split; auto; try discriminate; intros ? _ [= <-] ?; congruence].
  simpl. repeat split; auto; try discriminate.
  - intros other Hne. apply lookup_insert_ne. congruence.
  - intros ? _ [= <-] ?. congruence.
Qed.

(** X7. Neither handler writes unless it answers 201, and then it writes
    the addressed document only: every other document of the collection
    is what it was. An id the store cannot cast is answered 500, an id
    that casts and is not in the collection 404, and a caller who is
    neither an admin nor the one who added the series 403. *)
Theorem handlers_write_on_success_only (id sn : string) (body : SeasonBody)
    (e : EpisodeData) (user : User) (db : Db) :
  let season_result := addSeason id body user db in
  let episode_result := addEpisode id sn e user db in
  (status season_result.1 = 201 \/ season_result.2 = db)
  /\ (status episode_result.1 = 201 \/ episode_result.2 = db)
  /\ (forall other, other <> id ->
        season_result.2 !! other = db !! other /\ episode_result.2 !! other = db !! other)
  /\ (castable_id id = false ->
        status season_result.1 = 500 /\ status episode_result.1 = 500)
  /\ (castable_id id = true -> db !! id = None ->
        status season_result.1 = 404 /\ status episode_result.1 = 404)
  /\ (forall series, castable_id id = true -> db !! id = Some series ->
        denied user series = true ->
        status season_result.1 = 403 /\ status episode_result.1 = 403).
Proof.
  cbv zeta.
  destruct (addSeason_frame id body user db) as (S1 & S2 & S3 & S4 & S5).
  destruct (addEpisode_frame id sn e user db) as (E1 & E2 & E3 & E4 & E5).
  repeat split; auto.
  - apply (S5 series); assumption.
  - apply (E5 series); assumption.
Qed.

(** *** The counters after a success *)

Lemma sum_list_append (l k : list nat) : sum_list (l ++ k) = (sum_list l + sum_list k)%nat.
Proof. induction l as [|x l IH]; simpl; lia. Qed.

Lemma episode_sum_update_first (p : Season -> bool) (e : Episode) (l : list Season)
    (season : Season) :
  List.find p l = Some season ->
  sum_list (map (fun s => length (episodes s)) (update_first p (push_episode e) l))
  = S (sum_list (map (fun s => length (episodes s)) l)).
Proof.
  induction l as [|x l IH]; simpl; [discriminate|].
  destruct (p x).
  - intros _. simpl. rewrite length_app. simpl. lia.
  - intros F. simpl. rewrite (IH F). lia.
Qed.

Lemma length_update_first {A : Type} (p : A -> bool) (f : A -> A) (l : list A) :
  length (update_first p f l) = length l.
Proof.
  induction l as [|x l IH]; simpl; [reflexivity|].
  destruct (p x); simpl; [reflexivity|rewrite IH; reflexivity].
Qed.

(** X8. A successful [addSeason] appends one season without episodes,
    whose number is the cast of the value in the body: the stored season
    count is one more than the series had seasons and the stored episode
    count is the number of episodes it had. The new season bears the name
    of the request or, when that is missing or empty, the name made from
    the value in the body as it came: "Specials" for the number 0, and
    "Season" followed by the value otherwise, so "Season 0" for the
    string "0". A successful [addEpisode] leaves the number of seasons
    and stores one episode more. Both hold whatever the stored counts
    were before. *)
Theorem counters_after_success (id sn : string) (body : SeasonBody) (e : EpisodeData)
    (user : User) (db : Db) :
  (status (addSeason id body user db).1 = 201 ->
     exists series stored season,
       db !! id = Some series
       /\ (addSeason id body user db).2 !! id = Some stored
       /\ seasons stored = seasons series ++ [season]
       /\ cast_number (body_seasonNumber body) = Some (seasonNumber season)
       /\ episodes season = []
       /\ name season
          = match body_name body with
            | Some n => if is_empty n then season_name (body_seasonNumber body) else n
            | None => season_name (body_seasonNumber body)
            end
       /\ numberOfSeasons stored = Z.of_nat (length (seasons series)) + 1
       /\ numberOfEpisodes stored = episode_total series)
  /\ season_name (VNum 0) = "Specials"
  /\ (forall s, season_name (VStr s) = "Season " +:+ s)
  /\ (forall q, ~ (q == 0)%Q -> season_name (VNum q) = "Season " +:+ Number_toString q)
  /\ (status (addEpisode id sn e user db).1 = 201 ->
        exists series stored,
          db !! id = Some series
          /\ (addEpisode id sn e user db).2 !! id = Some stored
          /\ map seasonNumber (seasons stored) = map seasonNumber (seasons series)
          /\ numberOfSeasons stored = Z.of_nat (length (seasons series))
          /\ numberOfEpisodes stored = episode_total series + 1).
Proof.
  split; [|split; [|split; [|split]]].
  - intros H201.
    destruct (addSeason_success id body user db H201)
      as (series & stored & season & _ & Hdb & _ & _ & Hdb' & (Hne & Hns) & Hs & Hcast
          & Hname & Hep).
    exists series, stored, season. split; [exact Hdb|].
    split; [rewrite Hdb'; apply lookup_insert_eq|].
    split; [exact Hs|]. split; [exact Hcast|]. split; [exact Hep|].
    split; [exact Hname|]. unfold episode_total.
    rewrite Hns, Hne, Hs, length_app, map_app, sum_list_append. simpl.
    rewrite Hep. simpl. split; lia.
  - reflexivity.
  - intros s. reflexivity.
  - intros q Hq. unfold season_name, strict_eq_num.
    destruct (Qeq_bool (inject_Z 0) q) eqn:E; [|reflexivity].
    apply Qeq_bool_iff in E. exfalso. apply Hq. rewrite <- E. reflexivity.
  - intros H201.
    destruct (addEpisode_success id sn e user db H201)
      as (series & stored & season & episode & _ & Hdb & _ & F & _ & _ & Hdb' & (Hne & Hns)
          & Hs).
    exists series, stored. split; [exact Hdb|].
    split; [rewrite Hdb'; apply lookup_insert_eq|].
    split.
    { rewrite Hs. clear. induction (seasons series) as [|x l IH]; simpl; [reflexivity|].
      destruct (loose_eq_num _ _); simpl; [reflexivity|rewrite IH; reflexivity]. }
    unfold episode_total.
    rewrite Hns, Hne, Hs, length_update_first, (episode_sum_update_first _ _ _ _ F).
    split; lia.
Qed.

End SeriesMore.

(** ** Numbering, and finding an episode again *)

Section Numbering.
Import JS SeriesModel SeriesController.
Context `{Builtins} `{Odm}.

Lemma Forall_update_first {A : Type} (P : A -> Prop) (p : A -> bool) (f : A -> A)
    (l : list A) (y : A) :
  List.find p l = Some y -> P (f y) -> Forall P l -> Forall P (update_first p f l).
Proof.
  intros F Py HP. induction HP as [|x l Px HP IH]; simpl in *; [discriminate|].
  destruct (p x).
  - injection F as ->. constructor; assumption.
  - constructor; [assumption|apply IH; assumption].
Qed.

Lemma map_update_first {A B : Type} (g : A -> B) (p : A -> bool) (f : A -> A) (l : list A) :
  (forall x, g (f x) = g x) -> map g (update_first p f l) = map g l.
Proof.
  intros Hg. induction l as [|x l IH]; simpl; [reflexivity|].
  destruct (p x); simpl; [rewrite Hg|rewrite IH]; reflexivity.
Qed.

Lemma find_update_first_same {A : Type} (p : A -> bool) (f : A -> A) (l : list A) :
  (forall x, p (f x) = p x) ->
  List.find p (update_first p f l) = option_map f (List.find p l).
Proof.
  intros Hp. induction l as [|x l IH]; simpl; [reflexivity|].
  destruct (p x) eqn:E; simpl.
  - rewrite Hp, E. reflexivity.
  - rewrite E. exact IH.
Qed.

Lemma find_update_first_other {A : Type} (p q : A -> bool) (f : A -> A) (l : list A) :
  (forall x, q (f x) = q x) -> (forall x, q x = true -> p x = false) ->
  List.find q (update_first p f l) = List.find q l.
Proof.
  intros Hq Hpq. induction l as [|x l IH]; simpl; [reflexivity|].
  destruct (p x) eqn:E; simpl.
  - rewrite Hq. destruct (q x) eqn:Q; [|reflexivity].
    rewrite (Hpq x Q) in E. discriminate E.
  - rewrite IH. reflexivity.
Qed.

Lemma find_ext {A : Type} (p q : A -> bool) (l : list A) :
  (forall x, p x = q x) -> List.find p l = List.find q l.
Proof.
  intros E. induction l as [|x l IH]; simpl; [reflexivity|].
  rewrite E, IH. reflexivity.
Qed.

Lemma find_app_found {A : Type} (p : A -> bool) (l k : list A) (y : A) :
  List.find p l = Some y -> List.find p (l ++ k) = Some y.
Proof.
  induction l as [|x l IH]; simpl; [discriminate|].
  destruct (p x); [trivial|exact IH].
Qed.

Lemma find_app_missing {A : Type} (p : A -> bool) (l k : list A) :
  List.find p l = None -> List.find p (l ++ k) = List.find p k.
Proof.
  induction l as [|x l IH]; simpl; [reflexivity|].
  destruct (p x); [discriminate|exact IH].
Qed.

Lemma find_none_not_in (l : list Episode) (n : Z) :
  List.find (fun e => episodeNumber e =? n) l = None -> ~ In n (map episodeNumber l).
Proof.
  intros F Hin. apply List.in_map_iff in Hin as (e & <- & Hin).
  apply (find_none _ _ F) in Hin. simpl in Hin. rewrite Z.eqb_refl in Hin. discriminate Hin.
Qed.

Lemma NoDup_app_one {A : Type} (l : list A) (x : A) :
  NoDup l -> ~ In x l -> NoDup (l ++ [x]).
Proof.
  rewrite !NoDup_ListNoDup.
  intros Hl Hx. induction Hl as [|y l Hy Hl IH]; simpl.
  - constructor; [intros []|constructor].
  - constructor.
    + rewrite List.in_app_iff. intros [Hin|[->|[]]]; [exact (Hy Hin)|].
      apply Hx. left. reflexivity.
    + apply IH. intros Hin. apply Hx. right. exact Hin.
Qed.

(** For a string that reads as the number of a season, [==] against the
    string and [===] against that number choose the same seasons. *)
Lemma loose_strict (sn : string) (n : Z) :
  loose_eq_num n (VStr sn) = true ->
  forall m, loose_eq_num m (VStr sn) = (m =? n).
Proof.
  unfold loose_eq_num. destruct (ToNumber (VStr sn)) as [q|]; [|discriminate].
  intros Hn m. apply Qeq_bool_iff in Hn.
  destruct (Z.eqb_spec m n) as [->|Hne].
  - apply Qeq_bool_iff. exact Hn.
  - destruct (Qeq_bool (inject_Z m) q) eqn:E; [|reflexivity].
    apply Qeq_bool_iff in E. exfalso. apply Hne.
    assert (Q : (inject_Z m == inject_Z n)%Q) by (rewrite E, Hn; reflexivity).
    unfold Qeq in Q. simpl in Q. lia.
Qed.

Lemma strict_none_not_in (l : list Episode) (q : Q) (n : Z) :
  List.find (fun e => strict_eq_num (episodeNumber e) (VNum q)) l = None ->
  (inject_Z n == q)%Q -> ~ In n (map episodeNumber l).
Proof.
  intros F Hn Hin. apply List.in_map_iff in Hin as (e & <- & Hin).
  apply (find_none _ _ F) in Hin. simpl in Hin.
  apply Qeq_bool_iff in Hn. rewrite Hn in Hin. discriminate Hin.
Qed.

Lemma addSeason_well_numbered (id : string) (body : SeasonBody) (user : User) (db : Db) :
  cast_keeps_numbers ->
  is_number (body_seasonNumber body) ->
  (forall i s, db !! i = Some s -> well_numbered s) ->
  forall i s, (addSeason id body user db).2 !! i = Some s -> well_numbered s.
Proof.
  intros Hcast Hnumber Hdb i s.
  destruct (addSeason_frame id body user db) as ([H201|Hsame] & _).
  - destruct (addSeason_success id body user db H201)
      as (series & stored & season & _ & Hs & _ & Hfresh & -> & _ & Hseasons & Hnum & _
          & Hep).
    destruct (decide (i = id)) as [->|Hne].
    + rewrite lookup_insert_eq. intros [= <-].
      destruct (Hdb id series Hs) as [Hnd Hall]. unfold well_numbered.
      rewrite Hseasons, map_app. simpl. split.
      * apply NoDup_app_one; [exact Hnd|].
        destruct (body_seasonNumber body) as [| | |q| | | |] eqn:Hq; try destruct Hnumber.
        intros Hin. apply List.in_map_iff in Hin as (s0 & E & Hin).
        specialize (Hfresh s0 Hin). simpl in Hfresh.
        pose proof (Hcast q _ Hnum) as Hsame. rewrite <- E in Hsame.
        apply Qeq_bool_iff in Hsame. rewrite Hsame in Hfresh. discriminate Hfresh.
      * apply Forall_app. split; [exact Hall|]. constructor; [|constructor].
        rewrite Hep. constructor.
    + rewrite lookup_insert_ne by congruence. apply Hdb.
  - rewrite Hsame. apply Hdb.
Qed.

Lemma addEpisode_well_numbered (id sn : string) (e : EpisodeData) (user : User) (db : Db) :
  cast_keeps_numbers ->
  is_number (data_episodeNumber e) ->
  (forall i s, db !! i = Some s -> well_numbered s) ->
  forall i s, (addEpisode id sn e user db).2 !! i = Some s -> well_numbered s.
Proof.
  intros Hcast Hnumber Hdb i s.
  destruct (addEpisode_frame id sn e user db) as ([H201|Hsame] & _).
  - destruct (addEpisode_success id sn e user db H201)
      as (series & stored & season & episode & _ & Hs & _ & F & G & C & -> & _ & Hseasons).
    destruct (decide (i = id)) as [->|Hne].
    + rewrite lookup_insert_eq. intros [= <-].
      destruct (Hdb id series Hs) as [Hnd Hall]. unfold well_numbered.
      rewrite Hseasons. split.
      * rewrite map_update_first; [exact Hnd|reflexivity].
      * apply (Forall_update_first _ _ _ _ season F); [|exact Hall].
        simpl. rewrite map_app. simpl. apply NoDup_app_one.
        -- apply find_some in F as [Hin _].
           rewrite List.Forall_forall in Hall. exact (Hall season Hin).
        -- unfold cast_episode in C.
           destruct (data_episodeNumber e) as [| | |q| | | |] eqn:Hq;
             try destruct Hnumber.
           destruct (cast_number (VNum q)) as [n|] eqn:Hn; [|discriminate].
           injection C as <-. simpl.
           exact (strict_none_not_in _ q n G (Hcast q n Hn)).
    + rewrite lookup_insert_ne by congruence. apply Hdb.
  - rewrite Hsame. apply Hdb.
Qed.

(** X9. Requests to the two handlers that carry their season or episode
    number as a JSON number never give a series two seasons of one
    number, nor a season two episodes of one number: when every document
    of the collection is numbered so before a sequence of such requests,
    every document is numbered so after each of them, the refused ones
    included. The cast is taken to store a number as the number it is;
    nothing is claimed for a request that sends the number as a
    string. *)
Theorem handlers_keep_numbering (db : Db) (calls : list Call) :
  cast_keeps_numbers ->
  Forall numeric_request calls ->
  (forall i s, db !! i = Some s -> well_numbered s) ->
  forall c saved db', In (c, saved, db') (run db calls) ->
    forall i s, db' !! i = Some s -> well_numbered s.
Proof.
  intros Hcast Hreq. revert db.
  induction Hreq as [|c0 rest Hc0 Hrest IH]; intros db Hdb c saved db'.
  - intros [].
  - simpl. destruct (exec c0 db) as [saved0 db0] eqn:E.
    assert (Hdb0 : forall i s, db0 !! i = Some s -> well_numbered s).
    { destruct c0 as [id body user|id sn e user|id sn e]; simpl in E.
      - pose proof (addSeason_well_numbered id body user db Hcast Hc0 Hdb) as W.
        destruct (addSeason id body user db) as [res d]. injection E as _ <-. exact W.
      - pose proof (addEpisode_well_numbered id sn e user db Hcast Hc0 Hdb) as W.
        destruct (addEpisode id sn e user db) as [res d]. injection E as _ <-. exact W.
      - destruct Hc0. }
    intros [[= _ _ <-]|Hin]; [exact Hdb0|].
    exact (IH db0 Hdb0 c saved db' Hin).
Qed.

(** X10. After an [addEpisode] that was answered 201 on a body carrying
    the episode number as a JSON number, the model's [getEpisode], which
    found no episode under the two numbers before, finds the new episode
    under the number its season bears and its own number; and every
    episode [getEpisode] found in the series before is still found under
    the same two numbers. The cast is taken to store a number as the
    number it is. *)
Theorem addEpisode_then_getEpisode (id sn : string) (e : EpisodeData) (user : User)
    (db : Db) :
  cast_keeps_numbers ->
  is_number (data_episodeNumber e) ->
  status (addEpisode id sn e user db).1 = 201 ->
  exists series stored n episode,
    db !! id = Some series
    /\ (addEpisode id sn e user db).2 !! id = Some stored
    /\ loose_eq_num n (VStr sn) = true
    /\ cast_episode e = Some episode
    /\ getEpisode series n (episodeNumber episode) = None
    /\ getEpisode stored n (episodeNumber episode) = Some episode
    /\ forall m k e', getEpisode series m k = Some e' -> getEpisode stored m k = Some e'.
Proof.
  intros Hcast Hnumber H201.
  destruct (addEpisode_success id sn e user db H201)
    as (series & stored & season & episode & _ & Hs & _ & F & G & C & Hdb' & _ & Hseasons).
  exists series, stored, (seasonNumber season), episode.
  destruct (find_some _ _ F) as [_ Hloose].
  pose proof (loose_strict sn (seasonNumber season) Hloose) as Hsame.
  assert (F' : List.find (fun s => seasonNumber s =? seasonNumber season) (seasons series)
               = Some season).
  { rewrite <- F. apply find_ext. intros x. symmetry. apply Hsame. }
  assert (Hupd : seasons stored
                 = update_first (fun s => seasonNumber s =? seasonNumber season)
                                (push_episode episode) (seasons series)).
  { rewrite Hseasons. clear -Hsame.
    induction (seasons series) as [|x l IH]; simpl; [reflexivity|].
    rewrite IH, Hsame. reflexivity. }
  assert (G' : List.find (fun e0 => episodeNumber e0 =? episodeNumber episode)
                         (episodes season) = None).
  { unfold cast_episode in C.
    destruct (data_episodeNumber e) as [| | |q| | | |] eqn:Hq; try destruct Hnumber.
    destruct (cast_number (VNum q)) as [n|] eqn:Hn; [|discriminate].
    injection C as <-. simpl.
    pose proof (Hcast q n Hn) as Hq'. apply Qeq_bool_iff in Hq'.
    rewrite <- G. apply find_ext. intros x. simpl.
    destruct (Z.eqb_spec (episodeNumber x) n) as [->|Hne]; [symmetry; exact Hq'|].
    destruct (Qeq_bool (inject_Z (episodeNumber x)) q) eqn:E; [|reflexivity].
    exfalso. apply Hne. apply Qeq_bool_iff in E, Hq'.
    assert (Q : (inject_Z (episodeNumber x) == inject_Z n)%Q) by (rewrite E, Hq'; reflexivity).
    unfold Qeq in Q. simpl in Q. lia. }
  split; [exact Hs|]. split; [rewrite Hdb'; apply lookup_insert_eq|].
  split; [exact Hloose|]. split; [exact C|]. split; [|split].
  - unfold getEpisode. rewrite F'. exact G'.
  - unfold getEpisode. rewrite Hupd, find_update_first_same by reflexivity.
    rewrite F'. simpl. rewrite (find_app_missing _ _ _ G'). simpl.
    rewrite Z.eqb_refl. reflexivity.
  - intros m k e'. unfold getEpisode. rewrite Hupd.
    destruct (Z.eq_dec m (seasonNumber season)) as [->|Hne].
    + rewrite find_update_first_same by reflexivity. rewrite F'. simpl.
      apply find_app_found.
    + rewrite find_update_first_other; [trivial|reflexivity|].
      intros x Hx. simpl in Hx. apply Z.eqb_eq in Hx. apply Z.eqb_neq. congruence.
Qed.

(** *** The hook run again *)

(** X11. A save that does not touch the title changes a document exactly
    when its two counts disagree with its seasons; and once the hook has
    run, with or without a new slug, running it again for an untouched
    title changes nothing. *)
Theorem pre_save_settles (flag : bool) (this : Series) :
  (counts_agree this <-> pre_save false this = this)
  /\ pre_save false (pre_save flag this) = pre_save flag this.
Proof.
  assert (One : forall s, counts_agree s <-> pre_save false s = s).
  { intros s. unfold counts_agree, pre_save. rewrite fold_episode_count.
    destruct s as [t sl y ss ns ne ab lm v]; unfold set_counts; simpl. split.
    - intros [-> ->]. reflexivity.
    - intros E. injection E as E1 E2. split; lia. }
  split; [apply One|]. apply One. apply pre_save_counts.
Qed.

End Numbering.

Section NumberingInstances.
Import JS SeriesModel SeriesController Fixtures.

(** The sample cast stores a number as the number it is. *)
Lemma sample_cast_keeps_numbers : @cast_keeps_numbers Sample.odm.
Proof.
  intros q n E. simpl in E. unfold Sample.sample_cast_number, Sample.integer_of in E.
  destruct (Qeq_bool (inject_Z (Sample.truncate q)) q) eqn:T; [|discriminate].
  injection E as <-. apply Qeq_bool_iff. exact T.
Qed.

(** X9 at a season and then an episode added to a series without seasons. *)
Lemma handlers_keep_numbering_witness :
  exists db' stored,
    In (add_pilot, true, db')
       (@run Sample.builtins Sample.odm db_bare [add_season_one; add_pilot])
    /\ db' !! series_id = Some stored
    /\ map seasonNumber (seasons stored) = [1]
    /\ well_numbered stored.
Proof.
  eexists _, _. split; [right; left; reflexivity|]. split; [reflexivity|].
  split; [reflexivity|].
  refine (@handlers_keep_numbering Sample.builtins Sample.odm db_bare
            [add_season_one; add_pilot] sample_cast_keeps_numbers _ _ add_pilot true _ _
            series_id _ _).
  - repeat constructor.
  - intros i s Hs. unfold db_bare in Hs.
    apply lookup_singleton_Some in Hs as [_ <-].
    split; constructor.
  - right. left. reflexivity.
  - reflexivity.
Defined.

(** X10 at the first episode of a first season. *)
Lemma addEpisode_then_getEpisode_witness :
  exists series stored n episode,
    db_season_one !! series_id = Some series
    /\ (@addEpisode Sample.builtins Sample.odm series_id "1" pilot_data owner
          db_season_one).2 !! series_id
       = Some stored
    /\ @loose_eq_num Sample.builtins n (VStr "1") = true
    /\ @cast_episode Sample.odm pilot_data = Some episode
    /\ getEpisode series n (episodeNumber episode) = None
    /\ getEpisode stored n (episodeNumber episode) = Some episode
    /\ forall m k e', getEpisode series m k = Some e' -> getEpisode stored m k = Some e'.
Proof.
  apply (@addEpisode_then_getEpisode Sample.builtins Sample.odm series_id "1" pilot_data
           owner db_season_one sample_cast_keeps_numbers I).
  vm_compute. reflexivity.
Defined.

End NumberingInstances.

(** ** Ads: ranking, listing and counting *)

Section AdsMore.
Import JS Mongo Helpers AdModel AdController AdCounters.
Context `{Builtins}.

Lemma In_existsb_string (a : string) (l : list string) :
  existsb (String.eqb a) l = true <-> In a l.
Proof.
  rewrite existsb_exists. split.
  - intros (x & Hx & E). apply String.eqb_eq in E as ->. exact Hx.
  - intros Hin. exists a. split; [exact Hin|apply String.eqb_refl].
Qed.

Lemma in_country_iff (c : string) (ad : Ad) :
  in_country c ad = true
  <-> targetCountries ad = [] \/ In c (targetCountries ad) \/ In "all" (targetCountries ad).
Proof.
  unfold in_country.
  rewrite !orb_true_iff, !In_existsb_string, Nat.eqb_eq, length_zero_iff_nil. tauto.
Qed.

Lemma positive_difference (a b : Z) : (0 < inject_Z (b - a))%Q <-> a < b.
Proof. change 0%Q with (inject_Z 0). rewrite <- Zlt_Qlt. lia. Qed.

Lemma length_slice_from_start {A : Type} (n : Z) (l : list A) :
  0 <= n -> Z.of_nat (length (slice (Some 0) (Some n) l)) <= n.
Proof.
  intros Hn. unfold slice, rel_index.
  replace (0 <? 0) with false by reflexivity.
  destruct (n <? 0) eqn:E; [apply Z.ltb_lt in E; lia|].
  rewrite length_take. lia.
Qed.

Lemma slice_to_NaN {A : Type} (l : list A) :
  slice (Some 0) None l = [].
Proof.
  unfold slice, rel_index. replace (0 <? 0) with false by reflexivity.
  rewrite (Z.min_l 0) by lia. reflexivity.
Qed.

(** X12. What [getAdsByPlacement] serves is ranked and bounded: an ad
    never stands before one of higher priority; every ad served belongs to
    the collection, has the placement asked for and is active within its
    schedule; when a country is given, every ad served targets no country,
    that country, or "all"; a limit that parses to [n >= 0] bounds the
    number served by [n], one that does not parse serves nothing, and
    without a limit at most five ads are served. *)
Theorem selectAds_ranked_and_limited (now : Z) (collection : list Ad) (pl : string)
    (page device country : option string) (limit : value) :
  let served := selectAds now collection pl page device country limit in
  (forall a b, Precedes a b served -> priority b <= priority a)
  /\ (forall ad, In ad served ->
        In ad collection /\ placement ad = pl /\ isCurrentlyActive now ad = true)
  /\ (forall c ad, country = Some c -> c <> EmptyString -> In ad served ->
        targetCountries ad = [] \/ In c (targetCountries ad)
        \/ In "all" (targetCountries ad))
  /\ (forall n, parseInt (limit_or_default limit) = Some n -> 0 <= n ->
        Z.of_nat (length served) <= n)
  /\ (parseInt (limit_or_default limit) = None -> served = [])
  /\ (limit = VUndefined -> parseInt (VNum 5) = Some 5 -> Z.of_nat (length served) <= 5).
Proof.
  cbv zeta. split; [|split; [|split; [|split; [|split]]]].
  - intros a b P. unfold selectAds in P. apply Precedes_slice in P.
    apply Z.nlt_ge. intros Hlt.
    refine (sort_ordered (fun a b => inject_Z (priority b - priority a)) _ _ a b _ P _);
      cbv beta.
    + intros x y z. rewrite !positive_difference. lia.
    + intros x y. rewrite !positive_difference. lia.
    + apply positive_difference. exact Hlt.
  - intros ad Hin. apply selectAds_sound in Hin.
    apply In_getActiveAdsByPlacement in Hin as (Hc & Hp & Ha & Hs & _).
    split; [exact Hc|]. split; [exact Hp|exact (in_schedule_active now ad Ha Hs)].
  - intros c ad -> Hc Hin. unfold selectAds in Hin. apply In_slice, In_sort in Hin.
    destruct c as [|ch c]; [contradiction|]. simpl in Hin.
    apply filter_In in Hin as [_ Hin]. apply in_country_iff. exact Hin.
  - intros n Hlimit Hn. unfold selectAds. rewrite Hlimit.
    apply length_slice_from_start. exact Hn.
  - intros Hlimit. unfold selectAds. rewrite Hlimit. apply slice_to_NaN.
  - intros -> Hfive. unfold selectAds. simpl limit_or_default. rewrite Hfive.
    apply (length_slice_from_start 5). lia.
Qed.

(** X13. The listing of [getAllAds] can ask for the active ads only, never
    for the inactive ones: the query constrains [isActive], to [true],
    exactly when the parameter is the string "true". With "false" the
    value handed to [buildFilterQuery] is [false], which it drops, and the
    query says nothing on [isActive]. *)
Theorem getAllAds_isActive (type placement isActive network : value) :
  obj_get "isActive" (getAllAds_query type placement isActive network)
  = if strict_eq_str isActive "true" then Some (Field (Is (VBool true))) else None.
Proof.
  unfold getAllAds_query, getAllAds_filters, buildFilterQuery.
  destruct (strict_eq_str isActive "true").
  - apply (buildFilterQuery_plain _ "isActive" (VBool true)).
    + reflexivity.
    + reflexivity.
    + vm_compute. discriminate.
    + unfold special_filter_keys. simpl. intuition discriminate.
    + right. simpl. tauto.
  - destruct (strict_eq_str isActive "false").
    + apply (buildFilterQuery_skips _ "isActive" (VBool false)); reflexivity.
    + apply (buildFilterQuery_skips _ "isActive" VUndefined); reflexivity.
Qed.

Lemma view_seen (now : Z) (ad : Ad) (path : string) :
  path <> "impressions" -> path <> "updatedAt" ->
  view (incrementImpressions now ad) path = view ad path.
Proof.
  intros Hp Hu. unfold view, incrementImpressions, save, set_updatedAt, set_impressions.
  simpl.
  destruct (String.eqb_spec path "impressions"); [contradiction|].
  destruct (String.eqb_spec path "updatedAt"); [contradiction|reflexivity].
Qed.

Lemma view_clicked (now : Z) (ad : Ad) (path : string) :
  path <> "clicks" -> path <> "updatedAt" ->
  view (incrementClicks now ad) path = view ad path.
Proof.
  intros Hp Hu. unfold view, incrementClicks, save, set_updatedAt, set_clicks. simpl.
  destruct (String.eqb_spec path "clicks"); [contradiction|].
  destruct (String.eqb_spec path "updatedAt"); [contradiction|reflexivity].
Qed.

Lemma counters_swap (now : Z) (ad : Ad) :
  incrementClicks now (incrementImpressions now ad)
  = incrementImpressions now (incrementClicks now ad).
Proof. reflexivity. Qed.

(** X14. Recording an impression or a click under an id the store cannot
    cast answers 500, and under an id that casts and names no ad 404;
    neither writes. On a known ad it raises that one counter by one, sets
    [updatedAt] to the time of the save and changes no other field of the
    stored document, so the ad is served for the same requests as before;
    no other ad is touched; the click's answer carries the redirect
    address exactly when the ad has one; and a click and an impression end
    in the same collection in either order when they are on two ads, or
    on one ad at one time. *)
Theorem recording_counts (now : Z) (id : string) (db : AdDb) :
  (castable_id id = false ->
     status (recordImpression now id db).1 = 500 /\ (recordImpression now id db).2 = db
     /\ status (recordClick now id db).1 = 500 /\ (recordClick now id db).2 = db)
  /\ (castable_id id = true -> db !! id = None ->
        recordImpression now id db = (notFound, db)
        /\ recordClick now id db = (notFound, db))
  /\ (forall ad, castable_id id = true -> db !! id = Some ad ->
        exists seen clicked,
          (recordImpression now id db).2 !! id = Some seen
          /\ (recordClick now id db).2 !! id = Some clicked
          /\ impressions seen = impressions ad + 1
          /\ clicks clicked = clicks ad + 1
          /\ updatedAt seen = now /\ updatedAt clicked = now
          /\ (forall path, path <> "impressions" -> path <> "updatedAt" ->
                view seen path = view ad path)
          /\ (forall path, path <> "clicks" -> path <> "updatedAt" ->
                view clicked path = view ad path)
          /\ (forall t pl pg dv,
                matches (activeAdsQuery t pl pg dv) (view seen)
                = matches (activeAdsQuery t pl pg dv) (view ad)
                /\ matches (activeAdsQuery t pl pg dv) (view clicked)
                   = matches (activeAdsQuery t pl pg dv) (view ad))
          /\ serve seen = serve ad /\ serve clicked = serve ad
          /\ status (recordImpression now id db).1 = 200
          /\ status (recordClick now id db).1 = 200
          /\ redirect (recordClick now id db).1
             = if is_empty (redirectUrl ad) then None else Some (redirectUrl ad))
  /\ (forall other, other <> id ->
        (recordImpression now id db).2 !! other = db !! other
        /\ (recordClick now id db).2 !! other = db !! other)
  /\ (forall other t, other <> id \/ t = now ->
        (recordClick t other (recordImpression now id db).2).2
        = (recordImpression now id (recordClick t other db).2).2).
Proof.
  split; [|split; [|split; [|split]]].
  - intros Hid. unfold recordImpression, recordClick. rewrite Hid. simpl. auto.
  - intros Hid Hnone. unfold recordImpression, recordClick. rewrite Hid, Hnone.
    split; reflexivity.
  - intros ad Hid Had. unfold recordImpression, recordClick. rewrite Hid, Had. cbv zeta.
    exists (incrementImpressions now ad), (incrementClicks now ad).
    split; [apply lookup_insert_eq|]. split; [apply lookup_insert_eq|].
    split; [reflexivity|]. split; [reflexivity|].
    split; [reflexivity|]. split; [reflexivity|].
    split; [intros path; apply view_seen|]. split; [intros path; apply view_clicked|].
    split; [|repeat split].
    intros t pl pg dv. split; apply eq_true_iff_eq; rewrite !matches_activeAdsQuery;
      reflexivity.
  - intros other Hne. unfold recordImpression, recordClick.
    destruct (castable_id id); simpl; [|split; reflexivity].
    destruct (db !! id); simpl; [|split; reflexivity].
    split; apply lookup_insert_ne; congruence.
  - intros other t Hcase. unfold recordImpression, recordClick.
    destruct (castable_id id) eqn:Hid; simpl.
    2:{ destruct (castable_id other); simpl; [|reflexivity].
        destruct (db !! other); reflexivity. }
    destruct (decide (other = id)) as [->|Hne].
    + destruct Hcase as [Hne| ->]; [congruence|]. rewrite Hid. simpl.
      destruct (db !! id) as [ad|] eqn:Had; simpl.
      * rewrite !lookup_insert_eq. simpl. rewrite !insert_insert_eq. reflexivity.
      * rewrite Had. reflexivity.
    + destruct (castable_id other) eqn:Hother; simpl.
      2:{ destruct (db !! id); reflexivity. }
      destruct (db !! id) as [ad|] eqn:Had; simpl.
      * rewrite lookup_insert_ne by congruence.
        destruct (db !! other) as [ad'|] eqn:Had'; simpl.
        -- rewrite lookup_insert_ne by congruence. rewrite Had. simpl.
           apply insert_insert_ne. congruence.
        -- rewrite Had. reflexivity.
      * destruct (db !! other) as [ad'|] eqn:Had'; simpl.
        -- rewrite lookup_insert_ne by congruence. rewrite Had. reflexivity.
        -- rewrite Had. reflexivity.
Qed.

End AdsMore.

(** ** The feed: what is on it, and how it is cut into pages *)

Section FeedMore.
Import JS Mongo Helpers ContentController GenreFeed.
Context `{Builtins}.

(** *** Cutting a page *)

Lemma slice_page {A : Type} (s L : Z) (l : list A) :
  0 <= s -> 0 <= L ->
  slice (Some s) (Some (s + L)) l = take (Z.to_nat L) (drop (Z.to_nat s) l).
Proof.
  intros Hs HL. unfold slice, rel_index.
  destruct (s <? 0) eqn:E1; [apply Z.ltb_lt in E1; lia|].
  destruct (s + L <? 0) eqn:E2; [apply Z.ltb_lt in E2; lia|].
  destruct (Z_lt_le_dec s (Z.of_nat (length l))) as [Hin|Hout].
  - rewrite (Z.min_l s) by lia.
    destruct (Z_le_gt_dec (s + L) (Z.of_nat (length l))) as [Hfull|Hshort].
    + rewrite Z.min_l by lia. f_equal. lia.
    + rewrite Z.min_r by lia.
      rewrite !take_ge; [reflexivity| |]; rewrite length_drop; lia.
  - rewrite (Z.min_r s) by lia.
    rewrite !(drop_ge l); [|lia|lia]. rewrite !take_nil. reflexivity.
Qed.

Lemma slice_page_zero {A : Type} (L : Z) (l : list A) :
  0 < L -> slice (Some ((0 - 1) * L)) (Some ((0 - 1) * L + L)) l = [].
Proof.
  intros HL. unfold slice, rel_index.
  replace ((0 - 1) * L + L) with 0 by lia.
  replace (0 <? 0) with false by reflexivity.
  rewrite (Z.min_l 0) by lia.
  replace (Z.to_nat (0 - _)) with 0%nat; [reflexivity|].
  destruct ((0 - 1) * L <? 0) eqn:E; [lia|apply Z.ltb_ge in E; lia].
Qed.



(** X16. Page 0 is answered with no item at all, and the envelope calls
    it page 1 without a previous page. *)
Theorem getContent_page_zero (movies series : list Content) (q : ContentParams) (L : Z) :
  parseInt (q_page q) = Some 0 -> parseInt (q_limit q) = Some L ->
  parseInt (VNum (inject_Z 0)) = Some 0 -> 0 < L ->
  let answer := getContent movies series q in
  docs answer = [] /\ page answer = 1 /\ hasPrevPage answer = false
  /\ prevPage answer = None
  /\ totalDocs answer = Z.of_nat (length (allContent movies series q)).
Proof.
  intros Hpage Hlimit Hzero HL. cbv zeta.
  unfold getContent, createPagination. simpl. rewrite Hpage, Hlimit. simpl.
  rewrite Hzero. simpl. repeat split. apply slice_page_zero. exact HL.
Qed.

(** *** What the queries let through *)

Lemma matches_obj_get (qy : query) (d : doc) (key : string) (c : clause) :
  matches qy d = true -> obj_get key qy = Some c -> matches_clause key c d = true.
Proof.
  unfold matches, obj_get. intros Hall Hget.
  destruct (List.find _ qy) as [[k c']|] eqn:F; [|discriminate].
  injection Hget as ->. apply find_some in F as [Hin Hk]. simpl in Hk.
  apply String.eqb_eq in Hk as ->.
  rewrite forallb_forall in Hall. exact (Hall _ Hin).
Qed.

Lemma obj_get_spread_other {A : Type} (key : string) (a b : list (string * A)) :
  obj_get key b = None -> obj_get key (obj_spread a b) = obj_get key a.
Proof.
  unfold obj_spread. revert a. induction b as [|[k v] b IH]; intros a Hb; simpl.
  - reflexivity.
  - rewrite obj_get_cons in Hb. destruct (String.eqb k key) eqn:E; [discriminate|].
    rewrite (IH _ Hb), obj_get_set, E. reflexivity.
Qed.

Lemma baseQuery_adminStatus (q : ContentParams) :
  obj_get "adminStatus" (baseQuery q) = Some (Field (Is (VStr "Published"))).
Proof.
  unfold baseQuery. rewrite obj_get_spread_other.
  - destruct (_ && _); [|reflexivity]. rewrite obj_get_spread_other; [reflexivity|].
    unfold buildSearchQuery. destruct (_ || _); reflexivity.
  - destruct (obj_get "adminStatus" (buildFilterQuery _)) as [c|] eqn:G; [|reflexivity].
    unfold buildFilterQuery in G.
    destruct (buildFilterQuery_origin _ _ _ _ _ G) as [Hq|(v & Hv & _)]; discriminate.
Qed.

Lemma published_of_query (qy : query) (c : Content) :
  obj_get "adminStatus" qy = Some (Field (Is (VStr "Published"))) ->
  matches qy (view c) = true -> adminStatus c = "Published".
Proof.
  intros Hget Hm. pose proof (matches_obj_get _ _ _ _ Hm Hget) as Hc.
  simpl in Hc. apply String.eqb_eq in Hc. exact Hc.
Qed.

Lemma type_of_query (qy : query) (c : Content) (kind : string) :
  matches (obj_set "type" (Field (Is (VStr kind))) qy) (view c) = true -> type c = kind.
Proof.
  intros Hm.
  assert (Hget : obj_get "type" (obj_set "type" (Field (Is (VStr kind))) qy)
                 = Some (Field (Is (VStr kind)))).
  { rewrite obj_get_set. reflexivity. }
  pose proof (matches_obj_get _ _ _ _ Hm Hget) as Hc.
  simpl in Hc. apply String.eqb_eq in Hc. exact Hc.
Qed.

Lemma In_found {F : Type} (f : Content -> F) (spec : sort_spec) (qy : query)
    (l : list Content) (x : F) :
  In x (map f (sort_by view spec (find view qy l))) ->
  exists c, x = f c /\ In c l /\ matches qy (view c) = true.
Proof.
  intros Hin. apply in_map_iff in Hin as (c & <- & Hin).
  unfold sort_by in Hin. apply In_sort in Hin. unfold find in Hin.
  apply filter_In in Hin as [Hin Hm]. exists c. auto.
Qed.

Lemma adminStatus_typed (kind : string) (q : ContentParams) :
  obj_get "adminStatus" (obj_set "type" (Field (Is (VStr kind))) (baseQuery q))
  = Some (Field (Is (VStr "Published"))).
Proof. rewrite obj_get_set. simpl. apply baseQuery_adminStatus. Qed.

(** X17. Whatever the search and the filters are, every item [getContent]
    answers with is a published title of one of the two collections,
    marked "Movie" or "Series" after its collection. Asked for the type
    movie, series, anime or kdrama, every item is of the stored type
    Movie, Series, Anime or Kdrama; asked for a type other than these and
    "all", the feed is empty and has no page. *)
Theorem getContent_published_only (movies series : list Content) (q : ContentParams) :
  let answer := getContent movies series q in
  (forall item, In item (docs answer) ->
     adminStatus (content item) = "Published"
     /\ ((contentType item = "Movie" /\ exists m, In m movies /\ item = movieItem m)
         \/ (contentType item = "Series" /\ exists s, In s series /\ item = seriesItem s))
     /\ (q_type q = "movie" -> contentType item = "Movie" /\ type (content item) = "Movie")
     /\ (q_type q = "series" ->
           contentType item = "Series" /\ type (content item) = "Series")
     /\ (q_type q = "anime" -> contentType item = "Series" /\ type (content item) = "Anime")
     /\ (q_type q = "kdrama" ->
           contentType item = "Series" /\ type (content item) = "Kdrama"))
  /\ (~ In (q_type q) ["all"; "movie"; "series"; "anime"; "kdrama"] ->
        docs answer = [] /\ totalDocs answer = 0 /\ totalPages answer = 0).
Proof.
  cbv zeta. split.
  - intros item Hin.
    assert (Hfeed : In item (allContent movies series q)).
    { unfold getContent, createPagination in Hin. simpl in Hin. exact (In_slice _ _ _ _ Hin). }
    clear Hin. unfold allContent, wants_movies, wants_series in Hfeed.
    pose proof (baseQuery_adminStatus q) as Hbase.
    pose proof (fun kind => adminStatus_typed kind q) as Htyped.
    remember (q_type q) as t eqn:Et. clear Et. revert Hfeed.
    destruct (String.eqb_spec t "all") as [E|Hall].
    { subst t. simpl. intros Hfeed. apply In_sort, in_app_iff in Hfeed as [Hm|Hs].
      - apply In_found in Hm as (c & -> & Hc & Hm).
        split; [exact (published_of_query _ _ Hbase Hm)|].
        split; [left; split; [reflexivity|exists c; auto]|].
        repeat split; discriminate.
      - apply In_found in Hs as (c & -> & Hc & Hm).
        split; [exact (published_of_query _ _ Hbase Hm)|].
        split; [right; split; [reflexivity|exists c; auto]|].
        repeat split; discriminate. }
    destruct (String.eqb_spec t "movie") as [E|Hmovie].
    { subst t. simpl. rewrite app_nil_r. intros Hfeed.
      apply In_found in Hfeed as (c & -> & Hc & Hm).
      split; [exact (published_of_query _ _ (Htyped _) Hm)|].
      split; [left; split; [reflexivity|exists c; auto]|].
      repeat split; try discriminate. exact (type_of_query _ _ _ Hm). }
    simpl.
    destruct (String.eqb_spec t "series") as [E|Hseries].
    { subst t. simpl. intros Hfeed. apply In_found in Hfeed as (c & -> & Hc & Hm).
      split; [exact (published_of_query _ _ (Htyped _) Hm)|].
      split; [right; split; [reflexivity|exists c; auto]|].
      repeat split; try discriminate. exact (type_of_query _ _ _ Hm). }
    destruct (String.eqb_spec t "anime") as [E|Hanime].
    { subst t. simpl. intros Hfeed. apply In_found in Hfeed as (c & -> & Hc & Hm).
      split; [exact (published_of_query _ _ (Htyped _) Hm)|].
      split; [right; split; [reflexivity|exists c; auto]|].
      repeat split; try discriminate. exact (type_of_query _ _ _ Hm). }
    destruct (String.eqb_spec t "kdrama") as [E|Hkdrama].
    { subst t. simpl. intros Hfeed. apply In_found in Hfeed as (c & -> & Hc & Hm).
      split; [exact (published_of_query _ _ (Htyped _) Hm)|].
      split; [right; split; [reflexivity|exists c; auto]|].
      repeat split; try discriminate. exact (type_of_query _ _ _ Hm). }
    simpl. intros [].
  - intros Hother.
    assert (Hempty : allContent movies series q = []).
    { unfold allContent, wants_movies, wants_series.
      destruct (String.eqb_spec (q_type q) "all") as [E|_];
        [exfalso; apply Hother; rewrite E; simpl; tauto|].
      destruct (String.eqb_spec (q_type q) "movie") as [E|_];
        [exfalso; apply Hother; rewrite E; simpl; tauto|].
      destruct (String.eqb_spec (q_type q) "series") as [E|_];
        [exfalso; apply Hother; rewrite E; simpl; tauto|].
      destruct (String.eqb_spec (q_type q) "anime") as [E|_];
        [exfalso; apply Hother; rewrite E; simpl; tauto|].
      destruct (String.eqb_spec (q_type q) "kdrama") as [E|_];
        [exfalso; apply Hother; rewrite E; simpl; tauto|].
      reflexivity. }
    unfold getContent, createPagination. simpl. rewrite Hempty. simpl.
    split; [|split; [reflexivity|apply ceil_div_zero]].
    unfold slice. simpl. rewrite drop_nil, take_nil. reflexivity.
Qed.

End FeedMore.

(** ** The listing of a genre *)

Section GenreListing.
Import JS Mongo Helpers ContentController GenreFeed.
Context `{Builtins}.

Local Abbreviation genreSpec := [("rating", -1); ("views", -1)].

Lemma genre_asks_iff (x y : Content) :
  (0 < inject_Z (compare_docs genreSpec (view x) (view y)))%Q
  <-> (rating x < rating y
       \/ (rating x == rating y /\ inject_Z (views x) < inject_Z (views y)))%Q.
Proof.
  change 0%Q with (inject_Z 0). rewrite <- Zlt_Qlt.
  change (compare_docs _ (view x) (view y))
    with (match Qcompare (rating x) (rating y) with
          | Eq => match Qcompare (inject_Z (views x)) (inject_Z (views y)) with
                  | Eq => 0
                  | c => -1 * sign_of c
                  end
          | c => -1 * sign_of c
          end).
  destruct (Qcompare_spec (rating x) (rating y));
    [destruct (Qcompare_spec (inject_Z (views x)) (inject_Z (views y)))|..];
    simpl; split; intros; try lia; try lra.
Qed.

Lemma matches_genreQuery (genre : string) (c : Content) :
  matches (genreQuery genre) (view c) = true
  <-> adminStatus c = "Published" /\ In genre (genres c).
Proof.
  unfold matches, genreQuery. simpl.
  rewrite andb_true_r, orb_false_r, andb_true_iff, In_existsb_literal, In_map_VStr,
          String.eqb_eq.
  reflexivity.
Qed.

Lemma In_tagged (tg : string) (l : list Content) (t : Tagged) :
  In t (map (fun m => {| document := m; tag := tg |}) l) <-> tag t = tg /\ In (document t) l.
Proof.
  rewrite in_map_iff. destruct t as [d g]. simpl. split.
  - intros (m & [= <- <-] & Hin). auto.
  - intros [<- Hin]. exists d. auto.
Qed.

Lemma ranked_part (tg : string) (l : list Content) (a b : Tagged) :
  Precedes a b (map (fun m => {| document := m; tag := tg |}) (sort_by view genreSpec l)) ->
  tag a = tg /\ tag b = tg /\ (rating (document b) <= rating (document a))%Q.
Proof.
  intros P. apply Precedes_map in P as (a0 & b0 & P & <- & <-). simpl.
  split; [reflexivity|]. split; [reflexivity|].
  apply Qnot_lt_le. intros Hlt. unfold sort_by in P.
  refine (sort_ordered _ _ _ a0 b0 _ P _); cbv beta.
  - intros u v w. rewrite !genre_asks_iff. lra.
  - intros u v. rewrite !genre_asks_iff. lra.
  - apply genre_asks_iff. left. exact Hlt.
Qed.

(** X18. The listing of a genre holds exactly the published titles that
    bear the genre, from the collections the type asks for, each tagged
    after its collection. It is not sorted as a whole: all movies stand
    before all series, and only within each kind no title stands before
    one of higher rating. For a page number [p >= 1] and a page size
    [L > 0] the answer holds the entries [(p-1)*L .. p*L - 1] of it. *)
Theorem genre_listing (movies series : list Content) (genre kind : string) :
  let listing := genreContent movies series genre kind in
  (forall t, In t listing
     <-> (tag t = "Movie" /\ (kind = "all" \/ kind = "movie")
          /\ In (document t) movies
          /\ adminStatus (document t) = "Published" /\ In genre (genres (document t)))
         \/ (tag t = "Series" /\ (kind = "all" \/ kind = "series")
             /\ In (document t) series
             /\ adminStatus (document t) = "Published"
             /\ In genre (genres (document t))))
  /\ (forall a b, Precedes a b listing ->
        (tag a = "Movie" /\ tag b = "Series")
        \/ (tag a = tag b /\ (rating (document b) <= rating (document a))%Q))
  /\ (forall page limit p L,
        parseInt page = Some p -> parseInt limit = Some L -> 1 <= p -> 0 < L ->
        let answer := getContentByGenre movies series genre page limit kind in
        docs answer = take (Z.to_nat L) (drop (Z.to_nat ((p - 1) * L)) listing)
        /\ totalDocs answer = Z.of_nat (length listing)).
Proof.
  cbv zeta. split; [|split].
  - intros t. unfold genreContent. rewrite in_app_iff.
    assert (Hpart : forall tg (cond : bool) coll,
               In t (if cond
                     then map (fun m => {| document := m; tag := tg |})
                              (sort_by view genreSpec (find view (genreQuery genre) coll))
                     else [])
               <-> cond = true /\ tag t = tg /\ In (document t) coll
                   /\ adminStatus (document t) = "Published"
                   /\ In genre (genres (document t))).
    { intros tg cond coll. destruct cond; simpl; [|intuition discriminate].
      rewrite In_tagged. unfold sort_by, find.
      rewrite In_sort, filter_In, matches_genreQuery. tauto. }
    rewrite !Hpart, !orb_true_iff, !String.eqb_eq. tauto.
  - intros a b P. unfold genreContent in P.
    apply Precedes_app in P as [P|[P|[Ha Hb]]].
    + destruct (_ || _); [|destruct (Precedes_nil _ _ P)].
      apply ranked_part in P as (-> & -> & Hr). right. auto.
    + destruct (String.eqb kind "all" || String.eqb kind "series");
        [|destruct (Precedes_nil _ _ P)].
      apply ranked_part in P as (-> & -> & Hr). right. auto.
    + left. split.
      * destruct (_ || _); [|destruct Ha]. apply In_tagged in Ha as [Ha _]. exact Ha.
      * destruct (String.eqb kind "all" || String.eqb kind "series"); [|destruct Hb].
        apply In_tagged in Hb as [Hb _]. exact Hb.
  - intros page limit p L Hpage Hlimit Hp HL.
    unfold getContentByGenre, createPagination. simpl. rewrite Hpage, Hlimit. simpl.
    split; [apply slice_page; nia|reflexivity].
Qed.

End GenreListing.

(** ** The model's own [addEpisode] *)

Section ModelMore.
Import JS SeriesModel SeriesController.
Context `{Odm}.

Lemma In_update_first {A : Type} (p : A -> bool) (f : A -> A) (l : list A) (y : A) :
  List.find p l = Some y -> In (f y) (update_first p f l).
Proof.
  induction l as [|x l IH]; simpl; [discriminate|].
  destruct (p x).
  - intros [= ->]. left. reflexivity.
  - intros F. right. exact (IH F).
Qed.

(** X19. The model's [addEpisode] has no check for an episode number that
    is taken: on a season the series has, it stores the episode whenever
    the save is accepted, and the episode count rises by one. When the
    season already had an episode of that number, the stored season has
    two of them. *)
Theorem model_addEpisode_keeps_duplicates (this : Series) (n : Z) (e : Episode)
    (season : Season) :
  List.find (fun s => seasonNumber s =? n) (seasons this) = Some season ->
  validates (set_seasons (update_first (fun s => seasonNumber s =? n) (push_episode e)
                                       (seasons this)) this) = true ->
  exists stored,
    SeriesModel.addEpisode this n e = Some stored
    /\ In (push_episode e season) (seasons stored)
    /\ numberOfEpisodes stored = episode_total this + 1
    /\ (In (episodeNumber e) (map episodeNumber (episodes season)) ->
        ~ well_numbered stored).
Proof.
  intros F V. unfold SeriesModel.addEpisode. rewrite F. unfold save. rewrite V. simpl.
  eexists. split; [reflexivity|].
  assert (Hs : seasons (pre_save false
                 (set_seasons (update_first (fun s => seasonNumber s =? n) (push_episode e)
                                            (seasons this)) this))
               = update_first (fun s => seasonNumber s =? n) (push_episode e) (seasons this)).
  { rewrite pre_save_seasons. reflexivity. }
  assert (Hin : In (push_episode e season)
                   (update_first (fun s => seasonNumber s =? n) (push_episode e)
                                 (seasons this))).
  { exact (In_update_first _ _ _ _ F). }
  split; [rewrite Hs; exact Hin|]. split.
  - destruct (pre_save_counts false
                (set_seasons (update_first (fun s => seasonNumber s =? n) (push_episode e)
                                           (seasons this)) this)) as [Hne _].
    rewrite Hne, Hs. unfold episode_total.
    rewrite (episode_sum_update_first _ _ _ _ F). lia.
  - intros Hdup [_ Hall]. rewrite Hs in Hall.
    rewrite List.Forall_forall in Hall. specialize (Hall _ Hin). simpl in Hall.
    rewrite map_app in Hall. simpl in Hall.
    apply NoDup_ListNoDup, List.NoDup_remove_2 in Hall.
    apply Hall. rewrite app_nil_r. exact Hdup.
Qed.

End ModelMore.

(** ** The order of the feed, and its figures *)

Section FeedOrder.
Import JS Mongo Helpers ContentController FeedStats.
Context `{Builtins}.

(** X20. For the seven sort keys [buildSortQuery] knows, the requested
    [sortOrder] has no effect on what is found: the sort specification is
    the same for every order, and so are the feed, the page of items
    [getContent] answers with, its pagination and its figures. Of the
    answer only the [filters], which repeat the request, tell the two
    orders apart. *)
Theorem sortOrder_ignored (movies series : list Content) (q : ContentParams)
    (sortOrder : string) :
  In (q_sortBy q) (obj_keys sortMapping) ->
  buildSortQuery (q_sortBy q) sortOrder = buildSortQuery (q_sortBy q) (q_sortOrder q)
  /\ allContent movies series (with_sortOrder sortOrder q) = allContent movies series q
  /\ getContent movies series (with_sortOrder sortOrder q) = getContent movies series q
  /\ stats movies series (with_sortOrder sortOrder q) = stats movies series q
  /\ q_sortOrder (with_sortOrder sortOrder q) = sortOrder.
Proof.
  intros Hin.
  assert (E : forall o, buildSortQuery (q_sortBy q) o
                        = buildSortQuery (q_sortBy q) (q_sortOrder q)).
  { intros o. simpl in Hin.
    destruct Hin as [<-|[<-|[<-|[<-|[<-|[<-|[<-|[]]]]]]]]; reflexivity. }
  assert (A : allContent movies series (with_sortOrder sortOrder q)
              = allContent movies series q).
  { unfold allContent, baseQuery, with_sortOrder. simpl. rewrite (E sortOrder).
    reflexivity. }
  split; [apply E|]. split; [exact A|]. split; [|split; [|reflexivity]].
  - unfold getContent. rewrite A. reflexivity.
  - unfold stats. rewrite A. reflexivity.
Qed.

Lemma num_or_zero_eq (x : Q) : (num_or_zero x == x)%Q.
Proof.
  unfold num_or_zero. destruct (Qeq_bool x 0) eqn:E; [|reflexivity].
  apply Qeq_bool_iff in E. rewrite E. reflexivity.
Qed.

Lemma resorted (movies series : list Content) (q : ContentParams) :
  q_type q = "all" ->
  exists l, allContent movies series q = JS.sort (feedOrder (q_sortBy q)) l.
Proof. intros Ht. unfold allContent. rewrite Ht. simpl. eexists. reflexivity. Qed.

Lemma feedOrder_default (sortBy : string) (a b : FeedItem) :
  ~ In sortBy (obj_keys sortMapping) -> feedOrder sortBy a b = newestFirst a b.
Proof.
  intros Hout. unfold feedOrder.
  repeat match goal with
         | |- context [if String.eqb sortBy ?k then _ else _] =>
             destruct (String.eqb_spec sortBy k) as [->|?];
               [exfalso; apply Hout; simpl; tauto|]
         end.
  reflexivity.
Qed.

(** X21. For the type "all" the feed is sorted again after the two
    collections are joined, by the sort key alone: newest first for
    "newest" and for a key that is not known, oldest first for "oldest",
    and by falling views, release year or rating for "views", "year" and
    "rating". In the answer of [getContent] no item stands before one
    that this order puts first, whatever [sortOrder] asks for. *)
Theorem feed_sorted_by_key (movies series : list Content) (q : ContentParams)
    (a b : FeedItem) :
  q_type q = "all" ->
  Precedes a b (docs (getContent movies series q)) ->
  (q_sortBy q = "newest" -> createdAt (content b) <= createdAt (content a))
  /\ (q_sortBy q = "oldest" -> createdAt (content a) <= createdAt (content b))
  /\ (q_sortBy q = "views" -> views (content b) <= views (content a))
  /\ (q_sortBy q = "year" -> releaseYear (content b) <= releaseYear (content a))
  /\ (q_sortBy q = "rating" -> (rating (content b) <= rating (content a))%Q)
  /\ (~ In (q_sortBy q) (obj_keys sortMapping) ->
        createdAt (content b) <= createdAt (content a)).
Proof.
  intros Ht P. unfold getContent in P. simpl in P. apply Precedes_slice in P.
  destruct (resorted movies series q Ht) as [l E]. rewrite E in P. clear E.
  split; [|split; [|split; [|split; [|split]]]]; intros Hs.
  - rewrite Hs in P. apply Z.nlt_ge. intros Hlt.
    refine (sort_ordered (feedOrder "newest") _ _ a b _ P _); unfold feedOrder, newestFirst;
      simpl.
    + intros x y z. rewrite !positive_difference. lia.
    + intros x y. rewrite !positive_difference. lia.
    + apply positive_difference. exact Hlt.
  - rewrite Hs in P. apply Z.nlt_ge. intros Hlt.
    refine (sort_ordered (feedOrder "oldest") _ _ a b _ P _); unfold feedOrder; simpl.
    + intros x y z. rewrite !positive_difference. lia.
    + intros x y. rewrite !positive_difference. lia.
    + apply positive_difference. exact Hlt.
  - rewrite Hs in P. apply Z.nlt_ge. intros Hlt.
    refine (sort_ordered (feedOrder "views") _ _ a b _ P _); unfold feedOrder; simpl.
    + intros x y z. rewrite !positive_difference. lia.
    + intros x y. rewrite !positive_difference. lia.
    + apply positive_difference. exact Hlt.
  - rewrite Hs in P. apply Z.nlt_ge. intros Hlt.
    refine (sort_ordered (feedOrder "year") _ _ a b _ P _); unfold feedOrder; simpl.
    + intros x y z. rewrite !positive_difference. lia.
    + intros x y. rewrite !positive_difference. lia.
    + apply positive_difference. exact Hlt.
  - rewrite Hs in P. apply Qnot_lt_le. intros Hlt.
    refine (sort_ordered (feedOrder "rating") _ _ a b _ P _); unfold feedOrder; simpl.
    + intros x y z. rewrite !num_or_zero_eq. lra.
    + intros x y. rewrite !num_or_zero_eq. lra.
    + rewrite !num_or_zero_eq. lra.
  - apply Z.nlt_ge. intros Hlt.
    refine (sort_ordered (feedOrder (q_sortBy q)) _ _ a b _ P _).
    + intros x y z. rewrite !(feedOrder_default _ _ _ Hs). unfold newestFirst.
      rewrite !positive_difference. lia.
    + intros x y. rewrite !(feedOrder_default _ _ _ Hs). unfold newestFirst.
      rewrite !positive_difference. lia.
    + rewrite (feedOrder_default _ _ _ Hs). unfold newestFirst.
      apply positive_difference. exact Hlt.
Qed.

(** *** The figures *)

Lemma count_sort_insert (p : FeedItem -> bool) (cmp : FeedItem -> FeedItem -> Q)
    (x : FeedItem) (l : list FeedItem) :
  length (List.filter p (JS.sort_insert cmp x l)) = length (List.filter p (x :: l)).
Proof.
  induction l as [|y l IH]; simpl; [reflexivity|].
  destruct (Qlt_le_dec 0 (cmp x y)); [|reflexivity].
  simpl in *. destruct (p y), (p x); simpl in *; rewrite IH; reflexivity.
Qed.

Lemma count_sort (p : FeedItem -> bool) (cmp : FeedItem -> FeedItem -> Q)
    (l : list FeedItem) :
  length (List.filter p (JS.sort cmp l)) = length (List.filter p l).
Proof.
  induction l as [|x l IH]; simpl; [reflexivity|].
  rewrite count_sort_insert. simpl. destruct (p x); simpl; rewrite IH; reflexivity.
Qed.

Lemma count_all (p : FeedItem -> bool) (f : Content -> FeedItem) (l : list Content) :
  (forall c, p (f c) = true) -> length (List.filter p (map f l)) = length l.
Proof.
  intros Hp. induction l as [|c l IH]; simpl; [reflexivity|]. rewrite Hp. simpl.
  rewrite IH. reflexivity.
Qed.

Lemma count_none (p : FeedItem -> bool) (f : Content -> FeedItem) (l : list Content) :
  (forall c, p (f c) = false) -> length (List.filter p (map f l)) = 0%nat.
Proof.
  intros Hp. induction l as [|c l IH]; simpl; [reflexivity|]. rewrite Hp. exact IH.
Qed.

(** The feed is the found movies followed by the found series, or a
    sorting of that. *)
Lemma allContent_parts (movies series : list Content) (q : ContentParams) :
  exists ms ss,
    (length (allContent movies series q) = (length ms + length ss)%nat
     /\ forall kind,
          count_of kind (allContent movies series q)
          = count_of kind (map movieItem ms ++ map seriesItem ss))
    /\ (length ms <= length movies)%nat /\ (length ss <= length series)%nat
    /\ (wants_movies (q_type q) = false -> ms = [])
    /\ (wants_series (q_type q) = false -> ss = []).
Proof.
  unfold allContent. cbv zeta.
  match goal with
  | |- context [(if wants_movies (q_type q) then map movieItem ?M else [])
                ++ (if wants_series (q_type q) then map seriesItem ?S else [])] =>
      set (ms := if wants_movies (q_type q) then M else []);
      set (ss := if wants_series (q_type q) then S else []);
      replace (if wants_movies (q_type q) then map movieItem M else [])
        with (map movieItem ms)
        by (unfold ms; destruct (wants_movies (q_type q)); reflexivity);
      replace (if wants_series (q_type q) then map seriesItem S else [])
        with (map seriesItem ss)
        by (unfold ss; destruct (wants_series (q_type q)); reflexivity)
  end.
  exists ms, ss. split; [|split; [|split; [|split]]].
  - destruct (String.eqb (q_type q) "all").
    + split; [rewrite length_sort, length_app, !length_map; reflexivity|].
      intros kind. unfold count_of. rewrite count_sort. reflexivity.
    + split; [rewrite length_app, !length_map; reflexivity|reflexivity].
  - unfold ms. destruct (wants_movies (q_type q)); simpl; [|lia].
    unfold sort_by, find. rewrite length_sort. apply length_filter_le.
  - unfold ss. destruct (wants_series (q_type q)); simpl; [|lia].
    unfold sort_by, find. rewrite length_sort. apply length_filter_le.
  - intros W. unfold ms. rewrite W. reflexivity.
  - intros W. unfold ss. rewrite W. reflexivity.
Qed.

(** X22. The figures [getContent] sends with the feed add up: the count
    of movies and the count of series make the total, which is
    [totalDocs] of the envelope; neither count exceeds its collection; a
    request for movies counts no series, and a request for series, anime
    or kdrama counts no movie. *)
Theorem getContent_stats (movies series : list Content) (q : ContentParams) :
  let figures := stats movies series q in
  movieCount figures + seriesCount figures = totalResults figures
  /\ totalResults figures = totalDocs (getContent movies series q)
  /\ 0 <= movieCount figures <= Z.of_nat (length movies)
  /\ 0 <= seriesCount figures <= Z.of_nat (length series)
  /\ (q_type q = "movie" -> seriesCount figures = 0)
  /\ (In (q_type q) ["series"; "anime"; "kdrama"] -> movieCount figures = 0).
Proof.
  cbv zeta. unfold stats. simpl.
  destruct (allContent_parts movies series q)
    as (ms & ss & (Hlen & Hcount) & Hms & Hss & Hnom & Hnos).
  rewrite !Hcount, Hlen. unfold count_of. rewrite !List.filter_app, !length_app.
  rewrite (count_all _ movieItem ms), (count_none _ seriesItem ss),
          (count_none _ movieItem ms), (count_all _ seriesItem ss); try reflexivity.
  split; [lia|]. split; [reflexivity|].
  split; [lia|]. split; [lia|]. split.
  - intros Ht. rewrite Hnos; [reflexivity|]. unfold wants_series. rewrite Ht. reflexivity.
  - intros Ht. rewrite Hnom; [reflexivity|]. unfold wants_movies.
    simpl in Ht. destruct Ht as [<-|[<-|[<-|[]]]]; reflexivity.
Qed.

End FeedOrder.

(** ** Ads of one priority *)

Section AdTies.
Import JS Mongo Helpers AdModel AdController.
Context `{Builtins}.

Local Abbreviation adSpec := [("priority", -1); ("createdAt", -1)].

Lemma Qcompare_inject_Z (a b : Z) : Qcompare (inject_Z a) (inject_Z b) = Z.compare a b.
Proof. unfold Qcompare. simpl. rewrite !Z.mul_1_r. reflexivity. Qed.

Lemma ads_store_asks_iff (x y : Ad) :
  (0 < inject_Z (compare_docs adSpec (view x) (view y)))%Q
  <-> priority x < priority y \/ (priority x = priority y /\ createdAt x < createdAt y).
Proof.
  change 0%Q with (inject_Z 0). rewrite <- Zlt_Qlt.
  change (compare_docs _ (view x) (view y))
    with (match Qcompare (inject_Z (priority x)) (inject_Z (priority y)) with
          | Eq => match Qcompare (inject_Z (createdAt x)) (inject_Z (createdAt y)) with
                  | Eq => 0
                  | c => -1 * sign_of c
                  end
          | c => -1 * sign_of c
          end).
  rewrite !Qcompare_inject_Z.
  destruct (Z.compare_spec (priority x) (priority y));
    [destruct (Z.compare_spec (createdAt x) (createdAt y))|..]; simpl; lia.
Qed.

Lemma Precedes_filter {A : Type} (p : A -> bool) (a b : A) (l : list A) :
  Precedes a b (List.filter p l) -> Precedes a b l.
Proof.
  induction l as [|x l IH]; simpl; intros P; [exact P|].
  destruct (p x).
  - apply Precedes_cons in P as [[-> Hb]|P].
    + apply Precedes_here. apply filter_In in Hb as [Hb _]. exact Hb.
    + apply Precedes_later. exact (IH P).
  - apply Precedes_later. exact (IH P).
Qed.

(** X23. Among the ads [getAdsByPlacement] serves, two of one priority
    stand in the order of the store: the one created later first. The
    sort by priority in the handler does not disturb it, nor do the
    country filter and the limit. *)
Theorem selectAds_ties_newest_first (now : Z) (collection : list Ad) (pl : string)
    (page device country : option string) (limit : value) (a b : Ad) :
  Precedes a b (selectAds now collection pl page device country limit) ->
  priority a = priority b ->
  createdAt b <= createdAt a.
Proof.
  intros P Hp. unfold selectAds in P. apply Precedes_slice, sort_stable in P.
  destruct P as [Hgt|P]; [cbv beta in Hgt; rewrite positive_difference in Hgt; lia|].
  assert (Pstore : Precedes a b (getActiveAdsByPlacement now collection pl
                                   (param_or page "all") (param_or device "all"))).
  { destruct country as [c|]; [|exact P].
    destruct (is_empty c); [exact P|]. exact (Precedes_filter _ _ _ _ P). }
  clear P. unfold getActiveAdsByPlacement, sort_by in Pstore.
  apply Z.nlt_ge. intros Hlt.
  refine (sort_ordered _ _ _ a b _ Pstore _); cbv beta.
  - intros x y z. rewrite !ads_store_asks_iff. lia.
  - intros x y. rewrite !ads_store_asks_iff. lia.
  - apply ads_store_asks_iff. right. split; [exact Hp|exact Hlt].
Qed.

End AdTies.

(** ** What a success leaves alone *)

Section Identity.
Import JS SeriesModel SeriesController.
Context `{Builtins} `{Odm}.

Lemma save_untitled (validate : bool) (this stored : Series) :
  save validate false this = Some stored ->
  title stored = title this /\ slug stored = slug this
  /\ releaseYear stored = releaseYear this /\ addedBy stored = addedBy this
  /\ views stored = views this /\ lastModifiedBy stored = lastModifiedBy this.
Proof.
  unfold save. destruct (validate && negb (validates this)); [discriminate|].
  intros [= <-]. repeat split.
Qed.

(** X24. A season or an episode added with success changes neither the
    title of the series nor its slug, release year, owner or view count,
    and records the caller as the one who modified it last. *)
Theorem success_keeps_identity (id sn : string) (body : SeasonBody) (e : EpisodeData)
    (user : User) (db : Db) (series : Series) :
  db !! id = Some series ->
  forall result,
    result = addSeason id body user db \/ result = addEpisode id sn e user db ->
    status result.1 = 201 ->
    exists stored,
      result.2 !! id = Some stored
      /\ title stored = title series /\ slug stored = slug series
      /\ releaseYear stored = releaseYear series /\ addedBy stored = addedBy series
      /\ views stored = views series
      /\ lastModifiedBy stored = Some (userId user).
Proof.
  intros Hdb result [-> | ->].
  - unfold addSeason. destruct (castable_id id); [|discriminate]. simpl. rewrite Hdb.
    destruct (denied user series); [discriminate|].
    destruct (List.find _ (seasons series)); [discriminate|].
    destruct (cast_number (body_seasonNumber body)); [|discriminate].
    destruct (save true false _) as [stored|] eqn:S; [|discriminate].
    intros _. exists stored. split; [apply lookup_insert_eq|].
    exact (save_untitled _ _ _ S).
  - unfold addEpisode. destruct (castable_id id); [|discriminate]. simpl. rewrite Hdb.
    destruct (denied user series); [discriminate|].
    destruct (List.find _ (seasons series)) as [season|]; [|discriminate].
    destruct (List.find _ (episodes season)); [discriminate|].
    destruct (cast_episode e); [|discriminate].
    destruct (save true false _) as [stored|] eqn:S; [|discriminate].
    intros _. exists stored. split; [apply lookup_insert_eq|].
    exact (save_untitled _ _ _ S).
Qed.

End Identity.

(** ** The further properties at sample inputs *)

Section MoreInstances.
Import JS Mongo Helpers Fixtures MoreFixtures.


(** X16 at a feed of three. *)
Lemma getContent_page_zero_witness :
  let answer := @ContentController.getContent Sample.builtins [old_movie; new_movie]
                  [new_series] page_zero_request in
  docs answer = [] /\ page answer = 1 /\ hasPrevPage answer = false
  /\ prevPage answer = None /\ totalDocs answer = 3.
Proof.
  apply (@getContent_page_zero Sample.builtins [old_movie; new_movie] [new_series]
           page_zero_request 12 eq_refl eq_refl eq_refl).
  lia.
Defined.

(** X19 at the pilot added a second time. *)
Lemma model_addEpisode_keeps_duplicates_witness :
  exists stored,
    @SeriesModel.addEpisode Sample.odm series_with_pilot 1 pilot = Some stored
    /\ SeriesModel.numberOfEpisodes stored = 2
    /\ ~ well_numbered stored.
Proof.
  destruct (@model_addEpisode_keeps_duplicates Sample.odm series_with_pilot 1 pilot
              (SeriesModel.push_episode pilot season_one) eq_refl eq_refl)
    as (stored & Hadd & _ & Hcount & Hdup).
  exists stored. split; [exact Hadd|]. split; [exact Hcount|].
  apply Hdup. left. reflexivity.
Defined.

(** X20 at the trending feed asked in ascending order. *)
Lemma sortOrder_ignored_witness :
  @ContentController.allContent Sample.builtins [old_movie; new_movie] [new_series]
    (with_sortOrder "asc" trending_request)
  = @ContentController.allContent Sample.builtins [old_movie; new_movie] [new_series]
      trending_request.
Proof.
  refine (proj1 (proj2 (@sortOrder_ignored Sample.builtins [old_movie; new_movie]
                          [new_series] trending_request "asc" _))).
  simpl. tauto.
Defined.

(** X21 at the default request: the newer movie stands before the older. *)
Lemma feed_sorted_by_key_witness :
  ContentController.createdAt old_movie <= ContentController.createdAt new_movie.
Proof.
  refine (proj1 (@feed_sorted_by_key Sample.builtins [old_movie; new_movie] [new_series]
                   newest_request (ContentController.movieItem new_movie)
                   (ContentController.movieItem old_movie) eq_refl _) eq_refl).
  apply Precedes_here. right. left. reflexivity.
Defined.

(** X23 at two Header ads of priority 2. *)
Lemma selectAds_ties_newest_first_witness :
  AdModel.createdAt ad_anywhere <= AdModel.createdAt newer_ad.
Proof.
  refine (@selectAds_ties_newest_first Sample.builtins 5000 [ad_anywhere; newer_ad]
            "Header" None None None VUndefined newer_ad ad_anywhere _ eq_refl).
  apply Precedes_here. left. reflexivity.
Defined.

(** X24 at the first season added to a series without seasons. *)
Lemma success_keeps_identity_witness :
  exists stored,
    (@SeriesController.addSeason Sample.builtins Sample.odm series_id season_one_body
       owner db_bare).2 !! series_id
    = Some stored
    /\ SeriesModel.slug stored = "dark-2017"
    /\ SeriesModel.lastModifiedBy stored = Some "u1".
Proof.
  destruct (@success_keeps_identity Sample.builtins Sample.odm series_id "1"
              season_one_body pilot_data owner db_bare bare_series eq_refl _
              (or_introl eq_refl) eq_refl)
    as (stored & Hdb & _ & Hslug & _ & _ & _ & Hlast).
  exists stored. split; [exact Hdb|]. split; [exact Hslug|exact Hlast].
Defined.

End MoreInstances.
